(** * Lumina service worker: caching strategies, lifecycle and offline queue

    A shallow embedding of [src/frontend/service-worker.js].  The worker is
    event driven: every listener is a computation over an explicit [World]
    (the Cache Storage, the open clients, a clock counting network calls and a
    trace of the effects performed), in a small state-and-exception monad.  An
    awaited promise is run to completion where the source awaits it; a rejected
    promise is an exception.  The activation, whose outcome depends on the
    order in which the platform resolves promises, is a transition system.

    What is not modelled: faults of the Cache Storage itself (its operations
    always succeed), the console and the [Vary] header.  A request of a page
    is identified by its URL as written; the URL of a key of the store is
    what the URL parser of the platform makes of it.

    The listeners for pushes, clicks on a notification, messages and periodic
    checks take what the platform decides as arguments: the payload of the
    push, the readings of the clock, whether background sync and
    notifications are available, whether a message came with a port.  What
    they show, open or reply is their result. *)

From Stdlib Require Import ZArith NArith List String Ascii Bool Lia.
From stdpp Require Import base strings gmap list.
Import ListNotations.

Local Open Scope string_scope.
Local Open Scope Z_scope.

#[local] Arguments String.append !_ _ / : simpl nomatch.

(** ** String primitives of the host language *)

Module Str.

(** [s.startsWith(p)] *)
Definition startsWith (s p : string) : bool := String.prefix p s.

(** [s.includes(p)] *)
Fixpoint includes (s p : string) : bool :=
  String.prefix p s ||
  match s with
  | EmptyString => false
  | String _ s' => includes s' p
  end.

(** [s.endsWith(p)] *)
Definition endsWith (s p : string) : bool :=
  (String.length p <=? String.length s)%nat &&
  String.eqb (String.substring (String.length s - String.length p) (String.length p) s) p.

End Str.

(** ** Request URLs of the store

    The Cache API does not see a key: it sees the URL that the URL parser of
    the platform makes of the text [/data/<key>] against the origin of the
    worker, and it compares URLs without their fragments.  [Url.record_path]
    is that parser on a text after its first slash, for an [http] or [https]
    origin: spaces and controls at the end are dropped, tabs and line breaks
    are removed, the path is cut at the slashes and backslashes, segments of
    one or two dots are resolved, the query runs from the first question mark
    to the first hash, and what the parser does not allow in a path or in a
    query is percent-encoded.  A string is the sequence of the bytes of its
    UTF-8 encoding. *)
Module Url.

Definition code (c : ascii) : N := N_of_ascii c.

Definition is_c0_or_space (c : ascii) : bool := (code c <=? 32)%N.

Definition is_tab_or_newline (c : ascii) : bool :=
  (code c =? 9)%N || (code c =? 10)%N || (code c =? 13)%N.

Fixpoint strip_trailing (s : string) : string :=
  match s with
  | EmptyString => ""
  | String c rest =>
      match strip_trailing rest with
      | EmptyString => if is_c0_or_space c then "" else String c ""
      | String c' r => String c (String c' r)
      end
  end.

Fixpoint remove_tab_newline (s : string) : string :=
  match s with
  | EmptyString => ""
  | String c rest =>
      if is_tab_or_newline c then remove_tab_newline rest
      else String c (remove_tab_newline rest)
  end.

Definition upper_hex (n : N) : ascii :=
  if (n <? 10)%N then ascii_of_N (48 + n) else ascii_of_N (55 + n).

Definition percent (c : ascii) : string :=
  String "%" (String (upper_hex (code c / 16)) (String (upper_hex (code c mod 16)) "")).

(** The query percent-encode set: controls, space, bytes above the tilde,
    the double quote, the hash and the two angle brackets. *)
Definition in_query_set (c : ascii) : bool :=
  (code c <=? 32)%N || (126 <? code c)%N ||
  (code c =? 34)%N || (code c =? 35)%N || (code c =? 60)%N || (code c =? 62)%N.

(** The query of a special scheme also encodes the apostrophe. *)
Definition in_special_query_set (c : ascii) : bool :=
  in_query_set c || (code c =? 39)%N.

(** The path percent-encode set adds the question mark, the caret, the
    backquote and the two braces. *)
Definition in_path_set (c : ascii) : bool :=
  in_query_set c || (code c =? 63)%N || (code c =? 94)%N || (code c =? 96)%N ||
  (code c =? 123)%N || (code c =? 125)%N.

Definition encode (set : ascii -> bool) (c : ascii) : string :=
  if set c then percent c else String c "".

Definition lower (c : ascii) : ascii :=
  if (65 <=? code c)%N && (code c <=? 90)%N then ascii_of_N (code c + 32) else c.

Fixpoint lowercase (s : string) : string :=
  match s with
  | EmptyString => ""
  | String c rest => String (lower c) (lowercase rest)
  end.

Definition is_single_dot (segment : string) : bool :=
  String.eqb segment "." || String.eqb (lowercase segment) "%2e".

Definition is_double_dot (segment : string) : bool :=
  String.eqb segment ".." || String.eqb (lowercase segment) ".%2e" ||
  String.eqb (lowercase segment) "%2e." || String.eqb (lowercase segment) "%2e%2e".

(** The end of a segment; [last] tells that no slash follows it. *)
Definition finish (last : bool) (segment : string) (path : list string) : list string :=
  if is_double_dot segment then
    if last then (removelast path ++ [""])%list else removelast path
  else if is_single_dot segment then
    if last then (path ++ [""])%list else path
  else (path ++ [segment])%list.

Fixpoint query_state (s : string) : string :=
  match s with
  | EmptyString => ""
  | String c rest =>
      if (code c =? 35)%N then ""
      else encode in_special_query_set c ++ query_state rest
  end.

(** The path state: the segments of the path and the query, if there is one. *)
Fixpoint path_state (s segment : string) (path : list string)
  : list string * option string :=
  match s with
  | EmptyString => (finish true segment path, None)
  | String c rest =>
      if (code c =? 47)%N || (code c =? 92)%N
      then path_state rest "" (finish false segment path)
      else if (code c =? 63)%N then (finish true segment path, Some (query_state rest))
      else if (code c =? 35)%N then (finish true segment path, None)
      else path_state rest (segment ++ encode in_path_set c) path
  end.

Fixpoint serialize_path (path : list string) : string :=
  match path with
  | [] => ""
  | segment :: rest => String "/" (segment ++ serialize_path rest)
  end.

Definition serialize (parsed : list string * option string) : string :=
  serialize_path (fst parsed)
  ++ match snd parsed with
     | Some query => String "?" query
     | None => ""
     end.

(** The path and query of the URL of [/data/<key>], without its fragment. *)
Definition record_path (key : string) : string :=
  serialize (path_state (remove_tab_newline (strip_trailing ("data/" ++ key))) "" []).

End Url.

(** Two keys name the same record of the store. *)
Definition same_record (key key' : string) : bool :=
  String.eqb (Url.record_path key) (Url.record_path key').

(** ** JSON texts

    [JSON.stringify] and [JSON.parse] of the host, over the values a JSON
    text denotes.  A number of the host is represented by the numeral the
    host prints for it, the shortest one that reads back as that number: an
    integer as [JNum], any other number as [JDec], a sign, a mantissa that
    does not end in zero and the number of its digits after the point.  A
    numeral is read exactly: the rounding of a numeral that the host would not
    print (more than 17 significant digits, a magnitude beyond binary64) is
    not modelled, and the two zeros of the host are one.  Strings are
    sequences of 8-bit characters. *)

Module JSON.

Inductive nzdigit := N1 | N2 | N3 | N4 | N5 | N6 | N7 | N8 | N9.

(** The number [(10 * dec_lead + dec_last) / 10 ^ dec_scale], negated when
    [dec_neg]: no integer, and written in one way only. *)
Record Dec := mkDec {
  dec_neg : bool;
  dec_lead : N;
  dec_last : nzdigit;
  dec_scale : positive
}.

#[local] Unset Elimination Schemes.
Inductive json :=
| JNull
| JBool (b : bool)
| JNum (z : Z)
| JDec (d : Dec)
| JStr (s : string)
| JArr (items : list json)
| JObj (fields : list (string * json)).

#[local] Set Elimination Schemes.

(** The induction principle over nested arrays and objects. *)
Section JsonInd.
Variable P : json -> Prop.
Hypothesis Hnull : P JNull.
Hypothesis Hbool : forall b, P (JBool b).
Hypothesis Hnum : forall z, P (JNum z).
Hypothesis Hdec : forall d, P (JDec d).
Hypothesis Hstr : forall s, P (JStr s).
Hypothesis Harr : forall items, Forall P items -> P (JArr items).
Hypothesis Hobj : forall fields, Forall (fun kx => P (snd kx)) fields -> P (JObj fields).

Fixpoint json_ind (v : json) : P v :=
    match v with
    | JNull => Hnull
    | JBool b => Hbool b
    | JNum z => Hnum z
    | JDec d => Hdec d
    | JStr s => Hstr s
    | JArr items =>
        Harr items
          ((fix all (l : list json) : Forall P l :=
              match l with
              | [] => List.Forall_nil _
              | x :: rest => List.Forall_cons _ _ _ (json_ind x) (all rest)
              end) items)
    | JObj fields =>
        Hobj fields
          ((fix all (l : list (string * json)) : Forall (fun kx => P (snd kx)) l :=
              match l with
              | [] => List.Forall_nil _
              | kx :: rest => List.Forall_cons _ _ _ (json_ind (snd kx)) (all rest)
              end) fields)
    end.
End JsonInd.

Definition dquote : ascii := "034"%char.
Definition backslash : ascii := "092"%char.

Definition hexdigit (n : N) : ascii :=
  if (n <? 10)%N then ascii_of_N (48 + n) else ascii_of_N (87 + n).

Definition escape_char (c : ascii) : string :=
  if Ascii.eqb c dquote then String backslash (String dquote "")
  else if Ascii.eqb c backslash then String backslash (String backslash "")
  else if Ascii.eqb c "008"%char then String backslash "b"
  else if Ascii.eqb c "009"%char then String backslash "t"
  else if Ascii.eqb c "010"%char then String backslash "n"
  else if Ascii.eqb c "012"%char then String backslash "f"
  else if Ascii.eqb c "013"%char then String backslash "r"
  else if (N_of_ascii c <? 32)%N
       then String backslash
              (String "u" (String "0" (String "0"
                 (String (hexdigit (N_of_ascii c / 16)) (String (hexdigit (N_of_ascii c mod 16)) "")))))
  else String c "".

Fixpoint escape (s : string) : string :=
  match s with
  | EmptyString => ""
  | String c rest => escape_char c ++ escape rest
  end.

Definition quote (s : string) : string :=
  String dquote (escape s ++ String dquote "").

(** *** Numerals *)

Definition is_digit (c : ascii) : bool :=
  (48 <=? N_of_ascii c)%N && (N_of_ascii c <=? 57)%N.

Definition digit_char (d : N) : ascii := ascii_of_N (48 + d).

Definition digit_val (c : ascii) : N := (N_of_ascii c - 48)%N.

(** The decimal digits of a natural number, the most significant first. *)
Fixpoint digits_fuel (fuel : nat) (m : N) : string :=
  match fuel with
  | O => ""
  | S fuel' =>
      if (m <? 10)%N then String (digit_char m) ""
      else digits_fuel fuel' (m / 10) ++ String (digit_char (m mod 10)) ""
  end.

Definition digits_of (m : N) : string := digits_fuel (S (N.to_nat (N.log2 m))) m.

(** The number a sequence of digits denotes. *)
Fixpoint digits_value_from (acc : N) (s : string) : N :=
  match s with
  | EmptyString => acc
  | String c rest => digits_value_from (10 * acc + digit_val c) rest
  end.

Definition digits_value (s : string) : N := digits_value_from 0 s.

Fixpoint zeros (n : nat) : string :=
  match n with
  | O => ""
  | S n' => String "0" (zeros n')
  end.

(** A sequence of digits without the zeros at its end. *)
Fixpoint strip_zeros (s : string) : string :=
  match s with
  | EmptyString => ""
  | String c rest =>
      match strip_zeros rest with
      | EmptyString => if Ascii.eqb c "0" then "" else String c ""
      | String c' r => String c (String c' r)
      end
  end.

Fixpoint take_chars (n : nat) (s : string) : string :=
  match n, s with
  | S n', String c rest => String c (take_chars n' rest)
  | _, _ => ""
  end.

Fixpoint drop_chars (n : nat) (s : string) : string :=
  match n, s with
  | S n', String _ rest => drop_chars n' rest
  | _, _ => s
  end.

Definition exponent_part (e : Z) : string :=
  String "e" (String (if e <? 0 then "-"%char else "+"%char) (digits_of (Z.abs_N e))).

(** [Number::toString] of the host for a positive number whose shortest
    digits are [s] and whose value is [0.s] times ten to the [n]: the digits
    and zeros when [n] is between the number of digits and 21, a point inside
    the digits when [n] is between 1 and 21, zeros after the point when [n]
    is between -5 and 0, and the exponent notation otherwise. *)
Definition number_to_string (s : string) (n : Z) : string :=
  let k := Z.of_nat (String.length s) in
  if (k <=? n) && (n <=? 21) then s ++ zeros (Z.to_nat (n - k))
  else if (0 <? n) && (n <=? 21)
  then take_chars (Z.to_nat n) s ++ String "." (drop_chars (Z.to_nat n) s)
  else if (-6 <? n) && (n <=? 0)
  then String "0" (String "." (zeros (Z.to_nat (- n)) ++ s))
  else match s with
       | EmptyString => ""
       | String d EmptyString => String d (exponent_part (n - 1))
       | String d tl => String d (String "." (tl ++ exponent_part (n - 1)))
       end.

Definition sign_of (neg : bool) : string := if neg then "-" else "".

(** The numeral of an integer. *)
Definition print_Z (z : Z) : string :=
  if z =? 0 then "0"
  else let ds := digits_of (Z.abs_N z) in
       sign_of (z <? 0) ++ number_to_string (strip_zeros ds) (Z.of_nat (String.length ds)).

Definition nz_val (d : nzdigit) : N :=
  match d with
  | N1 => 1 | N2 => 2 | N3 => 3 | N4 => 4 | N5 => 5 | N6 => 6 | N7 => 7 | N8 => 8 | N9 => 9
  end%N.

(** The digit of a remainder by ten that is not zero. *)
Definition nz_of (r : N) : nzdigit :=
  match r with
  | 1 => N1 | 2 => N2 | 3 => N3 | 4 => N4 | 5 => N5 | 6 => N6 | 7 => N7 | 8 => N8 | _ => N9
  end%N.

Definition mantissa (d : Dec) : N := (10 * dec_lead d + nz_val (dec_last d))%N.

Definition print_dec (d : Dec) : string :=
  let s := digits_of (mantissa d) in
  sign_of (dec_neg d)
  ++ number_to_string s (Z.of_nat (String.length s) - Z.pos (dec_scale d)).

Section Join.
Variable print : json -> string.

(** The elements of an array, separated by commas, up to the bracket. *)
Fixpoint join_elems (l : list json) : string :=
    match l with
    | [] => "]"
    | x :: rest =>
        print x ++ match rest with [] => "]" | _ :: _ => String "," (join_elems rest) end
    end.

(** The members of an object, separated by commas, up to the brace. *)
Fixpoint join_members (l : list (string * json)) : string :=
    match l with
    | [] => "}"
    | kx :: rest =>
        quote (fst kx) ++ String ":" (print (snd kx) ++
          match rest with [] => "}" | _ :: _ => String "," (join_members rest) end)
    end.
End Join.

(** [JSON.stringify(v)] without indentation. *)
Fixpoint stringify (v : json) : string :=
  match v with
  | JNull => "null"
  | JBool true => "true"
  | JBool false => "false"
  | JNum z => print_Z z
  | JDec d => print_dec d
  | JStr s => quote s
  | JArr items => String "[" (join_elems stringify items)
  | JObj fields => String "{" (join_members stringify fields)
  end.

Fixpoint json_size (v : json) : nat :=
  match v with
  | JArr items => S (list_sum (List.map json_size items))
  | JObj fields => S (list_sum (List.map (fun kx => json_size (snd kx)) fields))
  | _ => 1
  end.

(** Parsing by recursive descent; [fuel] bounds the nesting depth. *)

Definition hexval (c : ascii) : option N :=
  let n := N_of_ascii c in
  if (48 <=? n)%N && (n <=? 57)%N then Some (n - 48)%N
  else if (97 <=? n)%N && (n <=? 102)%N then Some (n - 87)%N
  else if (65 <=? n)%N && (n <=? 70)%N then Some (n - 55)%N
  else None.

Definition unescape (e : ascii) : option ascii :=
  if Ascii.eqb e dquote then Some dquote
  else if Ascii.eqb e backslash then Some backslash
  else if Ascii.eqb e "/"%char then Some "/"%char
  else if Ascii.eqb e "b"%char then Some "008"%char
  else if Ascii.eqb e "t"%char then Some "009"%char
  else if Ascii.eqb e "n"%char then Some "010"%char
  else if Ascii.eqb e "f"%char then Some "012"%char
  else if Ascii.eqb e "r"%char then Some "013"%char
  else None.

Definition cons_char (c : ascii) (r : option (string * string)) : option (string * string) :=
  match r with
  | Some (s, rest) => Some (String c s, rest)
  | None => None
  end.

(** The characters of a string literal after its opening quote. *)
Fixpoint parse_chars (s : string) : option (string * string) :=
  match s with
  | EmptyString => None
  | String c rest =>
      if Ascii.eqb c dquote then Some ("", rest)
      else if Ascii.eqb c backslash then
        match rest with
        | String e rest1 =>
            match unescape e with
            | Some ch => cons_char ch (parse_chars rest1)
            | None =>
                match rest1 with
                | String h1 (String h2 (String h3 (String h4 rest2))) =>
                    if Ascii.eqb e "u"%char then
                      match hexval h1, hexval h2, hexval h3, hexval h4 with
                      | Some 0%N, Some 0%N, Some a, Some b =>
                          cons_char (ascii_of_N (16 * a + b)) (parse_chars rest2)
                      | _, _, _, _ => None
                      end
                    else None
                | _ => None
                end
            end
        | EmptyString => None
        end
      else if (N_of_ascii c <? 32)%N then None
      else cons_char c (parse_chars rest)
  end.

Fixpoint span_digits (s : string) : string * string :=
  match s with
  | EmptyString => ("", "")
  | String c rest =>
      if is_digit c then let (ds, r) := span_digits rest in (String c ds, r)
      else ("", s)
  end.

Definition signed (neg : bool) (z : Z) : Z := if neg then - z else z.

(** The mantissa and exponent without the zeros at the end of the fraction. *)
Fixpoint strip10 (fuel : nat) (m : N) (e : Z) : N * Z :=
  match fuel with
  | O => (m, e)
  | S fuel' =>
      if (e <? 0) && (m mod 10 =? 0)%N then strip10 fuel' (m / 10)%N (e + 1) else (m, e)
  end.

(** The value [m] times ten to the [e], negated when [neg]. *)
Definition make_number (neg : bool) (m : N) (e : Z) : json :=
  if (m =? 0)%N then JNum 0
  else if 0 <=? e then JNum (signed neg (Z.of_N m * 10 ^ e))
  else let (m', e') := strip10 (S (N.to_nat (N.log2 m))) m e in
       if e' =? 0 then JNum (signed neg (Z.of_N m'))
       else JDec (mkDec neg (m' / 10) (nz_of (m' mod 10)) (Z.to_pos (- e'))).

Definition leading_zero (int : string) : bool :=
  match int with
  | String c (String _ _) => Ascii.eqb c "0"
  | _ => false
  end.

Definition is_empty (s : string) : bool :=
  match s with EmptyString => true | _ => false end.

(** The exponent of a numeral and what follows it. *)
Definition parse_exponent (s : string) : option (Z * string) :=
  match s with
  | String c rest =>
      if Ascii.eqb c "e" || Ascii.eqb c "E" then
        let '(neg, rest1) :=
          match rest with
          | String sg r =>
              if Ascii.eqb sg "-" then (true, r)
              else if Ascii.eqb sg "+" then (false, r)
              else (false, rest)
          | EmptyString => (false, rest)
          end in
        let (ds, rest2) := span_digits rest1 in
        if is_empty ds then None else Some (signed neg (Z.of_N (digits_value ds)), rest2)
      else Some (0, s)
  | EmptyString => Some (0, s)
  end.

(** The fraction of a numeral and what follows it. *)
Definition parse_fraction (s : string) : option (string * string) :=
  match s with
  | String c rest =>
      if Ascii.eqb c "." then
        let (ds, rest1) := span_digits rest in
        if is_empty ds then None else Some (ds, rest1)
      else Some ("", s)
  | EmptyString => Some ("", s)
  end.

(** A numeral of the JSON grammar: the digits are read as they stand. *)
Definition parse_number (s : string) : option (json * string) :=
  let '(neg, s1) :=
    match s with
    | String c rest => if Ascii.eqb c "-" then (true, rest) else (false, s)
    | EmptyString => (false, s)
    end in
  let (int, s2) := span_digits s1 in
  if is_empty int || leading_zero int then None
  else match parse_fraction s2 with
       | Some (frac, s3) =>
           match parse_exponent s3 with
           | Some (e, s4) =>
               Some (make_number neg (digits_value (int ++ frac))
                       (e - Z.of_nat (String.length frac)), s4)
           | None => None
           end
       | None => None
       end.

(** White space between the tokens of a text. *)
Definition is_ws (c : ascii) : bool :=
  Ascii.eqb c " " || Ascii.eqb c "009" || Ascii.eqb c "010" || Ascii.eqb c "013".

Fixpoint skip_ws (s : string) : string :=
  match s with
  | EmptyString => ""
  | String c rest => if is_ws c then skip_ws rest else s
  end.

Fixpoint strip_prefix (lit s : string) : option string :=
  match lit with
  | EmptyString => Some s
  | String a lit' =>
      match s with
      | String b s' => if Ascii.eqb a b then strip_prefix lit' s' else None
      | EmptyString => None
      end
  end.

Definition expect (lit : string) (v : json) (s : string) : option (json * string) :=
  match strip_prefix lit s with
  | Some rest => Some (v, rest)
  | None => None
  end.

Fixpoint parse_elems (pv : string -> option (json * string)) (n : nat) (s : string)
  : option (list json * string) :=
  match n with
  | O => None
  | S n' =>
      match pv s with
      | Some (v, after) =>
          match skip_ws after with
          | String c rest =>
              if Ascii.eqb c ","%char then
                match parse_elems pv n' rest with
                | Some (vs, r) => Some (v :: vs, r)
                | None => None
                end
              else if Ascii.eqb c "]"%char then Some ([v], rest)
              else None
          | EmptyString => None
          end
      | None => None
      end
  end.

Fixpoint parse_members (pv : string -> option (json * string)) (n : nat) (s : string)
  : option (list (string * json) * string) :=
  match n with
  | O => None
  | S n' =>
      match skip_ws s with
      | String q s1 =>
          if Ascii.eqb q dquote then
            match parse_chars s1 with
            | Some (k, after_key) =>
                match skip_ws after_key with
                | String colon s2 =>
                    if Ascii.eqb colon ":"%char then
                      match pv s2 with
                      | Some (v, after) =>
                          match skip_ws after with
                          | String c rest =>
                              if Ascii.eqb c ","%char then
                                match parse_members pv n' rest with
                                | Some (kvs, r) => Some ((k, v) :: kvs, r)
                                | None => None
                                end
                              else if Ascii.eqb c "}"%char then Some ([(k, v)], rest)
                              else None
                          | EmptyString => None
                          end
                      | None => None
                      end
                    else None
                | EmptyString => None
                end
            | None => None
            end
          else None
      | EmptyString => None
      end
  end.

Fixpoint parse_value (fuel : nat) (s : string) : option (json * string) :=
  match fuel with
  | O => None
  | S fuel' =>
      match skip_ws s with
      | EmptyString => None
      | String c rest =>
          if Ascii.eqb c "n"%char then expect "null" JNull (String c rest)
          else if Ascii.eqb c "t"%char then expect "true" (JBool true) (String c rest)
          else if Ascii.eqb c "f"%char then expect "false" (JBool false) (String c rest)
          else if Ascii.eqb c dquote then
            match parse_chars rest with
            | Some (str, r) => Some (JStr str, r)
            | None => None
            end
          else if Ascii.eqb c "["%char then
            match skip_ws rest with
            | String c' r =>
                if Ascii.eqb c' "]"%char then Some (JArr [], r)
                else match parse_elems (parse_value fuel') fuel' rest with
                     | Some (vs, r') => Some (JArr vs, r')
                     | None => None
                     end
            | EmptyString => None
            end
          else if Ascii.eqb c "{"%char then
            match skip_ws rest with
            | String c' r =>
                if Ascii.eqb c' "}"%char then Some (JObj [], r)
                else match parse_members (parse_value fuel') fuel' rest with
                     | Some (kvs, r') => Some (JObj kvs, r')
                     | None => None
                     end
            | EmptyString => None
            end
          else parse_number (String c rest)
      end
  end.

(** [JSON.parse]: the whole text must be one value, white space apart. *)
Definition parse (s : string) : option json :=
  match parse_value (S (String.length s)) s with
  | Some (v, after) => if is_empty (skip_ws after) then Some v else None
  | None => None
  end.

End JSON.

Import JSON.

(** ** Responses, requests and the network *)

Record Response := mkResponse {
  status : Z;
  headers : list (string * string);
  body : string
}.

Record URL := mkURL {
  href : string;
  protocol : string;
  origin : string;
  hostname : string;
  pathname : string
}.

Record Request := mkRequest {
  method : string;
  url : URL;
  destination : string
}.

(** An outbound call: [fetch(url, { method, body })]. *)
Record Call := mkCall {
  call_url : string;
  call_method : string;
  call_body : option string
}.

(** [fetch] either rejects (the network is unreachable) or resolves with a
    response of any status. *)
Inductive FetchResult :=
| NetworkError
| Responded (r : Response).

(** The network is an oracle: the answer to the [n]-th call made. *)
Definition Network := nat -> Call -> FetchResult.

(** ** The world *)

Record Client := mkClient {
  client_id : nat;
  client_url : string
}.

Record Message := mkMessage {
  msg_type : string;
  msg_version : option string;
  msg_text : string
}.

Inductive Event :=
| EvFetch (c : Call)
| EvCachePut (cache key : string) (r : Response)
| EvCacheDelete (cache : string)
| EvSkipWaiting
| EvPostMessage (client : nat) (m : Message).

(** The Cache Storage maps a cache name to a cache, in creation order
    ([caches.keys()] and [caches.match] follow that order); a cache maps a
    request URL to the stored response. *)
Record World := mkWorld {
  caches : list (string * gmap string Response);
  clients : list Client;
  ticks : nat;
  trace : list Event
}.

Definition set_caches (cs : list (string * gmap string Response)) (w : World) : World :=
  mkWorld cs (clients w) (ticks w) (trace w).

Definition log_event (e : Event) (w : World) : World :=
  mkWorld (caches w) (clients w) (ticks w) (trace w ++ [e]).

Module CS.

Definition has (name : string) (cs : list (string * gmap string Response)) : bool :=
  existsb (fun nc => String.eqb (fst nc) name) cs.

(** [caches.open(name)] creates the cache when it does not exist. *)
Definition open (name : string) (cs : list (string * gmap string Response))
  : list (string * gmap string Response) :=
  if has name cs then cs else cs ++ [(name, ∅)].

Fixpoint get (name : string) (cs : list (string * gmap string Response))
  : option (gmap string Response) :=
  match cs with
  | [] => None
  | (n, c) :: rest => if String.eqb n name then Some c else get name rest
  end.

(** The entry stored under [key] in the cache [name]. *)
Definition lookup (name key : string) (cs : list (string * gmap string Response))
  : option Response :=
  match get name cs with
  | Some c => c !! key
  | None => None
  end.

Fixpoint update (name : string) (f : gmap string Response -> gmap string Response)
    (cs : list (string * gmap string Response)) : list (string * gmap string Response) :=
  match cs with
  | [] => []
  | (n, c) :: rest =>
      if String.eqb n name then (n, f c) :: rest else (n, c) :: update name f rest
  end.

(** [cache.put(key, r)] on the cache [name]. *)
Definition put (name key : string) (r : Response) (cs : list (string * gmap string Response)) :=
  update name (fun c => <[key := r]> c) cs.

(** [cache.delete(key)] on the cache [name]. *)
Definition remove (name key : string) (cs : list (string * gmap string Response)) :=
  update name (fun c => delete key c) cs.

(** [caches.match(key)]: the first hit, in creation order. *)
Fixpoint match_any (key : string) (cs : list (string * gmap string Response))
  : option Response :=
  match cs with
  | [] => None
  | (_, c) :: rest =>
      match c !! key with
      | Some r => Some r
      | None => match_any key rest
      end
  end.

(** [caches.delete(name)] *)
Definition drop (name : string) (cs : list (string * gmap string Response)) :=
  List.filter (fun nc => negb (String.eqb (fst nc) name)) cs.

(** [caches.keys()] *)
Definition keys (cs : list (string * gmap string Response)) : list string :=
  List.map fst cs.

End CS.

(** ** The monad of handlers *)

Inductive Res (A : Type) :=
| Ret (a : A)
| Throw.
Arguments Ret {A} a.
Arguments Throw {A}.

Definition M (A : Type) : Type := World -> Res A * World.

Definition ret {A} (a : A) : M A := fun w => (Ret a, w).

Definition throw {A} : M A := fun w => (Throw, w).

Definition bind {A B} (m : M A) (k : A -> M B) : M B :=
  fun w =>
    match m w with
    | (Ret a, w') => k a w'
    | (Throw, w') => (Throw, w')
    end.

(** [try { m } catch (error) { h }]: the effects of [m] up to the throw stay. *)
Definition try_catch {A} (m : M A) (h : M A) : M A :=
  fun w =>
    match m w with
    | (Ret a, w') => (Ret a, w')
    | (Throw, w') => h w'
    end.

Notation "'do' x <- m ; k" := (bind m (fun x => k))
  (at level 10, x name, m at level 100, k at level 200).
Notation "'exec' m ; k" := (bind m (fun _ => k))
  (at level 10, m at level 100, k at level 200).

Definition emit (e : Event) : M unit := fun w => (Ret tt, log_event e w).

Definition when (b : bool) (m : M unit) : M unit := if b then m else ret tt.

Fixpoint forEach {A} (l : list A) (f : A -> M unit) : M unit :=
  match l with
  | [] => ret tt
  | x :: rest => exec f x; forEach rest f
  end.

Definition caches_match (key : string) : M (option Response) :=
  fun w => (Ret (CS.match_any key (caches w)), w).

Definition caches_open (name : string) : M string :=
  fun w => (Ret name, set_caches (CS.open name (caches w)) w).

Definition cache_match (cache key : string) : M (option Response) :=
  fun w => (Ret (CS.lookup cache key (caches w)), w).

Definition cache_put (cache key : string) (r : Response) : M unit :=
  fun w => (Ret tt, log_event (EvCachePut cache key r) (set_caches (CS.put cache key r (caches w)) w)).

Definition cache_delete (cache key : string) : M unit :=
  fun w => (Ret tt, set_caches (CS.remove cache key (caches w)) w).

Definition caches_keys : M (list string) :=
  fun w => (Ret (CS.keys (caches w)), w).

Definition caches_delete (name : string) : M unit :=
  fun w => (Ret tt, log_event (EvCacheDelete name) (set_caches (CS.drop name (caches w)) w)).

Definition clients_matchAll : M (list Client) :=
  fun w => (Ret (clients w), w).

Definition postMessage (c : Client) (m : Message) : M unit :=
  emit (EvPostMessage (client_id c) m).

Definition skipWaiting : M unit := emit EvSkipWaiting.

(** ** Constants of the worker *)

Definition APP_VERSION := "2.5.0".
Definition CACHE_NAME := "lumina-ai-trainer-v" ++ APP_VERSION.
Definition STATIC_CACHE := "lumina-static-v" ++ APP_VERSION.
Definition DYNAMIC_CACHE := "lumina-dynamic-v" ++ APP_VERSION.
Definition RUNTIME_CACHE := "lumina-runtime-v" ++ APP_VERSION.
Definition ASSETS_CACHE := "lumina-assets-v" ++ APP_VERSION.

Definition CORE_FILES : list string :=
  [ "/"; "/index.html"; "/exercises.html"; "/dashboard.html"; "/monitor.html";
    "/analytics.html"; "/profile.html"; "/settings.html"; "/manifest.json" ].

Definition EXERCISE_ASSETS : list string :=
  [ "/icons/icon-192.png"; "/icons/icon-512.png"; "/icons/maskable-icon-192.png";
    "/icons/maskable-icon-512.png"; "/screenshots/exercises-mobile.png";
    "/screenshots/trainer-mobile.png" ].

Definition EXTERNAL_RESOURCES : list string :=
  [ "https://fonts.googleapis.com/css2?family=Inter:wght@300;400;500;600;700;800;900&display=swap" ].

Definition NETWORK_FIRST_URLS : list string := [ "/api/"; "/health-check"; "/sync" ].

(** ** Classification helpers *)

Definition isStaticAsset (pathname : string) : bool :=
  Str.includes pathname "/icons/" ||
  Str.includes pathname "/screenshots/" ||
  Str.endsWith pathname ".css" ||
  Str.endsWith pathname ".js" ||
  Str.endsWith pathname ".png" ||
  Str.endsWith pathname ".svg" ||
  Str.endsWith pathname ".jpg" ||
  Str.endsWith pathname ".jpeg" ||
  Str.endsWith pathname ".webp".

Definition isFontRequest (u : URL) : bool :=
  String.eqb (hostname u) "fonts.googleapis.com" ||
  String.eqb (hostname u) "fonts.gstatic.com".

Definition shouldCacheExternal (u : string) : bool :=
  Str.includes u "fonts.googleapis.com" ||
  Str.includes u "fonts.gstatic.com" ||
  (Str.includes u "api." && Str.includes u "static").

(** The markup of the offline page is a literal of the source; only its
    first line is kept here, nothing depends on its content. *)
Definition offlineHTML : string := "<!DOCTYPE html>".

Definition createOfflineExercisePage : Response :=
  mkResponse 200 [("Content-Type", "text/html"); ("Cache-Control", "no-cache")] offlineHTML.

(** [new Response('', { status: 404 })] *)
Definition notFoundResponse : Response := mkResponse 404 [] "".

(** Runs a promise to completion and keeps its outcome. *)
Definition settle {A} (m : M A) : M (Res A) :=
  fun w => let (r, w') := m w in (Ret r, w').

Definition fulfilled {A} (r : Res A) : bool :=
  match r with
  | Ret _ => true
  | Throw => false
  end.

Fixpoint settle_each (ms : list (M unit)) : M (list (Res unit)) :=
  match ms with
  | [] => ret []
  | m :: rest =>
      do r <- settle m;
      do rs <- settle_each rest;
      ret (r :: rs)
  end.

(** [Promise.all(ms)]: the promises have all been started, each one runs to
    its end; the result is rejected when one of them is. *)
Definition promise_all (ms : list (M unit)) : M unit :=
  do rs <- settle_each ms;
  if forallb fulfilled rs then ret tt else throw.

(** What [cache.add] and [cache.addAll] accept: a response with an ok status
    other than 206. *)
Definition acceptable (r : Response) : bool :=
  (200 <=? status r) && (status r <=? 299) && negb (status r =? 206).

Fixpoint acceptable_all (results : list (string * FetchResult))
  : option (list (string * Response)) :=
  match results with
  | [] => Some []
  | (u, Responded r) :: rest =>
      if acceptable r
      then match acceptable_all rest with
           | Some entries => Some ((u, r) :: entries)
           | None => None
           end
      else None
  | (_, NetworkError) :: _ => None
  end.

(** ** Values read back from the store *)

(** [if (v)] *)
Definition truthy (v : json) : bool :=
  match v with
  | JNull => false
  | JBool b => b
  | JNum z => negb (z =? 0)
  | JDec _ => true
  | JStr s => negb (String.eqb s "")
  | JArr _ => true
  | JObj _ => true
  end.

(** The guard [v && v.length > 0] followed by [for (const data of v)].  An
    array or a string that is not empty is iterated.  A number or a boolean
    has no length.  An object is not iterable: either its [length] member is
    not positive and the guard fails, or the loop throws a TypeError that the
    [catch] of the caller swallows; the caller does nothing more in both
    cases. *)
Inductive Pending :=
| Nothing
| Iterate (items : list json).

Definition pending (v : json) : Pending :=
  match v with
  | JArr [] => Nothing
  | JArr items => Iterate items
  | JStr EmptyString => Nothing
  | JStr s => Iterate (List.map (fun c => JStr (String c "")) (list_ascii_of_string s))
  | _ => Nothing
  end.

Definition DATA_CACHE := "lumina-ai-data".

(** The world after one more network call. *)
Definition tick (c : Call) (w : World) : World :=
  mkWorld (caches w) (clients w) (S (ticks w)) (trace w ++ [EvFetch c]).

Section Worker.

(** The origin the worker is served from, and the network it talks to. *)
Variable location_origin : string.
Variable net : Network.

(** [fetch]: one tick of the clock, one entry of the trace. *)
Definition fetch (c : Call) : M Response :=
  fun w =>
    match net (ticks w) c with
    | NetworkError => (Throw, tick c w)
    | Responded r => (Ret r, tick c w)
    end.

Definition get_call (request : Request) : Call :=
  mkCall (href (url request)) "GET" None.

(** ** Strategies *)

Definition handleCacheFirst (request : Request) : M (option Response) :=
  try_catch
    (do cachedResponse <- caches_match (href (url request));
     match cachedResponse with
     | Some r => ret (Some r)
     | None =>
         do networkResponse <- fetch (get_call request);
         exec when (status networkResponse =? 200)
                (do cache <- caches_open RUNTIME_CACHE;
                 cache_put cache (href (url request)) networkResponse);
         ret (Some networkResponse)
     end)
    (if String.eqb (destination request) "document"
     then ret (Some createOfflineExercisePage)
     else throw).

Definition handleNetworkFirst (request : Request) : M (option Response) :=
  try_catch
    (do networkResponse <- fetch (get_call request);
     exec when (status networkResponse =? 200)
            (do cache <- caches_open RUNTIME_CACHE;
             cache_put cache (href (url request)) networkResponse);
     ret (Some networkResponse))
    (do cachedResponse <- caches_match (href (url request));
     match cachedResponse with
     | Some r => ret (Some r)
     | None => throw
     end).

(** The promise [fetchPromise] is started in every case; its [catch] resolves
    it with [cachedResponse], which is [undefined] ([None]) on a cache miss.

    The [put] is not part of that promise: it runs in a callback of
    [caches.open], after [fetchPromise] has resolved.  On a hit the response
    of the network is read by nobody else and [networkResponse.clone()]
    succeeds.  On a miss the same response is the result of the handler: by
    the time the cache is open it has gone to [respondWith], its body is in
    use, [clone()] throws inside the callback and nothing is stored (the cache
    has been opened all the same). *)
Definition handleStaleWhileRevalidate (request : Request) : M (option Response) :=
  do cachedResponse <- caches_match (href (url request));
  do fetched <-
    try_catch
      (do networkResponse <- fetch (get_call request);
       exec when (status networkResponse =? 200)
              (do cache <- caches_open RUNTIME_CACHE;
               match cachedResponse with
               | Some _ => cache_put cache (href (url request)) networkResponse
               | None => ret tt
               end);
       ret (Some networkResponse))
      (ret cachedResponse);
  ret (match cachedResponse with
       | Some r => Some r
       | None => fetched
       end).

Definition handleFontRequest (request : Request) : M (option Response) :=
  try_catch
    (do cachedResponse <- caches_match (href (url request));
     match cachedResponse with
     | Some r => ret (Some r)
     | None =>
         do networkResponse <- fetch (get_call request);
         exec when (status networkResponse =? 200)
                (do cache <- caches_open DYNAMIC_CACHE;
                 cache_put cache (href (url request)) networkResponse);
         ret (Some networkResponse)
     end)
    (do cachedResponse <- caches_match (href (url request));
     match cachedResponse with
     | Some r => ret (Some r)
     | None => ret (Some notFoundResponse)
     end).

Definition handleExternalRequest (request : Request) : M (option Response) :=
  try_catch
    (do networkResponse <- fetch (get_call request);
     exec when ((status networkResponse =? 200) && shouldCacheExternal (href (url request)))
            (do cache <- caches_open DYNAMIC_CACHE;
             cache_put cache (href (url request)) networkResponse);
     ret (Some networkResponse))
    (do cachedResponse <- caches_match (href (url request));
     match cachedResponse with
     | Some r => ret (Some r)
     | None => ret (Some notFoundResponse)
     end).

Definition handleSameOriginRequest (request : Request) : M (option Response) :=
  if existsb (fun path => Str.startsWith (pathname (url request)) path) NETWORK_FIRST_URLS
  then handleNetworkFirst request
  else if isStaticAsset (pathname (url request))
  then handleCacheFirst request
  else if String.eqb (destination request) "document" || Str.endsWith (pathname (url request)) ".html"
  then handleStaleWhileRevalidate request
  else handleCacheFirst request.

(** The [fetch] listener: [None] when the listener returns without calling
    [event.respondWith], so that the browser handles the request itself. *)
Definition onFetch (request : Request) : option (M (option Response)) :=
  if negb (String.eqb (method request) "GET") || String.eqb (protocol (url request)) "chrome-extension:"
  then None
  else if String.eqb (origin (url request)) location_origin
  then Some (handleSameOriginRequest request)
  else if isFontRequest (url request)
  then Some (handleFontRequest request)
  else Some (handleExternalRequest request).

(** ** The durable key-value store

    A cache of its own, [lumina-ai-data], holds one JSON document per request
    URL; the URL of a key is what the platform makes of [/data/<key>] against
    the origin of the worker. *)

Definition resolve (u : string) : string :=
  if Str.startsWith u "/" then location_origin ++ u else u.

Definition data_url (key : string) : string := location_origin ++ Url.record_path key.

Definition getStoredData (key : string) : M json :=
  try_catch
    (do cache <- caches_open DATA_CACHE;
     do response <- cache_match cache (data_url key);
     match response with
     | Some r =>
         match JSON.parse (body r) with
         | Some v => ret v
         | None => throw
         end
     | None => ret JNull
     end)
    (ret JNull).

Definition storeData (key : string) (value : json) : M unit :=
  try_catch
    (do cache <- caches_open DATA_CACHE;
     cache_put cache (data_url key)
       (mkResponse 200 [("Content-Type", "application/json")] (JSON.stringify value)))
    (ret tt).

Definition clearStoredData (key : string) : M unit :=
  try_catch
    (do cache <- caches_open DATA_CACHE;
     cache_delete cache (data_url key))
    (ret tt).

Definition clearAllCaches : M bool :=
  try_catch
    (do cacheNames <- caches_keys;
     exec forEach (List.filter (fun name => Str.startsWith name "lumina-") cacheNames)
            caches_delete;
     ret true)
    (ret false).

(** ** Replay of the offline queue *)

Definition syncExerciseData : M unit :=
  try_catch
    (do exerciseData <- getStoredData "pending-exercise-data";
     match pending exerciseData with
     | Iterate items =>
         exec forEach items
                (fun data =>
                   exec fetch (mkCall "/api/exercises/progress" "POST"
                                 (Some (JSON.stringify data)));
                   ret tt);
         exec clearStoredData "pending-exercise-data";
         do clients <- clients_matchAll;
         forEach clients
           (fun client =>
              postMessage client
                (mkMessage "EXERCISE_DATA_SYNCED" None "Exercise progress synchronized"))
     | Nothing => ret tt
     end)
    (ret tt).

Definition syncEyeHealthData : M unit :=
  try_catch
    (do healthData <- getStoredData "pending-health-data";
     match pending healthData with
     | Iterate items =>
         exec forEach items
                (fun data =>
                   exec fetch (mkCall "/api/eye-health" "POST"
                                 (Some (JSON.stringify data)));
                   ret tt);
         clearStoredData "pending-health-data"
     | Nothing => ret tt
     end)
    (ret tt).

Definition syncUserSettings : M unit :=
  try_catch
    (do settings <- getStoredData "pending-settings";
     if truthy settings
     then
       exec fetch (mkCall "/api/settings" "PUT" (Some (JSON.stringify settings)));
       clearStoredData "pending-settings"
     else ret tt)
    (ret tt).

(** The [sync] listener. *)
Definition onSync (tag : string) : M unit :=
  if String.eqb tag "sync-exercise-data" then syncExerciseData
  else if String.eqb tag "sync-eye-health" then syncEyeHealthData
  else if String.eqb tag "sync-user-settings" then syncUserSettings
  else ret tt.

(** ** Install *)

(** A fetch whose outcome is kept instead of thrown. *)
Definition fetch_settled (c : Call) : M FetchResult :=
  fun w => (Ret (net (ticks w) c), tick c w).

Fixpoint fetch_each (urls : list string) : M (list (string * FetchResult)) :=
  match urls with
  | [] => ret []
  | u :: rest =>
      do r <- fetch_settled (mkCall (resolve u) "GET" None);
      do rs <- fetch_each rest;
      ret ((resolve u, r) :: rs)
  end.

(** [cache.addAll(urls)]: every request is fetched; the responses are stored
    together, and only when every one of them is acceptable. *)
Definition cache_addAll (cache : string) (urls : list string) : M unit :=
  do results <- fetch_each urls;
  match acceptable_all results with
  | Some entries => forEach entries (fun kr => cache_put cache (fst kr) (snd kr))
  | None => throw
  end.

(** [cache.add(url)] is [cache.addAll([url])]. *)
Definition cache_add (cache : string) (u : string) : M unit := cache_addAll cache [u].

(** The [install] listener; the result is the promise given to
    [event.waitUntil]. *)
Definition onInstall : M unit :=
  try_catch
    (exec promise_all
            [ (do cache <- caches_open STATIC_CACHE; cache_addAll cache CORE_FILES);
              (do cache <- caches_open ASSETS_CACHE; cache_addAll cache EXERCISE_ASSETS);
              (do cache <- caches_open DYNAMIC_CACHE;
               promise_all (List.map (fun u => cache_add cache u) EXTERNAL_RESOURCES)) ];
     skipWaiting)
    (ret tt).

End Worker.

(** ** Activate

    The listener builds [Promise.all([cleanup, self.clients.claim()])]: the
    array literal calls [caches.keys()] and then [self.clients.claim()] before
    any promise resolves.  What happens next depends on the order in which the
    platform resolves the pending promises, so the activation is a transition
    system driven by the choices of a scheduler. *)

Inductive ActEvent :=
| AKeysCalled
| AClaimCalled
| AKeysResolved
| ADeleteCalled (name : string)
| ADeleteDone (name : string)
| AClaimDone
| AMatchAllCalled
| APosted (client : nat) (m : Message).

Record Activation := mkActivation {
  act_caches : list (string * gmap string Response);
  act_clients : list Client;
  act_keys_pending : bool;
  act_deleting : list string;
  act_claiming : bool;
  act_broadcast : bool;
  act_trace : list ActEvent
}.

(** The promises the scheduler can resolve: that of [caches.keys()], that of
    one [caches.delete(name)] call, that of [claim()], and, once all of them
    are resolved, that of [Promise.all], which runs the [then] callback. *)
Inductive Choice :=
| ResolveKeys
| ResolveDelete (name : string)
| ResolveClaim
| RunThen.

Definition validCacheNames : list string :=
  [CACHE_NAME; STATIC_CACHE; DYNAMIC_CACHE; RUNTIME_CACHE; ASSETS_CACHE].

(** The filter of the cleanup. *)
Definition isStale (cacheName : string) : bool :=
  Str.startsWith cacheName "lumina-" &&
  negb (existsb (String.eqb cacheName) validCacheNames).

Definition activatedMessage : Message :=
  mkMessage "SW_ACTIVATED" (Some APP_VERSION) "Lumina AI Eye Trainer is ready offline!".

(** One pending [caches.delete(name)] less. *)
Fixpoint remove_one (name : string) (l : list string) : list string :=
  match l with
  | [] => []
  | n :: rest => if String.eqb name n then rest else n :: remove_one name rest
  end.

(** The synchronous part of the listener. *)
Definition activate_start (w : World) : Activation :=
  mkActivation (caches w) (clients w) true [] true false [AKeysCalled; AClaimCalled].

Definition act_step (c : Choice) (a : Activation) : option Activation :=
  match c with
  | ResolveKeys =>
      if act_keys_pending a then
        let stale := List.filter isStale (CS.keys (act_caches a)) in
        Some (mkActivation (act_caches a) (act_clients a) false stale
                (act_claiming a) (act_broadcast a)
                (act_trace a ++ AKeysResolved :: List.map ADeleteCalled stale))
      else None
  | ResolveDelete name =>
      if existsb (String.eqb name) (act_deleting a) then
        Some (mkActivation (CS.drop name (act_caches a)) (act_clients a)
                (act_keys_pending a)
                (remove_one name (act_deleting a))
                (act_claiming a) (act_broadcast a)
                (act_trace a ++ [ADeleteDone name]))
      else None
  | ResolveClaim =>
      if act_claiming a then
        Some (mkActivation (act_caches a) (act_clients a) (act_keys_pending a)
                (act_deleting a) false (act_broadcast a)
                (act_trace a ++ [AClaimDone]))
      else None
  | RunThen =>
      match act_keys_pending a, act_deleting a, act_claiming a, act_broadcast a with
      | false, [], false, false =>
          Some (mkActivation (act_caches a) (act_clients a) false [] false true
                  (act_trace a ++ AMatchAllCalled ::
                     List.map (fun c => APosted (client_id c) activatedMessage) (act_clients a)))
      | _, _, _, _ => None
      end
  end.

Fixpoint act_run (sched : list Choice) (a : Activation) : option Activation :=
  match sched with
  | [] => Some a
  | c :: rest =>
      match act_step c a with
      | Some a' => act_run rest a'
      | None => None
      end
  end.

(** One schedule that always runs the activation to its end: the deletions
    resolve in the order they were called, then the claim. *)
Definition fair_schedule (w : World) : list Choice :=
  ResolveKeys :: List.map ResolveDelete (List.filter isStale (CS.keys (caches w)))
    ++ [ResolveClaim; RunThen].

(** The three steps of an activation, for the order of its events. *)
Definition act_phase (e : ActEvent) : nat :=
  match e with
  | AKeysCalled | AKeysResolved | ADeleteCalled _ | ADeleteDone _ => 0
  | AClaimCalled | AClaimDone => 1
  | AMatchAllCalled | APosted _ _ => 2
  end.

(** The steps are strictly ordered when no event of a step comes after an
    event of a later step. *)
Fixpoint phases_ordered (l : list nat) : bool :=
  match l with
  | [] => true
  | x :: rest => forallb (fun y => (x <=? y)%nat) rest && phases_ordered rest
  end.

Definition strictly_ordered (tr : list ActEvent) : bool :=
  phases_ordered (List.map act_phase tr).

(** ** Auxiliary notions for the JSON codec *)

(** A text that does not go on a numeral: what may follow a number. *)
Definition continues_number (c : ascii) : bool :=
  is_digit c || Ascii.eqb c "." || Ascii.eqb c "e" || Ascii.eqb c "E".

Definition no_digit_head (s : string) : Prop :=
  match s with
  | EmptyString => True
  | String c _ => continues_number c = false
  end.

(** The first character of a number selects no other production. *)
Definition starts_number (c : ascii) : Prop :=
  is_ws c = false /\
  Ascii.eqb c "n"%char = false /\ Ascii.eqb c "t"%char = false /\
  Ascii.eqb c "f"%char = false /\ Ascii.eqb c dquote = false /\
  Ascii.eqb c "["%char = false /\ Ascii.eqb c "{"%char = false /\
  Ascii.eqb c "]"%char = false /\ Ascii.eqb c "}"%char = false.

Fixpoint all_digits (s : string) : bool :=
  match s with
  | EmptyString => true
  | String c rest => is_digit c && all_digits rest
  end.

Definition head_not_digit (s : string) : Prop :=
  match s with
  | EmptyString => True
  | String c _ => is_digit c = false
  end.

(** A numeral in its parts: sign, integer digits, fraction, exponent. *)
Definition numeral (neg : bool) (int frac : string) (ex : option Z) : string :=
  sign_of neg ++ int
  ++ (if is_empty frac then "" else String "." frac)
  ++ match ex with Some e => exponent_part e | None => "" end.

(** Printing then parsing gives the value back, whatever follows. *)
Definition roundtrips (v : json) : Prop :=
  forall fuel rest, (json_size v <= fuel)%nat -> no_digit_head rest ->
    parse_value fuel (stringify v ++ rest) = Some (v, rest).

(** ** Sequences of store operations *)

Inductive StoreOp :=
| OpStore (key : string) (value : json)
| OpClear (key : string).

Definition op_key (op : StoreOp) : string :=
  match op with
  | OpStore key _ => key
  | OpClear key => key
  end.

(** The last operation of [ops] on the record of [key], when there is one. *)
Fixpoint last_op (key : string) (ops : list StoreOp) : option StoreOp :=
  match ops with
  | [] => None
  | op :: rest =>
      match last_op key rest with
      | Some op' => Some op'
      | None => if same_record (op_key op) key then Some op else None
      end
  end.

Section StoreOps.

Variable location_origin : string.

Definition run_op (op : StoreOp) : M unit :=
  match op with
  | OpStore key value => storeData location_origin key value
  | OpClear key => clearStoredData location_origin key
  end.

Fixpoint run_ops (ops : list StoreOp) : M unit :=
  match ops with
  | [] => ret tt
  | op :: rest => exec run_op op; run_ops rest
  end.

End StoreOps.

(** The response stored under [key] in the durable store, and the value
    [getStoredData] reads from it. *)
Definition stored (location_origin key : string) (w : World) : option Response :=
  CS.lookup DATA_CACHE (data_url location_origin key) (caches w).

Definition decode (o : option Response) : json :=
  match o with
  | Some r => default JNull (JSON.parse (body r))
  | None => JNull
  end.

Definition document_of (value : json) : Response :=
  mkResponse 200 [("Content-Type", "application/json")] (JSON.stringify value).

(** ** Strategies and routes *)

Inductive Strategy :=
| CacheFirst
| NetworkFirst
| StaleWhileRevalidate
| Font
| External.

Definition execute (net : Network) (s : Strategy) (request : Request)
  : M (option Response) :=
  match s with
  | CacheFirst => handleCacheFirst net request
  | NetworkFirst => handleNetworkFirst net request
  | StaleWhileRevalidate => handleStaleWhileRevalidate net request
  | Font => handleFontRequest net request
  | External => handleExternalRequest net request
  end.

(** The decision of the [fetch] listener and of [handleSameOriginRequest],
    read off their conditionals: which strategy answers a request, if any. *)
Definition route (location_origin : string) (request : Request) : option Strategy :=
  if negb (String.eqb (method request) "GET")
     || String.eqb (protocol (url request)) "chrome-extension:"
  then None
  else if String.eqb (origin (url request)) location_origin
  then
    if existsb (fun path => Str.startsWith (pathname (url request)) path) NETWORK_FIRST_URLS
    then Some NetworkFirst
    else if isStaticAsset (pathname (url request))
    then Some CacheFirst
    else if String.eqb (destination request) "document"
            || Str.endsWith (pathname (url request)) ".html"
    then Some StaleWhileRevalidate
    else Some CacheFirst
  else if isFontRequest (url request)
  then Some Font
  else Some External.

(** The same handler run [n] times in a row. *)
Fixpoint serve {A} (n : nat) (h : M A) (w : World) : list (Res A) * World :=
  match n with
  | O => ([], w)
  | S n' =>
      let (r, w') := h w in
      let (rs, w'') := serve n' h w' in
      (r :: rs, w'')
  end.

(** ** Sample inputs *)

Module Sample.

Definition site := "https://lumina.app".

Definition sameOrigin (path dest : string) : Request :=
  mkRequest "GET" (mkURL (site ++ path) "https:" site "lumina.app" path) dest.

Definition exercisesPage : Request := sameOrigin "/exercises.html" "document".
Definition iconImage : Request := sameOrigin "/icons/icon-192.png" "image".

Definition extensionScript : Request :=
  mkRequest "GET"
    (mkURL "moz-extension://abc/content.js" "moz-extension:" "moz-extension://abc" "abc"
       "/content.js")
    "script".

Definition offline : Network := fun _ _ => NetworkError.
Definition online : Network := fun _ c => Responded (mkResponse 200 [] (call_url c)).
Definition failing : Network := fun _ _ => Responded (mkResponse 500 [] "").

Definition settingsUpload : Request :=
  mkRequest "PUT" (mkURL (site ++ "/api/settings") "https:" site "lumina.app" "/api/settings") "".

Definition twoClients : list Client :=
  [mkClient 1 (site ++ "/"); mkClient 2 (site ++ "/exercises.html")].

Definition fresh : World := mkWorld [] twoClients 0 [].

(** The icon has been requested once while the network was up. *)
Definition iconCached : World :=
  snd (handleCacheFirst online iconImage fresh).

Definition iconResponse : Response := mkResponse 200 [] (site ++ "/icons/icon-192.png").

End Sample.

(** ** Topics of the offline queue *)

Inductive Topic :=
| ExerciseData
| EyeHealth
| UserSettings.

Definition topic_tag (t : Topic) : string :=
  match t with
  | ExerciseData => "sync-exercise-data"
  | EyeHealth => "sync-eye-health"
  | UserSettings => "sync-user-settings"
  end.

Definition topic_key (t : Topic) : string :=
  match t with
  | ExerciseData => "pending-exercise-data"
  | EyeHealth => "pending-health-data"
  | UserSettings => "pending-settings"
  end.

Definition post_to (endpoint : string) (data : json) : Call :=
  mkCall endpoint "POST" (Some (JSON.stringify data)).

(** The calls a replay of the topic makes for the record it reads, in order;
    [None] when the guard of the replay finds nothing to send. *)
Definition replay_plan (t : Topic) (record : json) : option (list Call) :=
  match t with
  | ExerciseData =>
      match pending record with
      | Iterate items => Some (List.map (post_to "/api/exercises/progress") items)
      | Nothing => None
      end
  | EyeHealth =>
      match pending record with
      | Iterate items => Some (List.map (post_to "/api/eye-health") items)
      | Nothing => None
      end
  | UserSettings =>
      if truthy record
      then Some [mkCall "/api/settings" "PUT" (Some (JSON.stringify record))]
      else None
  end.

(** The network answers every call of the list, the first one at time [t0],
    with a response of whatever status. *)
Fixpoint all_answered (net : Network) (t0 : nat) (calls : list Call) : bool :=
  match calls with
  | [] => true
  | c :: rest =>
      match net t0 c with
      | Responded _ => all_answered net (S t0) rest
      | NetworkError => false
      end
  end.

(** The network answers every call of the list with a 2xx status. *)
Fixpoint all_2xx (net : Network) (t0 : nat) (calls : list Call) : bool :=
  match calls with
  | [] => true
  | c :: rest =>
      match net t0 c with
      | Responded r => (200 <=? status r) && (status r <=? 299) && all_2xx net (S t0) rest
      | NetworkError => false
      end
  end.

(** The messages posted to the clients, in order. *)
Fixpoint posts (tr : list Event) : list (nat * Message) :=
  match tr with
  | [] => []
  | EvPostMessage client m :: rest => (client, m) :: posts rest
  | _ :: rest => posts rest
  end.

Definition exerciseSynced : Message :=
  mkMessage "EXERCISE_DATA_SYNCED" None "Exercise progress synchronized".

Module Queue.

Definition sample (n : Z) : json := JObj [("blinkRate", JNum n); ("strain", JBool false)].

(** Worlds in which a page has handed mutations to the queue. *)
Definition exercise : World :=
  snd (storeData Sample.site "pending-exercise-data" (JArr [sample 12; sample 15]) Sample.fresh).

Definition health : World :=
  snd (storeData Sample.site "pending-health-data" (JArr [sample 12; sample 15]) Sample.fresh).

End Queue.

(** What a replay leaves behind: the durable record of every key and the
    messages posted. *)
Definition replay_outcome (location_origin : string) (net : Network)
    (t : Topic) (w w' : World) (notified : bool) : Prop :=
  let record := decode (stored location_origin (topic_key t) w) in
  match replay_plan t record with
  | Some calls =>
      if all_answered net (ticks w) calls
      then (forall key, stored location_origin key w'
                        = if same_record (topic_key t) key then None
                          else stored location_origin key w) /\
           posts (trace w')
           = (posts (trace w)
              ++ if notified
                 then List.map (fun c => (client_id c, exerciseSynced)) (clients w)
                 else [])%list
      else (forall key, stored location_origin key w' = stored location_origin key w) /\
           posts (trace w') = posts (trace w)
  | None =>
      (forall key, stored location_origin key w' = stored location_origin key w) /\
      posts (trace w') = posts (trace w)
  end.

(** ** Seeds of the install *)

(** Every seed of the list is fetched with a response that [cache.addAll]
    accepts, the first one at time [t0]. *)
Fixpoint seeds_ok (location_origin : string) (net : Network) (t0 : nat)
    (urls : list string) : bool :=
  match urls with
  | [] => true
  | u :: rest =>
      match net t0 (mkCall (resolve location_origin u) "GET" None) with
      | Responded r => acceptable r
      | NetworkError => false
      end && seeds_ok location_origin net (S t0) rest
  end.

(** How many times immediate activation was requested. *)
Fixpoint skips (tr : list Event) : nat :=
  match tr with
  | [] => 0
  | EvSkipWaiting :: rest => S (skips rest)
  | _ :: rest => skips rest
  end.

(** Two worlds hold the same entries in the cache [name]. *)
Definition same_tier (name : string) (w1 w2 : World) : Prop :=
  forall key, CS.lookup name key (caches w1) = CS.lookup name key (caches w2).

Module Seeds.

(** A network on which one icon of the assets is missing. *)
Definition iconMissing : Network :=
  fun _ c =>
    if String.eqb (call_url c) (Sample.site ++ "/icons/icon-512.png")
    then Responded (mkResponse 404 [] "")
    else Responded (mkResponse 200 [] (call_url c)).

End Seeds.

(** ** States of an activation *)

(** The broadcast, and the caches the cleanup is to delete. *)
Definition posted (w : World) : list ActEvent :=
  List.map (fun c => APosted (client_id c) activatedMessage) (clients w).

Definition stale_of (w : World) : list string :=
  List.filter isStale (CS.keys (caches w)).

(** What holds of every state an activation of the world [w] can reach. *)
Record act_inv (w : World) (a : Activation) (mid : list ActEvent) : Prop := {
  inv_trace :
    act_trace a
    = ([AKeysCalled; AClaimCalled] ++ mid
        ++ (if act_broadcast a then AMatchAllCalled :: posted w else []))%list;
  inv_clients : act_clients a = clients w;
  inv_phase : Forall (fun e => (act_phase e < 2)%nat) mid;
  inv_pending :
    act_keys_pending a = true -> act_caches a = caches w /\ act_deleting a = [];
  inv_resolved :
    act_keys_pending a = false ->
    In AKeysResolved mid /\
    forall n, In n (stale_of w) -> In (ADeleteDone n) mid \/ In n (act_deleting a);
  inv_claimed : act_claiming a = false -> In AClaimDone mid;
  inv_deleted : forall n, In (ADeleteDone n) mid -> CS.get n (act_caches a) = None;
  inv_absent : forall n, CS.get n (caches w) = None -> CS.get n (act_caches a) = None;
  inv_done :
    act_broadcast a = true ->
    act_keys_pending a = false /\ act_deleting a = [] /\ act_claiming a = false
}.

Module Upgrade.

(** The static tier of the previous generation is still there, next to the
    static tier of this generation. *)
Definition world : World :=
  mkWorld
    [ ("lumina-static-v2.4.0", ∅); (STATIC_CACHE, ∅) ]
    Sample.twoClients 0 [].

End Upgrade.

(** What a strategy execution does to the caches: nothing, or one [put] of
    the response the network gave, whose status is 200. *)
Definition cached_nothing (w w' : World) (evs : list Event) : Prop :=
  caches w' = caches w /\ trace w' = (trace w ++ evs)%list /\
  forall cache key r, ~ In (EvCachePut cache key r) evs.

(** The third outcome: the runtime tier was opened for a response of status
    200 that could not be stored. *)
Definition opened_tier (net : Network) (request : Request) (w w' : World) : Prop :=
  exists r,
    net (ticks w) (get_call request) = Responded r /\ status r = 200 /\
    caches w' = CS.open RUNTIME_CACHE (caches w) /\
    trace w' = (trace w ++ [EvFetch (get_call request)])%list.

Definition cached_response (net : Network) (request : Request) (w w' : World) : Prop :=
  exists r tier,
    net (ticks w) (get_call request) = Responded r /\ status r = 200 /\
    caches w' = CS.put tier (href (url request)) r (CS.open tier (caches w)) /\
    trace w' = (trace w ++ [EvFetch (get_call request); EvCachePut tier (href (url request)) r])%list.

(** ** Further notions: the calls of a trace, shadowed tiers *)

(** The network calls of a trace, in order. *)
Fixpoint fetched (tr : list Event) : list Call :=
  match tr with
  | [] => []
  | EvFetch c :: rest => c :: fetched rest
  | _ :: rest => fetched rest
  end.

(** The calls a sequential loop makes out of [calls]: up to and including
    the first one the network does not answer. *)
Fixpoint attempted (net : Network) (t0 : nat) (calls : list Call) : list Call :=
  match calls with
  | [] => []
  | c :: rest =>
      c :: match net t0 c with
           | Responded _ => attempted net (S t0) rest
           | NetworkError => []
           end
  end.

(** Some cache created before the cache [tier] holds an entry under [key]:
    [caches.match] finds that entry before it looks into [tier]. *)
Fixpoint shadows (tier key : string) (cs : list (string * gmap string Response)) : bool :=
  match cs with
  | [] => false
  | (n, c) :: rest =>
      if String.eqb n tier then false
      else match c !! key with
           | Some _ => true
           | None => shadows tier key rest
           end
  end.

(** The tier a strategy writes to. *)
Definition tier_of (s : Strategy) : string :=
  match s with
  | CacheFirst | NetworkFirst | StaleWhileRevalidate => RUNTIME_CACHE
  | Font | External => DYNAMIC_CACHE
  end.

Module Generations.

(** Caches of two generations: two tiers of this one, the dynamic tier of
    the previous one, and a cache of another application. *)
Definition world : World :=
  mkWorld
    [ (STATIC_CACHE, ∅); (ASSETS_CACHE, ∅); ("lumina-dynamic-v2.4.0", ∅);
      ("workbox-precache", ∅) ]
    Sample.twoClients 0 [].

End Generations.

Module Precache.

(** The world after an install in which every seed was fetched. *)
Definition installed : World := snd (onInstall Sample.site Sample.online Sample.fresh).

Definition indexPage : Request := Sample.sameOrigin "/index.html" "document".

Definition seededIndex : Response := mkResponse 200 [] (Sample.site ++ "/index.html").

(** The site has been published again: every page now reads [v2]. *)
Definition republished : Network := fun _ _ => Responded (mkResponse 200 [] "v2").

End Precache.

(** The calls a replay of the topic adds to the trace. *)
Definition replay_calls_of (location_origin : string) (net : Network)
    (t : Topic) (w w' : World) : Prop :=
  fetched (trace w')
  = (fetched (trace w)
     ++ match replay_plan t (decode (stored location_origin (topic_key t) w)) with
        | Some calls => attempted net (ticks w) calls
        | None => []
        end)%list.

Module Replays.

(** A network that loses the second call made and answers every other. *)
Definition secondCallLost : Network :=
  fun n c => if (n =? 1)%nat then NetworkError else Responded (mkResponse 200 [] "").

End Replays.

Module Outage.

(** A network that answers the sixteen calls of an install and is then
    unreachable. *)
Definition afterInstall : Network :=
  fun n c =>
    if (n <? 16)%nat then Responded (mkResponse 200 [] (call_url c)) else NetworkError.

End Outage.

(** ** Objects and coercions of the host language *)

(** An object is the list of its members in the order they were added; a
    member added again under the same name hides the earlier one.  The host
    lists members whose names are array indices first: the model keeps the
    order of insertion, and members are compared through [Obj.field]. *)
Module Obj.

(** [o[k]] *)
Fixpoint field (k : string) (fields : list (string * json)) : option json :=
  match fields with
  | [] => None
  | kv :: rest =>
      match field k rest with
      | Some v => Some v
      | None => if String.eqb (fst kv) k then Some (snd kv) else None
      end
  end.

Fixpoint replace (k : string) (v : json) (fields : list (string * json))
  : list (string * json) :=
  match fields with
  | [] => []
  | kv :: rest => (fst kv, if String.eqb (fst kv) k then v else snd kv) :: replace k v rest
  end.

(** [o[k] = v]: a member the object has keeps its place. *)
Definition set (k : string) (v : json) (fields : list (string * json))
  : list (string * json) :=
  match field k fields with
  | Some _ => replace k v fields
  | None => fields ++ [(k, v)]
  end.

Definition index_key (i : nat) : string := JSON.digits_of (N.of_nat i).

Fixpoint indexed (i : nat) (items : list json) : list (string * json) :=
  match items with
  | [] => []
  | x :: rest => (index_key i, x) :: indexed (S i) rest
  end.

(** The own enumerable members of a value, as [Object.assign] and the spread
    of an object literal read them: the members of an object, the elements of
    an array and the characters of a string under their indices, nothing for
    [null], a number or a boolean. *)
Definition own_entries (v : json) : list (string * json) :=
  match v with
  | JObj fields => fields
  | JArr items => indexed 0 items
  | JStr s => indexed 0 (List.map (fun c => JStr (String c "")) (list_ascii_of_string s))
  | _ => []
  end.

(** [Object.assign(target, source)] *)
Definition assign (target source : list (string * json)) : list (string * json) :=
  fold_left (fun acc kv => set (fst kv) (snd kv) acc) source target.

(** [v.k] for a name [k] that no prototype defines and that is neither an
    index nor [length]; [None] is [undefined], also for the value read from.
    Reading a member of [undefined] or [null] throws: the callers decide
    that case before they read. *)
Definition prop (v : option json) (k : string) : option json :=
  match v with
  | Some (JObj fields) => field k fields
  | _ => None
  end.

End Obj.

Section JoinItems.
Variable str : json -> string.

(** [Array.prototype.join]: [null] prints as the empty string. *)
Fixpoint join_items (l : list json) : string :=
  match l with
  | [] => ""
  | x :: rest =>
      match x with JNull => "" | _ => str x end
      ++ match rest with [] => "" | _ :: _ => String "," (join_items rest) end
  end.
End JoinItems.

(** The string a value becomes in a template literal or when it is added to
    a string. *)
Fixpoint to_string (v : json) : string :=
  match v with
  | JNull => "null"
  | JBool true => "true"
  | JBool false => "false"
  | JNum z => JSON.print_Z z
  | JDec d => JSON.print_dec d
  | JStr s => s
  | JArr items => join_items to_string items
  | JObj _ => "[object Object]"
  end.

Definition template (v : option json) : string :=
  match v with
  | Some x => to_string x
  | None => "undefined"
  end.

(** [v || {}] *)
Definition or_empty (v : option json) : option json :=
  match v with
  | Some x => if truthy x then Some x else Some (JObj [])
  | None => Some (JObj [])
  end.

(** Numbers of the host, as far as the reminders compute with them. *)
Inductive JsNumber :=
| NaN
| Finite (z : Z).

(** The number a value is converted to by an arithmetic operator, as far as
    the arithmetic of the reminders is modelled: on integers.  A number that
    is no integer is left out ([None]); so are a string and an array that is
    not empty, whose conversion reads a numeric literal. *)
Definition to_number (v : option json) : option JsNumber :=
  match v with
  | None => Some NaN
  | Some JNull => Some (Finite 0)
  | Some (JBool b) => Some (Finite (if b then 1 else 0))
  | Some (JNum z) => Some (Finite z)
  | Some (JDec _) => None
  | Some (JObj _) => Some NaN
  | Some (JArr []) => Some (Finite 0)
  | Some (JArr (_ :: _)) => None
  | Some (JStr _) => None
  end.

Definition within (bound : Z) (n : JsNumber) : bool :=
  match n with
  | NaN => true
  | Finite z => Z.abs z <=? bound
  end.

(** [Date.now() - lastReminder >= intervalMinutes * 60 * 1000].  The numbers
    of the host are binary64: the difference and the two products are exact
    when the times are within 2^52 and the minutes within 15 * 10^10, and
    [None] is returned outside these bounds.  A comparison with [NaN] is
    false. *)
Definition due (now : Z) (lastReminder intervalMinutes : option json) : option bool :=
  match to_number lastReminder, to_number intervalMinutes with
  | Some a, Some b =>
      if (Z.abs now <=? 2 ^ 52) && within (2 ^ 52) a && within (15 * 10 ^ 10) b
      then Some match a, b with
                | Finite last, Finite minutes => minutes * 60 * 1000 <=? now - last
                | _, _ => false
                end
      else None
  | _, _ => None
  end.

(** ** Notifications *)

Record Notification := mkNotification {
  n_title : string;
  n_options : list (string * json)
}.

(** The payload of a push event: none, a text that is not JSON, or the value
    [event.data.json()] returns. *)
Inductive PushPayload :=
| NoPayload
| NotJson
| Json (v : json).

Definition defaultOptions : list (string * json) :=
  [ ("body", JStr "Time for your 20-20-20 eye exercise break!");
    ("icon", JStr "/icons/icon-192.png");
    ("badge", JStr "/icons/badge-72.png");
    ("tag", JStr "eye-exercise-reminder");
    ("data", JObj [ ("url", JStr "/exercises.html?notification=break-reminder");
                    ("exerciseType", JStr "20-20-20") ]);
    ("actions",
     JArr [ JObj [ ("action", JStr "start-exercise");
                   ("title", JStr "👁️ Start Exercise");
                   ("icon", JStr "/icons/action-exercise.png") ];
            JObj [ ("action", JStr "remind-later");
                   ("title", JStr "⏰ Remind Later");
                   ("icon", JStr "/icons/action-later.png") ];
            JObj [ ("action", JStr "view-guidelines");
                   ("title", JStr "📋 View Guidelines");
                   ("icon", JStr "/icons/action-guidelines.png") ] ]);
    ("vibrate", JArr [JNum 200; JNum 100; JNum 200; JNum 100; JNum 200]);
    ("silent", JBool false);
    ("requireInteraction", JBool true) ].

(** The [push] listener: the notification it asks the platform to show, or
    the exception it throws before it asks. *)
Definition onPush (payload : PushPayload) : Res Notification :=
  match payload with
  | NoPayload =>
      Ret (mkNotification "Lumina AI - Eye Exercise Reminder" defaultOptions)
  | NotJson => Throw
  | Json pushData =>
      Ret (mkNotification "Lumina AI - Eye Exercise Reminder"
             (Obj.assign defaultOptions (Obj.own_entries pushData)))
  end.

(** ** Clicks on a notification *)

Record ActionMessage := mkActionMessage {
  am_action : string;
  am_exerciseType : json;
  am_data : option json
}.

(** What the click listener does to the windows; an [ActionMessage] is
    posted with the type [NOTIFICATION_ACTION]. *)
Inductive Ui :=
| UiClose
| UiFocus (client : nat)
| UiPost (client : nat) (m : ActionMessage)
| UiOpen (url : string).

Definition targetUrl (action : string) (url exerciseType : json) : string :=
  if String.eqb action "start-exercise"
  then "/exercises.html?quick=" ++ to_string exerciseType ++ "&source=notification"
  else if String.eqb action "view-guidelines"
  then "/exercises.html?section=guidelines&source=notification"
  else if String.eqb action "remind-later"
  then "/exercises.html?action=remind-later"
  else to_string url ++ "?source=notification".

(** The [notificationclick] listener, for the action chosen and the [data]
    of the notification. *)
Definition onNotificationClick (action : string) (data : option json) : M (list Ui) :=
  let source := or_empty data in
  let url := default (JStr "/exercises.html") (Obj.prop source "url") in
  let exerciseType := default (JStr "20-20-20") (Obj.prop source "exerciseType") in
  do clients <- clients_matchAll;
  match List.find (fun c => Str.includes (client_url c) "lumina") clients with
  | Some existingClient =>
      ret [ UiClose;
            UiFocus (client_id existingClient);
            UiPost (client_id existingClient) (mkActionMessage action exerciseType data) ]
  | None => ret [ UiClose; UiOpen (targetUrl action url exerciseType) ]
  end.

(** The members of an object literal one of which may be [undefined]: that
    member is left out, and reads as [undefined] all the same. *)
Definition member (k : string) (v : option json) : list (string * json) :=
  match v with
  | Some x => [(k, x)]
  | None => []
  end.

(** ** Reminders *)

Definition REMINDER_CONFIG := "exercise-reminder-config".

Definition periodicReminder (exerciseType : option json) : Notification :=
  mkNotification "Lumina AI - Exercise Break Time!"
    [ ("body", JStr "It's time for your regular eye exercise break. Take care of your vision!");
      ("icon", JStr "/icons/icon-192.png");
      ("tag", JStr "periodic-exercise-reminder");
      ("data", JObj (("url", JStr "/exercises.html?type=periodic-reminder")
                     :: member "exerciseType" exerciseType));
      ("actions",
       JArr [ JObj [ ("action", JStr "start-exercise"); ("title", JStr "👁️ Start Now") ];
              JObj [ ("action", JStr "remind-later"); ("title", JStr "⏰ 5 Min Later") ] ]) ].

(** The outcome of a health check: nothing shown, a notification shown, or
    a computation on numbers outside the bounds of [due]. *)
Inductive Check :=
| Quiet
| Fired (n : Notification)
| OutOfBounds.

Section Pages.

Variable location_origin : string.

(** [storeData(key, value)] for arguments read from a message: the key is
    spliced into the URL, and [JSON.stringify(undefined)] is [undefined],
    which makes an empty body. *)
Definition storeData_any (key value : option json) : M unit :=
  match value with
  | Some v => storeData location_origin (template key) v
  | None =>
      try_catch
        (do cache <- caches_open DATA_CACHE;
         cache_put cache (data_url location_origin (template key))
           (mkResponse 200 [("Content-Type", "application/json")] ""))
        (ret tt)
  end.

(** [scheduleExerciseReminder(data)] at the time [now].  [syncAvailable]
    tells whether [self.registration.sync.register] resolves: it does not
    where the platform has no background sync or refuses the registration. *)
Definition scheduleExerciseReminder (now : Z) (syncAvailable : bool) (data : option json)
  : M unit :=
  match data with
  | None | Some JNull => throw
  | Some _ =>
      let exerciseType := default (JStr "20-20-20") (Obj.prop data "exerciseType") in
      let intervalMinutes := default (JNum 20) (Obj.prop data "intervalMinutes") in
      try_catch
        (exec (if syncAvailable then ret tt else throw);
         storeData location_origin REMINDER_CONFIG
           (JObj [ ("exerciseType", exerciseType);
                   ("intervalMinutes", intervalMinutes);
                   ("lastReminder", JNum now) ]))
        (ret tt)
  end.

(** [performExerciseHealthCheck()]: [now] and [stamp] are the two readings
    of the clock, [permitted] tells whether [showNotification] resolves. *)
Definition performExerciseHealthCheck (now stamp : Z) (permitted : bool) : M Check :=
  try_catch
    (do reminderConfig <- getStoredData location_origin REMINDER_CONFIG;
     if truthy reminderConfig
     then
       let lastReminder := Obj.prop (Some reminderConfig) "lastReminder" in
       let intervalMinutes := Obj.prop (Some reminderConfig) "intervalMinutes" in
       match due now lastReminder intervalMinutes with
       | Some true =>
           exec (if permitted then ret tt else throw);
           exec storeData location_origin REMINDER_CONFIG
                  (JObj (Obj.set "lastReminder" (JNum stamp)
                           (Obj.assign [] (Obj.own_entries reminderConfig))));
           ret (Fired (periodicReminder (Obj.prop (Some reminderConfig) "exerciseType")))
       | Some false => ret Quiet
       | None => ret OutOfBounds
       end
     else ret Quiet)
    (ret Quiet).

Definition onPeriodicSync (tag : string) (now stamp : Z) (permitted : bool) : M Check :=
  if String.eqb tag "exercise-health-check"
  then performExerciseHealthCheck now stamp permitted
  else ret Quiet.

(** ** Messages from the pages *)

Definition cacheStatus : json :=
  JObj [ ("cached", JBool true);
         ("version", JStr APP_VERSION);
         ("caches", JObj [ ("static", JStr STATIC_CACHE);
                           ("dynamic", JStr DYNAMIC_CACHE);
                           ("runtime", JStr RUNTIME_CACHE);
                           ("assets", JStr ASSETS_CACHE) ]) ].

(** [event.ports[0].postMessage(reply)]: a TypeError when the message came
    without a port. *)
Definition reply_on (hasPort : bool) (reply : json) : M (option json) :=
  if hasPort then ret (Some reply) else throw.

(** The [message] listener.  The result is the reply posted on the port of
    the message, if any.  The promises of [storeData] and of
    [scheduleExerciseReminder] are not awaited: a rejection there is not an
    exception of the listener. *)
Definition onMessage (now : Z) (syncAvailable hasPort : bool) (message : option json)
  : M (option json) :=
  let source := or_empty message in
  let data := Obj.prop source "data" in
  match Obj.prop source "type" with
  | Some (JStr type) =>
      if String.eqb type "SKIP_WAITING" then
        exec skipWaiting; ret None
      else if String.eqb type "STORE_EXERCISE_DATA" then
        match data with
        | None | Some JNull => throw
        | Some _ =>
            exec storeData_any (Obj.prop data "key") (Obj.prop data "value");
            ret None
        end
      else if String.eqb type "GET_CACHE_STATUS" then
        reply_on hasPort cacheStatus
      else if String.eqb type "CLEAR_CACHE" then
        do success <- clearAllCaches;
        reply_on hasPort (JObj [("success", JBool success)])
      else if String.eqb type "SCHEDULE_EXERCISE_REMINDER" then
        exec settle (scheduleExerciseReminder now syncAvailable data);
        ret None
      else ret None
  | _ => ret None
  end.

End Pages.

(** A message that hands [value] to the store under [key]. *)
Definition storeMessage (key : string) (value : json) : json :=
  JObj [ ("type", JStr "STORE_EXERCISE_DATA");
         ("data", JObj [("key", JStr key); ("value", value)]) ].

Definition scheduleMessage (data : json) : json :=
  JObj [ ("type", JStr "SCHEDULE_EXERCISE_REMINDER"); ("data", data) ].

Definition clearMessage : json := JObj [ ("type", JStr "CLEAR_CACHE") ].
(** * Properties *)

(** ** Strings *)

Lemma str_app_inv_head (p a b : string) : p ++ a = p ++ b -> a = b.
Proof.
  induction p as [|c p IH]; simpl; intros H; [exact H |].
  injection H as H. auto.
Qed.

(** ** The Cache Storage *)

Module CSFacts.

Lemma get_open (name name' : string) cs :
  name <> name' -> CS.get name' (CS.open name cs) = CS.get name' cs.
Proof.
  intros Hne. unfold CS.open. destruct (CS.has name cs); [reflexivity |].
  induction cs as [|[n c] cs IH]; simpl.
  - destruct (String.eqb_spec name name'); [contradiction | reflexivity].
  - destruct (String.eqb n name'); [reflexivity | exact IH].
Qed.

Lemma has_get (name : string) cs :
  CS.has name cs = true <-> exists c, CS.get name cs = Some c.
Proof.
  unfold CS.has. induction cs as [|[n c] cs IH]; simpl.
  - split; [discriminate | intros [c H]; discriminate].
  - destruct (String.eqb n name); simpl; [split; eauto | exact IH].
Qed.

Lemma has_get_none (name : string) cs :
  CS.has name cs = false <-> CS.get name cs = None.
Proof.
  unfold CS.has. induction cs as [|[n c] cs IH]; simpl.
  - tauto.
  - destruct (String.eqb n name); simpl; [split; discriminate | exact IH].
Qed.

Lemma get_open_same (name : string) cs :
  CS.get name (CS.open name cs) = Some (default ∅ (CS.get name cs)).
Proof.
  unfold CS.open. destruct (CS.has name cs) eqn:Hhas.
  - apply has_get in Hhas as [c Hc]. now rewrite Hc.
  - apply has_get_none in Hhas. rewrite Hhas. simpl.
    induction cs as [|[n c] cs IH]; simpl in *.
    + now rewrite String.eqb_refl.
    + destruct (String.eqb n name); [discriminate | auto].
Qed.

Lemma lookup_open (name name' key : string) cs :
  CS.lookup name' key (CS.open name cs) = CS.lookup name' key cs.
Proof.
  unfold CS.lookup. destruct (String.eqb_spec name name') as [<- | Hne].
  - rewrite get_open_same. destruct (CS.get name cs); [reflexivity | apply lookup_empty].
  - now rewrite get_open.
Qed.

Lemma get_update (name name' : string) f cs :
  CS.get name' (CS.update name f cs)
  = if String.eqb name name' then f <$> CS.get name cs else CS.get name' cs.
Proof.
  induction cs as [|[n c] cs IH]; simpl.
  - now destruct (String.eqb name name').
  - destruct (String.eqb_spec n name) as [-> | Hn]; simpl.
    + destruct (String.eqb_spec name name') as [<- | Hne]; [reflexivity |]. reflexivity.
    + rewrite IH. destruct (String.eqb_spec name name') as [<- | Hne].
      * destruct (String.eqb_spec n name); [contradiction | reflexivity].
      * reflexivity.
Qed.

Lemma lookup_put (name key name' key' : string) r cs :
  CS.lookup name' key' (CS.put name key r cs)
  = if String.eqb name name' && String.eqb key key' && CS.has name cs
    then Some r else CS.lookup name' key' cs.
Proof.
  unfold CS.lookup, CS.put. rewrite get_update.
  destruct (String.eqb_spec name name') as [<- | Hne]; simpl; [| reflexivity].
  destruct (CS.get name cs) as [c|] eqn:Hget; simpl.
  - assert (CS.has name cs = true) as -> by (apply has_get; eauto).
    rewrite andb_true_r. destruct (String.eqb_spec key key') as [<- | Hk].
    + apply lookup_insert_eq.
    + now apply lookup_insert_ne.
  - apply has_get_none in Hget. rewrite Hget. now rewrite andb_false_r.
Qed.

Lemma lookup_remove (name key name' key' : string) cs :
  CS.lookup name' key' (CS.remove name key cs)
  = if String.eqb name name' && String.eqb key key'
    then None else CS.lookup name' key' cs.
Proof.
  unfold CS.lookup, CS.remove. rewrite get_update.
  destruct (String.eqb_spec name name') as [<- | Hne]; simpl; [| reflexivity].
  destruct (CS.get name cs) as [c|] eqn:Hget; simpl.
  - destruct (String.eqb_spec key key') as [<- | Hk].
    + apply lookup_delete_eq.
    + now apply lookup_delete_ne.
  - now destruct (String.eqb key key').
Qed.

Lemma has_open (name : string) cs : CS.has name (CS.open name cs) = true.
Proof. apply has_get. rewrite get_open_same. eauto. Qed.

End CSFacts.

(** ** The JSON codec *)

Lemma str_app_assoc (a b c : string) : (a ++ b) ++ c = a ++ (b ++ c).
Proof. induction a as [|x a IH]; simpl; [reflexivity | f_equal; exact IH]. Qed.

Lemma str_app_nil (s : string) : s ++ "" = s.
Proof. induction s as [|c s IH]; simpl; [reflexivity | now rewrite IH]. Qed.

Lemma str_length_app (a b : string) :
  String.length (a ++ b) = (String.length a + String.length b)%nat.
Proof.
  induction a as [|x a IH]; cbn [String.append String.length]; [reflexivity | now rewrite IH].
Qed.

Lemma parse_chars_escape_char (c : ascii) (tail : string) :
  parse_chars (escape_char c ++ tail) = cons_char c (parse_chars tail).
Proof.
  destruct c as [[|] [|] [|] [|] [|] [|] [|] [|]]; reflexivity.
Qed.

Lemma parse_chars_escape (s rest : string) :
  parse_chars (escape s ++ String dquote rest) = Some (s, rest).
Proof.
  induction s as [|c s IH]; simpl.
  - reflexivity.
  - rewrite str_app_assoc, parse_chars_escape_char, IH. reflexivity.
Qed.

Lemma parse_chars_quote (s rest : string) :
  exists tl, quote s ++ rest = String dquote tl /\ parse_chars tl = Some (s, rest).
Proof.
  exists (escape s ++ String dquote rest). split.
  - unfold quote. simpl. now rewrite str_app_assoc.
  - apply parse_chars_escape.
Qed.

(** *** Numerals *)

Section Numerals.

Local Open Scope N_scope.

Lemma digit_val_char (d : N) : d < 10 -> digit_val (digit_char d) = d.
Proof.
  intros H. unfold digit_val, digit_char.
  rewrite N_ascii_embedding by lia. lia.
Qed.

Lemma is_digit_char (d : N) : d < 10 -> is_digit (digit_char d) = true.
Proof.
  intros H. unfold is_digit, digit_char. rewrite N_ascii_embedding by lia.
  apply andb_true_intro. split; apply N.leb_le; lia.
Qed.

Lemma digit_char_zero (d : N) : d < 10 -> Ascii.eqb (digit_char d) "0" = (d =? 0).
Proof.
  intros H. unfold digit_char.
  destruct (N.eqb_spec d 0) as [-> | Hd]; [reflexivity |].
  apply Ascii.eqb_neq. intros E.
  apply (f_equal N_of_ascii) in E. rewrite N_ascii_embedding in E by lia.
  cbn in E. lia.
Qed.

Lemma value_from_app (a b : string) (acc : N) :
  digits_value_from acc (a ++ b) = digits_value_from (digits_value_from acc a) b.
Proof. revert acc. induction a as [|c a IH]; intros acc; cbn; [reflexivity | apply IH]. Qed.

Lemma value_from_scale (s : string) (acc : N) :
  digits_value_from acc s = acc * 10 ^ N.of_nat (String.length s) + digits_value s.
Proof.
  unfold digits_value. revert acc. induction s as [|c s IH]; intros acc.
  - cbn. lia.
  - cbn [digits_value_from String.length]. rewrite IH, (IH (10 * 0 + digit_val c)).
    rewrite Nat2N.inj_succ, N.pow_succ_r'. lia.
Qed.

Lemma value_app (a b : string) :
  digits_value (a ++ b) = digits_value a * 10 ^ N.of_nat (String.length b) + digits_value b.
Proof. unfold digits_value at 1. rewrite value_from_app. fold (digits_value a). apply value_from_scale. Qed.

Lemma value_zeros (j : nat) : digits_value (zeros j) = 0.
Proof.
  induction j as [|j IH]; [reflexivity |].
  change (zeros (S j)) with (String "0" "" ++ zeros j). rewrite value_app, IH.
  change (digits_value (String "0" "")) with 0. lia.
Qed.

Lemma length_zeros (j : nat) : String.length (zeros j) = j.
Proof. induction j as [|j IH]; cbn; [reflexivity | now rewrite IH]. Qed.

Lemma all_digits_zeros (j : nat) : all_digits (zeros j) = true.
Proof. induction j as [|j IH]; [reflexivity | exact IH]. Qed.

Lemma all_digits_app (a b : string) :
  all_digits (a ++ b) = all_digits a && all_digits b.
Proof.
  induction a as [|c a IH]; cbn [String.append all_digits]; [reflexivity |].
  now rewrite IH, andb_assoc.
Qed.

Lemma value_zeros_l (j : nat) (s : string) : digits_value (zeros j ++ s) = digits_value s.
Proof. rewrite value_app, value_zeros. lia. Qed.

Lemma value_zeros_r (s : string) (j : nat) : digits_value (s ++ zeros j) = digits_value s * 10 ^ N.of_nat j.
Proof. rewrite value_app, value_zeros, length_zeros. lia. Qed.

Lemma digits_fuel_S (fuel : nat) (m : N) :
  digits_fuel (S fuel) m
  = if m <? 10 then String (digit_char m) ""
    else digits_fuel fuel (m / 10) ++ String (digit_char (m mod 10)) "".
Proof. reflexivity. Qed.

(** The digits of a number, for any fuel that is enough. *)
Lemma digits_fuel_spec (fuel : nat) :
  forall m, m < 2 ^ N.of_nat (S fuel) ->
    digits_value (digits_fuel (S fuel) m) = m /\
    all_digits (digits_fuel (S fuel) m) = true /\
    exists c tl, digits_fuel (S fuel) m = String c tl /\
                 (0 < m -> Ascii.eqb c "0" = false).
Proof.
  assert (Hsmall : forall f m, m < 10 ->
            digits_value (digits_fuel (S f) m) = m /\
            all_digits (digits_fuel (S f) m) = true /\
            exists c tl, digits_fuel (S f) m = String c tl /\
                         (0 < m -> Ascii.eqb c "0" = false)).
  { intros f m Hlt. rewrite digits_fuel_S, (proj2 (N.ltb_lt m 10) Hlt).
    split; [| split].
    - unfold digits_value. cbn [digits_value_from]. rewrite digit_val_char by exact Hlt. lia.
    - cbn [all_digits]. now rewrite is_digit_char.
    - eexists _, _. split; [reflexivity |]. intros Hpos.
      rewrite digit_char_zero by exact Hlt. apply N.eqb_neq. lia. }
  induction fuel as [|fuel IH]; intros m Hm.
  - apply Hsmall. change (2 ^ N.of_nat 1) with 2 in Hm. lia.
  - destruct (N.ltb_spec m 10) as [Hlt | Hge]; [now apply Hsmall |].
    rewrite (digits_fuel_S (S fuel) m), (proj2 (N.ltb_ge m 10) Hge).
    assert (Hq : m / 10 < 2 ^ N.of_nat (S fuel)).
    { rewrite (Nat2N.inj_succ (S fuel)), N.pow_succ_r' in Hm.
      apply N.Div0.div_lt_upper_bound. lia. }
    destruct (IH (m / 10) Hq) as (Hv & Hd & c & tl & Hs & Hc).
    assert (Hr : m mod 10 < 10) by (apply N.mod_lt; lia).
    split; [| split].
    + rewrite value_app, Hv. unfold digits_value at 1. cbn [digits_value_from String.length].
      rewrite digit_val_char by exact Hr.
      pose proof (N.div_mod m 10). change (10 ^ N.of_nat 1) with 10. lia.
    + rewrite all_digits_app, Hd. cbn [all_digits]. now rewrite is_digit_char.
    + rewrite Hs. eexists _, _. split; [reflexivity |]. intros _. apply Hc.
      apply N.div_str_pos. lia.
Qed.

Lemma log2_fuel (m : N) : m < 2 ^ N.of_nat (S (N.to_nat (N.log2 m))).
Proof.
  rewrite Nat2N.inj_succ, N2Nat.id.
  destruct (N.eq_dec m 0) as [-> | Hm]; [cbn; lia |].
  apply N.log2_spec. lia.
Qed.

Lemma value_digits (m : N) : digits_value (digits_of m) = m.
Proof. apply digits_fuel_spec, log2_fuel. Qed.

Lemma all_digits_digits (m : N) : all_digits (digits_of m) = true.
Proof. apply digits_fuel_spec, log2_fuel. Qed.

Lemma digits_head (m : N) :
  exists c tl, digits_of m = String c tl /\ (0 < m -> Ascii.eqb c "0" = false).
Proof. apply digits_fuel_spec, log2_fuel. Qed.

End Numerals.

Lemma no_digit_head_not_digit (rest : string) : no_digit_head rest -> head_not_digit rest.
Proof.
  destruct rest as [|c r]; [trivial |]. cbn. unfold continues_number.
  destruct (is_digit c); [discriminate | reflexivity].
Qed.

Lemma span_digits_app (ds rest : string) :
  all_digits ds = true -> head_not_digit rest -> span_digits (ds ++ rest) = (ds, rest).
Proof.
  intros Hd Hrest. induction ds as [|c ds IH]; cbn [String.append].
  - destruct rest as [|c r]; [reflexivity |]. cbn in *. now rewrite Hrest.
  - cbn [all_digits] in Hd. apply andb_prop in Hd as [Hc Hds].
    cbn [span_digits]. rewrite Hc, (IH Hds). reflexivity.
Qed.

Lemma is_digit_not_minus c : is_digit c = true -> Ascii.eqb c "-"%char = false.
Proof.
  destruct c as [[|] [|] [|] [|] [|] [|] [|] [|]]; intros H; try reflexivity; discriminate H.
Qed.

Lemma signed_abs (z : Z) : signed (z <? 0) (Z.of_N (Z.abs_N z)) = z.
Proof. unfold signed. rewrite N2Z.inj_abs_N. destruct (Z.ltb_spec z 0); lia. Qed.

Lemma parse_exponent_none (rest : string) :
  no_digit_head rest -> parse_exponent rest = Some (0, rest).
Proof.
  destruct rest as [|c r]; [reflexivity |]. cbn. unfold continues_number.
  destruct (is_digit c), (Ascii.eqb c "."), (Ascii.eqb c "e"), (Ascii.eqb c "E");
    try discriminate; reflexivity.
Qed.

Lemma parse_exponent_part (e : Z) (rest : string) :
  head_not_digit rest -> parse_exponent (exponent_part e ++ rest) = Some (e, rest).
Proof.
  intros Hrest. unfold exponent_part.
  destruct (digits_head (Z.abs_N e)) as (c & tl & Hs & _).
  assert (Hne : is_empty (digits_of (Z.abs_N e)) = false) by now rewrite Hs.
  pose proof (span_digits_app _ rest (all_digits_digits (Z.abs_N e)) Hrest) as Hspan.
  destruct (Z.ltb_spec e 0) as [Hneg | Hpos];
    cbn [String.append parse_exponent Ascii.eqb Bool.eqb orb];
    rewrite Hspan, Hne, value_digits; unfold signed; f_equal; f_equal;
    rewrite N2Z.inj_abs_N; lia.
Qed.

Lemma parse_fraction_none (rest : string) :
  match rest with
  | EmptyString => True
  | String c _ => Ascii.eqb c "." = false
  end ->
  parse_fraction rest = Some ("", rest).
Proof. destruct rest as [|c r]; [reflexivity |]. cbn. now intros ->. Qed.

Lemma parse_fraction_part (frac rest : string) :
  all_digits frac = true -> is_empty frac = false -> head_not_digit rest ->
  parse_fraction (String "." (frac ++ rest)) = Some (frac, rest).
Proof.
  intros Hd Hne Hrest. cbn [parse_fraction Ascii.eqb Bool.eqb].
  now rewrite (span_digits_app frac rest Hd Hrest), Hne.
Qed.

Lemma parse_numeral (neg : bool) (int frac : string) (ex : option Z) (rest : string) :
  all_digits int = true -> is_empty int = false -> leading_zero int = false ->
  all_digits frac = true -> no_digit_head rest ->
  parse_number (numeral neg int frac ex ++ rest)
  = Some (make_number neg (digits_value (int ++ frac))
            (default 0 ex - Z.of_nat (String.length frac)), rest).
Proof.
  intros Hint Hne Hlead Hfrac Hrest.
  pose proof (no_digit_head_not_digit rest Hrest) as Hrest'.
  set (expo := match ex with Some e => exponent_part e | None => "" end).
  assert (Hexp : parse_exponent (expo ++ rest) = Some (default 0 ex, rest)).
  { destruct ex as [e|]; [apply parse_exponent_part, Hrest' | apply parse_exponent_none, Hrest]. }
  assert (Hexp_head : head_not_digit (expo ++ rest)).
  { destruct ex as [e|]; [reflexivity | exact Hrest']. }
  assert (Hexp_dot : match expo ++ rest with
                     | EmptyString => True
                     | String c _ => Ascii.eqb c "." = false
                     end).
  { destruct ex as [e|]; [reflexivity |]. subst expo. cbn [String.append].
    destruct rest as [|c r]; [trivial |]. cbn in Hrest. unfold continues_number in Hrest.
    destruct (is_digit c), (Ascii.eqb c "."); try discriminate; reflexivity. }
  set (fracpart := if is_empty frac then "" else String "." frac).
  assert (Hfr : parse_fraction (fracpart ++ expo ++ rest) = Some (frac, expo ++ rest)).
  { subst fracpart. destruct frac as [|c f].
    - cbn [is_empty String.append]. now apply parse_fraction_none.
    - cbn [is_empty]. change (String "." (String c f) ++ expo ++ rest)
        with (String "." (String c f ++ (expo ++ rest))).
      now apply parse_fraction_part. }
  assert (Hfr_head : head_not_digit (fracpart ++ expo ++ rest)).
  { subst fracpart. destruct (is_empty frac); [exact Hexp_head | reflexivity]. }
  assert (Hbody : forall s1, s1 = int ++ fracpart ++ expo ++ rest ->
            (let (int', s2) := span_digits s1 in
             if is_empty int' || leading_zero int' then None
             else match parse_fraction s2 with
                  | Some (frac', s3) =>
                      match parse_exponent s3 with
                      | Some (e, s4) =>
                          Some (make_number neg (digits_value (int' ++ frac'))
                                  (e - Z.of_nat (String.length frac')), s4)
                      | None => None
                      end
                  | None => None
                  end)
            = Some (make_number neg (digits_value (int ++ frac))
                      (default 0 ex - Z.of_nat (String.length frac)), rest)).
  { intros s1 ->. rewrite (span_digits_app int _ Hint Hfr_head), Hne, Hlead.
    cbn [orb]. now rewrite Hfr, Hexp. }
  unfold numeral. fold expo. fold fracpart. rewrite !str_app_assoc.
  unfold parse_number. destruct neg; cbn [sign_of String.append].
  - cbn [Ascii.eqb Bool.eqb]. now apply Hbody.
  - destruct int as [|c int']; [discriminate Hne |].
    cbn [String.append]. cbn [all_digits] in Hint.
    apply andb_prop in Hint as [Hc Hint'].
    rewrite (is_digit_not_minus c Hc). apply Hbody. reflexivity.
Qed.

Lemma take_drop_chars (n : nat) (s : string) : take_chars n s ++ drop_chars n s = s.
Proof.
  revert s. induction n as [|n IH]; intros [|c s]; cbn; try reflexivity.
  now rewrite IH.
Qed.

Lemma length_drop (n : nat) (s : string) :
  String.length (drop_chars n s) = (String.length s - n)%nat.
Proof.
  revert s. induction n as [|n IH]; intros [|c s]; cbn; try reflexivity; try lia.
  apply IH.
Qed.

Lemma all_digits_take_drop (n : nat) (s : string) :
  all_digits s = true -> all_digits (take_chars n s) = true /\ all_digits (drop_chars n s) = true.
Proof.
  intros H. rewrite <- (take_drop_chars n s), all_digits_app in H. now apply andb_prop in H.
Qed.

Lemma strip_zeros_app (s : string) :
  strip_zeros s ++ zeros (String.length s - String.length (strip_zeros s)) = s.
Proof.
  induction s as [|c s IH]; [reflexivity |].
  cbn [strip_zeros]. destruct (strip_zeros s) as [|c' r] eqn:Hs.
  - cbn [String.append String.length] in IH.
    replace (String.length s - 0)%nat with (String.length s) in IH by lia.
    destruct (Ascii.eqb_spec c "0") as [-> | Hc]; cbn [String.append String.length].
    + replace (S (String.length s) - 0)%nat with (S (String.length s)) by lia.
      cbn [zeros]. now rewrite IH.
    + replace (S (String.length s) - 1)%nat with (String.length s) by lia.
      now rewrite IH.
  - cbn [String.append String.length] in *.
    replace (S (String.length s) - S (S (String.length r)))%nat
      with (String.length s - S (String.length r))%nat by lia.
    now rewrite IH.
Qed.

Lemma strip_zeros_head (c : ascii) (tl : string) :
  Ascii.eqb c "0" = false -> exists tl', strip_zeros (String c tl) = String c tl'.
Proof.
  intros Hc. cbn [strip_zeros]. destruct (strip_zeros tl); rewrite ?Hc; eauto.
Qed.

Lemma length_strip_zeros (s : string) :
  (String.length (strip_zeros s) <= String.length s)%nat.
Proof.
  pose proof (f_equal String.length (strip_zeros_app s)) as H.
  rewrite str_length_app in H. lia.
Qed.

Lemma all_digits_strip (s : string) :
  all_digits s = true -> all_digits (strip_zeros s) = true.
Proof.
  intros H. rewrite <- (strip_zeros_app s), all_digits_app in H. now apply andb_prop in H.
Qed.

Lemma nz_of_val (d : nzdigit) : nz_of (nz_val d) = d.
Proof. now destruct d. Qed.

Lemma make_number_int (neg : bool) (m : N) (e : Z) :
  m <> 0%N -> 0 <= e -> make_number neg m e = JNum (signed neg (Z.of_N m * 10 ^ e)).
Proof.
  intros Hm He. unfold make_number.
  rewrite (proj2 (N.eqb_neq m 0) Hm), (proj2 (Z.leb_le 0 e) He). reflexivity.
Qed.

Lemma make_number_dec (d : Dec) :
  make_number (dec_neg d) (mantissa d) (- Z.pos (dec_scale d)) = JDec d.
Proof.
  destruct d as [neg lead last scale]. unfold make_number, mantissa. cbn [dec_neg dec_lead dec_last dec_scale].
  assert (Hlast : (0 < nz_val last < 10)%N) by (destruct last; cbn; lia).
  assert (Hmod : ((10 * lead + nz_val last) mod 10 = nz_val last)%N).
  { rewrite N.add_comm, N.mul_comm, N.Div0.mod_add. apply N.mod_small. lia. }
  assert (Hdiv : ((10 * lead + nz_val last) / 10 = lead)%N).
  { rewrite N.add_comm, N.mul_comm, N.div_add by lia. rewrite N.div_small; lia. }
  rewrite (proj2 (N.eqb_neq _ 0)) by lia.
  rewrite (proj2 (Z.leb_gt 0 _)) by lia.
  cbn [strip10]. rewrite (proj2 (Z.ltb_lt _ 0)) by lia. rewrite Hmod.
  rewrite (proj2 (N.eqb_neq _ 0)) by lia. cbn [andb].
  rewrite (proj2 (Z.eqb_neq _ 0)) by lia.
  rewrite Hmod, Hdiv, nz_of_val, Z.opp_involutive. reflexivity.
Qed.

Lemma numeral_int (neg : bool) (int : string) :
  numeral neg int "" None = sign_of neg ++ int.
Proof. unfold numeral. cbn [is_empty]. now rewrite !str_app_nil. Qed.

Lemma numeral_frac (neg : bool) (int frac : string) :
  is_empty frac = false ->
  numeral neg int frac None = sign_of neg ++ int ++ String "." frac.
Proof. intros H. unfold numeral. rewrite H. now rewrite str_app_nil. Qed.

Lemma numeral_exp (neg : bool) (d : ascii) (tl : string) (e : Z) :
  numeral neg (String d "") tl (Some e)
  = sign_of neg
    ++ match tl with
       | EmptyString => String d (exponent_part e)
       | String _ _ => String d (String "." (tl ++ exponent_part e))
       end.
Proof. unfold numeral. destruct tl; reflexivity. Qed.

(** The numeral the host prints for a number is read back as that number. *)
Lemma parse_number_to_string (neg : bool) (c : ascii) (tl : string) (n : Z) (rest : string) :
  let s := String c tl in
  let k := Z.of_nat (String.length s) in
  all_digits s = true -> Ascii.eqb c "0" = false -> no_digit_head rest ->
  parse_number ((sign_of neg ++ number_to_string s n) ++ rest)
  = Some (if (k <=? n) && (n <=? 21)
          then make_number neg (digits_value s * 10 ^ Z.to_N (n - k)) 0
          else make_number neg (digits_value s) (n - k), rest).
Proof.
  intros s k Hs Hc Hrest. unfold number_to_string. fold k.
  assert (Hkdef : k = Z.of_nat (String.length s)) by reflexivity.
  assert (Hslen : String.length s = S (String.length tl)) by reflexivity.
  assert (Hk : 0 < k) by lia.
  destruct ((k <=? n) && (n <=? 21)) eqn:Hplain.
  - (* digits followed by zeros *)
    apply andb_prop in Hplain as [H1 _]. apply Z.leb_le in H1.
    rewrite <- numeral_int.
    rewrite parse_numeral; [| | reflexivity | | reflexivity | exact Hrest].
    + rewrite str_app_nil, value_zeros_r. cbn [String.length default].
      replace (N.of_nat (Z.to_nat (n - k))) with (Z.to_N (n - k)) by lia. reflexivity.
    + rewrite all_digits_app, Hs. apply all_digits_zeros.
    + unfold s. cbn [String.append leading_zero].
      destruct (tl ++ zeros (Z.to_nat (n - k))); [reflexivity | exact Hc].
  - destruct ((0 <? n) && (n <=? 21)) eqn:Hpoint.
    + (* a point inside the digits *)
      apply andb_prop in Hpoint as [H0 H21]. apply Z.ltb_lt in H0. apply Z.leb_le in H21.
      assert (Hnk : n < k).
      { apply andb_false_iff in Hplain as [H | H];
          [apply Z.leb_gt in H; lia | apply Z.leb_gt in H; lia]. }
      destruct (all_digits_take_drop (Z.to_nat n) s Hs) as [Ht Hd].
      assert (Hdl : String.length (drop_chars (Z.to_nat n) s) = Z.to_nat (k - n)).
      { rewrite length_drop. lia. }
      assert (Hdne : is_empty (drop_chars (Z.to_nat n) s) = false).
      { destruct (drop_chars (Z.to_nat n) s); [cbn in Hdl; lia | reflexivity]. }
      rewrite <- numeral_frac by exact Hdne.
      rewrite parse_numeral; [| exact Ht | | | exact Hd | exact Hrest].
      * rewrite take_drop_chars, Hdl. cbn [default]. do 3 f_equal. lia.
      * unfold s. destruct (Z.to_nat n) eqn:E; [lia | reflexivity].
      * unfold s. destruct (Z.to_nat n) as [|[|j]] eqn:E; [lia | reflexivity |].
        cbn [take_chars]. destruct tl; [reflexivity | exact Hc].
    + destruct ((-6 <? n) && (n <=? 0)) eqn:Hsmall.
      * (* zeros after the point *)
        apply andb_prop in Hsmall as [_ H0]. apply Z.leb_le in H0.
        change (sign_of neg ++ String "0" (String "." (zeros (Z.to_nat (- n)) ++ s)))
          with (sign_of neg ++ String "0" "" ++ String "." (zeros (Z.to_nat (- n)) ++ s)).
        rewrite <- numeral_frac by (unfold s; now destruct (Z.to_nat (- n))).
        rewrite parse_numeral; [| reflexivity | reflexivity | reflexivity | | exact Hrest].
        -- change (String "0" "" ++ zeros (Z.to_nat (- n)) ++ s)
             with (zeros (S (Z.to_nat (- n))) ++ s).
           rewrite value_zeros_l, str_length_app, length_zeros. cbn [default].
           do 3 f_equal. lia.
        -- rewrite all_digits_app, Hs. now rewrite all_digits_zeros.
      * (* exponent notation *)
        unfold s at 1. fold (numeral neg (String c "") tl (Some (n - 1))).
        rewrite <- numeral_exp.
        cbn [all_digits] in Hs. apply andb_prop in Hs as [Hcd Htl].
        rewrite parse_numeral; [| | reflexivity | reflexivity | exact Htl | exact Hrest].
        -- cbn [String.append from_option]. unfold id. do 3 f_equal. lia.
        -- cbn [all_digits]. now rewrite Hcd.
Qed.

Lemma number_to_string_head (c : ascii) (tl : string) (n : Z) :
  is_digit c = true ->
  exists c' tl', number_to_string (String c tl) n = String c' tl' /\ is_digit c' = true.
Proof.
  intros Hc. unfold number_to_string.
  destruct ((Z.of_nat (String.length (String c tl)) <=? n) && (n <=? 21));
    [cbn [String.append]; eauto |].
  destruct ((0 <? n) && (n <=? 21)) eqn:Hpoint.
  - apply andb_prop in Hpoint as [H0 _]. apply Z.ltb_lt in H0.
    destruct (Z.to_nat n) eqn:E; [lia |]. cbn [take_chars String.append]. eauto.
  - destruct ((-6 <? n) && (n <=? 0)); [eexists _, _; split; reflexivity |].
    destruct tl; eauto.
Qed.

Lemma digits_strip (m : N) :
  (0 < m)%N ->
  exists c tl,
    strip_zeros (digits_of m) = String c tl /\
    is_digit c = true /\ Ascii.eqb c "0" = false /\
    all_digits (String c tl) = true /\
    (String.length (String c tl) <= String.length (digits_of m))%nat /\
    (digits_value (String c tl)
     * 10 ^ N.of_nat (String.length (digits_of m) - String.length (String c tl)) = m)%N.
Proof.
  intros Hm. destruct (digits_head m) as (c & tl & Hs & Hc). specialize (Hc Hm).
  destruct (strip_zeros_head c tl Hc) as [tl' Hstrip]. rewrite <- Hs in Hstrip.
  pose proof (all_digits_strip _ (all_digits_digits m)) as Hall.
  pose proof (length_strip_zeros (digits_of m)) as Hlen.
  pose proof (strip_zeros_app (digits_of m)) as Happ.
  rewrite Hstrip in *. exists c, tl'. split; [reflexivity |].
  split; [cbn [all_digits] in Hall; now apply andb_prop in Hall |].
  split; [exact Hc |]. split; [exact Hall |]. split; [exact Hlen |].
  rewrite <- value_zeros_r, Happ. apply value_digits.
Qed.

Lemma parse_print_Z (z : Z) (rest : string) :
  no_digit_head rest -> parse_number (print_Z z ++ rest) = Some (JNum z, rest).
Proof.
  intros Hrest. unfold print_Z. destruct (Z.eqb_spec z 0) as [-> | Hz].
  - change (String "0" "" ++ rest) with (numeral false "0" "" None ++ rest).
    now rewrite parse_numeral.
  - assert (Hm : (0 < Z.abs_N z)%N) by lia.
    destruct (digits_strip (Z.abs_N z) Hm) as (c & tl & Hstrip & Hcd & Hc & Hall & Hlen & Hval).
    cbv zeta. rewrite Hstrip, (parse_number_to_string (z <? 0) c tl _ rest Hall Hc Hrest).
    set (s := String c tl) in *. set (ds := digits_of (Z.abs_N z)) in *.
    assert (Hnz : digits_value s <> 0%N) by (intros E; rewrite E in Hval; lia).
    f_equal. f_equal. rewrite <- (signed_abs z) at 3. rewrite <- Hval.
    destruct (_ && _).
    + rewrite make_number_int; [| | lia].
      * do 2 f_equal. rewrite Z.pow_0_r, Z.mul_1_r. do 2 f_equal. lia.
      * apply N.neq_mul_0. split; [exact Hnz |]. apply N.pow_nonzero. lia.
    + rewrite make_number_int; [| exact Hnz | lia].
      do 2 f_equal. rewrite N2Z.inj_mul, N2Z.inj_pow. do 2 f_equal. lia.
Qed.

Lemma parse_print_dec (d : Dec) (rest : string) :
  no_digit_head rest -> parse_number (print_dec d ++ rest) = Some (JDec d, rest).
Proof.
  intros Hrest. unfold print_dec.
  assert (Hm : (0 < mantissa d)%N) by (unfold mantissa; destruct (dec_last d); cbn; lia).
  destruct (digits_head (mantissa d)) as (c & tl & Hs & Hc). specialize (Hc Hm).
  pose proof (all_digits_digits (mantissa d)) as Hall.
  pose proof (value_digits (mantissa d)) as Hval.
  cbv zeta. rewrite Hs in *.
  rewrite (parse_number_to_string (dec_neg d) c tl _ rest Hall Hc Hrest).
  rewrite (proj2 (andb_false_iff _ _)) by (left; apply Z.leb_gt; lia).
  rewrite Hval. replace (_ - _ - _) with (- Z.pos (dec_scale d)) by lia.
  now rewrite make_number_dec.
Qed.

Lemma print_Z_head (z : Z) :
  exists c tl, print_Z z = String c tl /\ (is_digit c = true \/ c = "-"%char).
Proof.
  unfold print_Z. destruct (Z.eqb_spec z 0) as [-> | Hz]; [eexists _, _; split; eauto |].
  assert (Hm : (0 < Z.abs_N z)%N) by lia.
  destruct (digits_strip (Z.abs_N z) Hm) as (c & tl & Hstrip & Hcd & _).
  cbv zeta. rewrite Hstrip.
  destruct (number_to_string_head c tl (Z.of_nat (String.length (digits_of (Z.abs_N z)))) Hcd)
    as (c' & tl' & E & Hc'). rewrite E.
  destruct (z <? 0); cbn [sign_of String.append]; eauto.
Qed.

Lemma print_dec_head (d : Dec) :
  exists c tl, print_dec d = String c tl /\ (is_digit c = true \/ c = "-"%char).
Proof.
  unfold print_dec. destruct (digits_head (mantissa d)) as (c & tl & Hs & _).
  pose proof (all_digits_digits (mantissa d)) as Hall. cbv zeta. rewrite Hs in *.
  cbn [all_digits] in Hall. apply andb_prop in Hall as [Hcd _].
  destruct (number_to_string_head c tl
              (Z.of_nat (String.length (String c tl)) - Z.pos (dec_scale d)) Hcd)
    as (c' & tl' & E & Hc'). rewrite E.
  destruct (dec_neg d); cbn [sign_of String.append]; eauto.
Qed.

Lemma number_head (c : ascii) :
  is_digit c = true \/ c = "-"%char -> starts_number c.
Proof.
  intros [H | ->]; [| repeat split].
  destruct c as [[|] [|] [|] [|] [|] [|] [|] [|]]; try discriminate H; repeat split.
Qed.

Lemma parse_value_number (v : json) (fuel : nat) (rest : string) :
  (exists c tl, stringify v = String c tl /\ (is_digit c = true \/ c = "-"%char)) ->
  parse_number (stringify v ++ rest) = Some (v, rest) ->
  parse_value (S fuel) (stringify v ++ rest) = Some (v, rest).
Proof.
  intros (c & tl & Hs & Hc) Hp.
  destruct (number_head c Hc) as (H0 & H1 & H2 & H3 & H4 & H5 & H6 & _).
  rewrite Hs in *. cbn [String.append parse_value skip_ws]. rewrite H0.
  rewrite H1, H2, H3, H4, H5, H6. exact Hp.
Qed.

(** No value starts with a closing bracket or brace, or with white space. *)
Lemma stringify_head (v : json) :
  exists c tl, stringify v = String c tl /\
    Ascii.eqb c "]"%char = false /\ Ascii.eqb c "}"%char = false /\ is_ws c = false.
Proof.
  assert (Hnum : forall s, (exists c tl, s = String c tl /\
                              (is_digit c = true \/ c = "-"%char)) ->
            exists c tl, s = String c tl /\
              Ascii.eqb c "]"%char = false /\ Ascii.eqb c "}"%char = false /\
              is_ws c = false).
  { intros s (c & tl & Hs & Hc).
    destruct (number_head c Hc) as (H0 & _ & _ & _ & _ & _ & _ & H7 & H8).
    exists c, tl. auto. }
  destruct v as [| [|] | z | d | s | items | fields]; simpl;
    try (eexists _, _; split; [reflexivity | repeat split]).
  - apply Hnum, print_Z_head.
  - apply Hnum, print_dec_head.
Qed.

Lemma skip_ws_head (c : ascii) (tl : string) :
  is_ws c = false -> skip_ws (String c tl) = String c tl.
Proof. intros H. cbn [skip_ws]. now rewrite H. Qed.

Lemma skip_ws_stringify (v : json) (rest : string) :
  skip_ws (stringify v ++ rest) = stringify v ++ rest.
Proof.
  destruct (stringify_head v) as (c & tl & Hs & _ & _ & Hw). rewrite Hs.
  cbn [String.append]. now apply skip_ws_head.
Qed.

Lemma parse_elems_join (pv : string -> option (json * string)) (rest : string) :
  forall (l : list json) (n : nat),
    Forall (fun x => forall r, no_digit_head r -> pv (stringify x ++ r) = Some (x, r)) l ->
    l <> [] -> (length l <= n)%nat ->
    parse_elems pv n (join_elems stringify l ++ rest) = Some (l, rest).
Proof.
  induction l as [|x l IH]; intros n Hall Hne Hlen; [congruence |].
  destruct n as [|n]; [simpl in Hlen; lia |].
  inversion Hall as [|? ? Hx Hl]; subst.
  simpl. rewrite str_app_assoc. destruct l as [|y l'].
  - simpl. rewrite (Hx (String "]" rest)) by reflexivity. reflexivity.
  - change (String "," (join_elems stringify (y :: l')) ++ rest)
      with (String "," (join_elems stringify (y :: l') ++ rest)).
    rewrite (Hx (String "," (join_elems stringify (y :: l') ++ rest))) by reflexivity.
    cbn [skip_ws is_ws orb Ascii.eqb Bool.eqb].
    rewrite (IH n Hl); [reflexivity | discriminate | simpl in *; lia].
Qed.

Lemma parse_members_join (pv : string -> option (json * string)) (rest : string) :
  forall (l : list (string * json)) (n : nat),
    Forall (fun kx => forall r, no_digit_head r ->
                      pv (stringify (snd kx) ++ r) = Some (snd kx, r)) l ->
    l <> [] -> (length l <= n)%nat ->
    parse_members pv n (join_members stringify l ++ rest) = Some (l, rest).
Proof.
  induction l as [|[k x] l IH]; intros n Hall Hne Hlen; [congruence |].
  destruct n as [|n]; [simpl in Hlen; lia |].
  inversion Hall as [|? ? Hx Hl]; subst. simpl in Hx.
  cbn [join_members fst snd]. rewrite str_app_assoc.
  destruct (parse_chars_quote k
              (String ":" (stringify x ++
                 match l with [] => "}" | _ :: _ => String "," (join_members stringify l) end)
               ++ rest)) as (tl & Hq & Hp).
  rewrite Hq. cbn [parse_members]. rewrite (skip_ws_head dquote tl eq_refl).
  rewrite Ascii.eqb_refl, Hp.
  cbn [String.append]. rewrite (skip_ws_head ":" _ eq_refl).
  rewrite Ascii.eqb_refl, str_app_assoc.
  destruct l as [|y l'].
  - simpl. rewrite (Hx (String "}" rest)) by reflexivity. reflexivity.
  - change (String "," (join_members stringify (y :: l')) ++ rest)
      with (String "," (join_members stringify (y :: l') ++ rest)).
    rewrite (Hx (String "," (join_members stringify (y :: l') ++ rest))) by reflexivity.
    cbn [skip_ws is_ws orb Ascii.eqb Bool.eqb].
    rewrite (IH n Hl); [reflexivity | discriminate | simpl in *; lia].
Qed.

Lemma list_sum_bound (l : list nat) (x : nat) : In x l -> (x <= list_sum l)%nat.
Proof.
  induction l as [|y l IH]; simpl; [tauto |]. intros [-> | H]; [lia |].
  specialize (IH H). lia.
Qed.

Lemma list_sum_length (l : list nat) :
  (forall x, In x l -> (1 <= x)%nat) -> (length l <= list_sum l)%nat.
Proof.
  induction l as [|y l IH]; simpl; intros H; [lia |].
  pose proof (H y (or_introl eq_refl)). 
  assert (length l <= list_sum l)%nat by (apply IH; intros; apply H; now right). lia.
Qed.

Lemma json_size_pos (v : json) : (1 <= json_size v)%nat.
Proof. destruct v; simpl; lia. Qed.

Lemma parse_value_array (fuel : nat) (x : json) (items : list json) (rest : string) :
  parse_elems (parse_value fuel) fuel (join_elems stringify (x :: items) ++ rest)
  = Some (x :: items, rest) ->
  parse_value (S fuel) (String "[" (join_elems stringify (x :: items) ++ rest))
  = Some (JArr (x :: items), rest).
Proof.
  intros Hok. cbn [parse_value]. rewrite (skip_ws_head "[" _ eq_refl).
  change (Ascii.eqb "[" "n") with false. change (Ascii.eqb "[" "t") with false.
  change (Ascii.eqb "[" "f") with false. change (Ascii.eqb "[" dquote) with false.
  change (Ascii.eqb "[" "[") with true. cbv iota.
  rewrite Hok. destruct (stringify_head x) as (c & tl & Hs & Hc & _ & Hw).
  cbn [join_elems]. rewrite Hs. cbn [String.append].
  now rewrite (skip_ws_head c _ Hw), Hc.
Qed.

Lemma parse_value_object (fuel : nat) (k : string) (x : json)
    (fields : list (string * json)) (rest : string) :
  parse_members (parse_value fuel) fuel (join_members stringify ((k, x) :: fields) ++ rest)
  = Some ((k, x) :: fields, rest) ->
  parse_value (S fuel) (String "{" (join_members stringify ((k, x) :: fields) ++ rest))
  = Some (JObj ((k, x) :: fields), rest).
Proof.
  intros Hok. cbn [parse_value]. rewrite (skip_ws_head "{" _ eq_refl).
  change (Ascii.eqb "{" "n") with false. change (Ascii.eqb "{" "t") with false.
  change (Ascii.eqb "{" "f") with false. change (Ascii.eqb "{" dquote) with false.
  change (Ascii.eqb "{" "[") with false. change (Ascii.eqb "{" "{") with true. cbv iota.
  rewrite Hok. cbn [join_members fst snd]. unfold quote. cbn [String.append].
  rewrite (skip_ws_head dquote _ eq_refl).
  change (Ascii.eqb dquote "}") with false. reflexivity.
Qed.

Lemma parse_value_stringify (v : json) : roundtrips v.
Proof.
  induction v as [| b | z | d | s | items IH | fields IH] using json_ind;
    intros fuel rest Hfuel Hrest; (destruct fuel as [|fuel]; [pose proof (json_size_pos JNull); simpl in Hfuel; lia |]).
  - reflexivity.
  - destruct b; reflexivity.
  - apply parse_value_number; [apply print_Z_head | now apply parse_print_Z].
  - apply parse_value_number; [apply print_dec_head | now apply parse_print_dec].
  - destruct (parse_chars_quote s rest) as (tl & Hq & Hp).
    cbn [stringify]. rewrite Hq. simpl. now rewrite Hp.
  - cbn [stringify json_size] in *. destruct items as [|x items].
    + reflexivity.
    + change (String "[" (join_elems stringify (x :: items)) ++ rest)
        with (String "[" (join_elems stringify (x :: items) ++ rest)).
      apply parse_value_array.
      apply parse_elems_join; [| discriminate |].
      * rewrite List.Forall_forall in *. intros y Hy r Hr. apply (IH y Hy); [| exact Hr].
        pose proof (list_sum_bound (List.map json_size (x :: items)) (json_size y)
                      (in_map json_size _ _ Hy)). lia.
      * pose proof (list_sum_length (List.map json_size (x :: items))) as Hl.
        rewrite length_map in Hl.
        assert (length (x :: items) <= list_sum (List.map json_size (x :: items)))%nat.
        { apply Hl. intros n Hn. apply in_map_iff in Hn as (y & <- & _). apply json_size_pos. }
        lia.
  - cbn [stringify json_size] in *. destruct fields as [|[k x] fields].
    + reflexivity.
    + change (String "{" (join_members stringify ((k, x) :: fields)) ++ rest)
        with (String "{" (join_members stringify ((k, x) :: fields) ++ rest)).
      apply parse_value_object.
      apply parse_members_join; [| discriminate |].
      * rewrite List.Forall_forall in *. intros y Hy r Hr. apply (IH y Hy); [| exact Hr].
        pose proof (list_sum_bound (List.map (fun kx => json_size (snd kx)) ((k, x) :: fields))
                      (json_size (snd y))
                      (in_map (fun kx => json_size (snd kx)) _ _ Hy)). lia.
      * pose proof (list_sum_length
                      (List.map (fun kx => json_size (snd kx)) ((k, x) :: fields))) as Hl.
        rewrite length_map in Hl.
        assert (length ((k, x) :: fields)
                <= list_sum (List.map (fun kx => json_size (snd kx)) ((k, x) :: fields)))%nat.
        { apply Hl. intros n Hn. apply in_map_iff in Hn as (y & <- & _). apply json_size_pos. }
        lia.
Qed.

Lemma join_elems_length (l : list json) :
  Forall (fun x => (json_size x <= String.length (stringify x))%nat) l ->
  (list_sum (List.map json_size l) <= String.length (join_elems stringify l))%nat.
Proof.
  induction 1 as [|x l Hx Hl IH]; [simpl; lia |].
  cbn [join_elems List.map list_sum]. rewrite str_length_app.
  destruct l as [|y l']; [simpl; lia |].
  cbn [String.length]. unfold list_sum in *. cbn [List.map fold_right] in *. lia.
Qed.

Lemma join_members_length (l : list (string * json)) :
  Forall (fun kx => (json_size (snd kx) <= String.length (stringify (snd kx)))%nat) l ->
  (list_sum (List.map (fun kx => json_size (snd kx)) l)
   <= String.length (join_members stringify l))%nat.
Proof.
  induction 1 as [|[k x] l Hx Hl IH]; [simpl; lia |].
  cbn [join_members List.map list_sum fst snd] in *. rewrite str_length_app.
  cbn [String.length]. rewrite str_length_app.
  destruct l as [|y l']; [simpl; lia |].
  cbn [String.length]. unfold list_sum in *. cbn [List.map fold_right] in *. lia.
Qed.

Lemma stringify_length (v : json) : (json_size v <= String.length (stringify v))%nat.
Proof.
  induction v as [| b | z | d | s | items IH | fields IH] using json_ind.
  - simpl. lia.
  - destruct b; simpl; lia.
  - destruct (print_Z_head z) as (c & tl & Hs & _). simpl. rewrite Hs. simpl. lia.
  - destruct (print_dec_head d) as (c & tl & Hs & _). simpl. rewrite Hs. simpl. lia.
  - simpl. lia.
  - simpl. pose proof (join_elems_length items IH). lia.
  - simpl. pose proof (join_members_length fields IH). lia.
Qed.

(** [JSON.parse(JSON.stringify(v))] is [v]. *)
Lemma parse_stringify (v : json) : parse (stringify v) = Some v.
Proof.
  unfold parse.
  pose proof (parse_value_stringify v (S (String.length (stringify v))) "") as H.
  rewrite str_app_nil in H. rewrite H; [reflexivity | | exact I].
  pose proof (stringify_length v). lia.
Qed.

(** ** The durable store *)

Section StoreFacts.

Variable location_origin : string.

Lemma data_url_eqb (k k' : string) :
  String.eqb (data_url location_origin k) (data_url location_origin k') = same_record k k'.
Proof.
  unfold data_url, same_record.
  induction location_origin as [|c o IH]; [reflexivity |].
  cbn [String.append String.eqb]. now rewrite Ascii.eqb_refl.
Qed.

Lemma same_record_refl (k : string) : same_record k k = true.
Proof. apply String.eqb_refl. Qed.

Lemma getStoredData_eq (key : string) (w : World) :
  getStoredData location_origin key w
  = (Ret (decode (stored location_origin key w)),
     set_caches (CS.open DATA_CACHE (caches w)) w).
Proof.
  unfold getStoredData, try_catch, bind, caches_open, cache_match, stored, decode.
  simpl. rewrite CSFacts.lookup_open.
  destruct (CS.lookup DATA_CACHE (data_url location_origin key) (caches w)) as [r|];
    [| reflexivity].
  destruct (parse (body r)); reflexivity.
Qed.

Lemma storeData_eq (key : string) (value : json) (w : World) :
  storeData location_origin key value w
  = (Ret tt,
     log_event (EvCachePut DATA_CACHE (data_url location_origin key) (document_of value))
       (set_caches (CS.put DATA_CACHE (data_url location_origin key) (document_of value)
                      (CS.open DATA_CACHE (caches w))) w)).
Proof. reflexivity. Qed.

Lemma clearStoredData_eq (key : string) (w : World) :
  clearStoredData location_origin key w
  = (Ret tt,
     set_caches (CS.remove DATA_CACHE (data_url location_origin key)
                   (CS.open DATA_CACHE (caches w))) w).
Proof. reflexivity. Qed.

Lemma stored_storeData (key key' : string) (value : json) (w : World) :
  stored location_origin key' (snd (storeData location_origin key value w))
  = if same_record key key' then Some (document_of value)
    else stored location_origin key' w.
Proof.
  rewrite storeData_eq. unfold stored. simpl.
  rewrite CSFacts.lookup_put, CSFacts.has_open, String.eqb_refl, andb_true_r. simpl.
  rewrite CSFacts.lookup_open, data_url_eqb. reflexivity.
Qed.

Lemma stored_clearStoredData (key key' : string) (w : World) :
  stored location_origin key' (snd (clearStoredData location_origin key w))
  = if same_record key key' then None else stored location_origin key' w.
Proof.
  rewrite clearStoredData_eq. unfold stored. simpl.
  rewrite CSFacts.lookup_remove, String.eqb_refl. simpl.
  rewrite CSFacts.lookup_open, data_url_eqb. reflexivity.
Qed.

Lemma decode_document (value : json) : decode (Some (document_of value)) = value.
Proof. unfold decode, document_of. simpl. now rewrite parse_stringify. Qed.

Lemma run_ops_ret (ops : list StoreOp) (w : World) :
  fst (run_ops location_origin ops w) = Ret tt.
Proof.
  revert w. induction ops as [|op ops IH]; intros w; [reflexivity |].
  simpl. unfold bind. destruct op; simpl; apply IH.
Qed.

Lemma stored_run_ops (ops : list StoreOp) (key : string) (w : World) :
  stored location_origin key (snd (run_ops location_origin ops w))
  = match last_op key ops with
    | Some (OpStore _ value) => Some (document_of value)
    | Some (OpClear _) => None
    | None => stored location_origin key w
    end.
Proof.
  revert w. induction ops as [|op ops IH]; intros w; [reflexivity |].
  cbn [run_ops last_op]. unfold bind.
  destruct (run_op location_origin op w) as [[[]|] w1] eqn:Hop.
  - rewrite IH. destruct (last_op key ops) as [op'|]; [reflexivity |].
    replace w1 with (snd (run_op location_origin op w)) by now rewrite Hop.
    destruct op as [k v | k]; cbn [run_op op_key].
    + rewrite stored_storeData. now destruct (same_record k key).
    + rewrite stored_clearStoredData. now destruct (same_record k key).
  - destruct op; discriminate Hop.
Qed.

End StoreFacts.

(** C10: [storeData] then [getStoredData] on the same key gives the value
    back, through [JSON.stringify] and [JSON.parse], for every key and every
    value.  More generally, after any sequence of [storeData] and
    [clearStoredData] calls, [getStoredData] on a key returns the value of the
    last [storeData] on the record of that key, [null] when that record was
    last passed to [clearStoredData], and what it returned before the sequence
    when no call touched the record; it returns [null] for a key under whose
    request URL the store holds nothing.  The record of a key is its request
    URL: a call on another key with the same request URL is a call on the
    same record. *)
Theorem C10_store_roundtrip :
  (forall (location_origin key : string) (value : json) (w : World),
      fst (getStoredData location_origin key
             (snd (storeData location_origin key value w))) = Ret value) /\
  (forall (location_origin key : string) (ops : list StoreOp) (w : World),
      fst (getStoredData location_origin key (snd (run_ops location_origin ops w)))
      = match last_op key ops with
        | Some (OpStore _ value) => Ret value
        | Some (OpClear _) => Ret JNull
        | None => fst (getStoredData location_origin key w)
        end) /\
  (forall (location_origin key : string) (w : World),
      stored location_origin key w = None ->
      fst (getStoredData location_origin key w) = Ret JNull).
Proof.
  split; [| split].
  - intros o key value w. rewrite getStoredData_eq, stored_storeData, same_record_refl.
    cbn [fst]. now rewrite decode_document.
  - intros o key ops w. rewrite !getStoredData_eq, stored_run_ops. cbn [fst].
    destruct (last_op key ops) as [[k v | k]|]; [| reflexivity ..].
    now rewrite decode_document.
  - intros o key w H. rewrite getStoredData_eq, H. reflexivity.
Qed.

(** ** Strategies *)

Lemma onFetch_route (location_origin : string) (net : Network) (request : Request) :
  onFetch location_origin net request
  = option_map (fun s => execute net s request) (route location_origin request).
Proof.
  unfold onFetch, route, handleSameOriginRequest.
  repeat match goal with |- context [if ?b then _ else _] => destruct b end; reflexivity.
Qed.

Ltac run_handler :=
  unfold execute, handleCacheFirst, handleNetworkFirst, handleStaleWhileRevalidate,
    handleFontRequest, handleExternalRequest, try_catch, bind, caches_match, fetch,
    tick, when, ret, throw, caches_open, cache_put;
  cbn [fst snd caches ticks trace clients set_caches log_event].

Ltac cached_nothing_with evs :=
  left; exists evs; split; [reflexivity |];
  split; [cbn [trace]; rewrite ?app_nil_r; reflexivity |];
  intros ? ? ? Hin; cbn [In] in Hin;
  repeat match type of Hin with
         | _ \/ _ => destruct Hin as [Hin | Hin]
         end; solve [discriminate Hin | exact Hin].

Ltac cached_response_with r Hnet E :=
  right; left; exists r; eexists; split; [exact Hnet |]; split; [exact E |];
  split; [reflexivity
         | unfold log_event, set_caches, tick; cbn [trace snd]; now rewrite <- app_assoc].

Ltac opened_tier_with r Hnet E :=
  right; right; exists r; split; [exact Hnet |]; split; [exact E |];
  split; reflexivity.

Lemma execute_cases (net : Network) (s : Strategy) (request : Request) (w : World) :
  (exists evs, cached_nothing w (snd (execute net s request w)) evs) \/
  cached_response net request w (snd (execute net s request w)) \/
  opened_tier net request w (snd (execute net s request w)).
Proof.
  destruct s; run_handler.
  - (* cache-first *)
    destruct (CS.match_any (href (url request)) (caches w)) as [c|];
      [cached_nothing_with (@nil Event) |].
    destruct (net (ticks w) (get_call request)) as [|r] eqn:Hnet.
    + destruct (String.eqb (destination request) "document");
        cached_nothing_with [EvFetch (get_call request)].
    + destruct (Z.eqb_spec (status r) 200) as [E | E];
        [cached_response_with r Hnet E | cached_nothing_with [EvFetch (get_call request)]].
  - (* network-first *)
    destruct (net (ticks w) (get_call request)) as [|r] eqn:Hnet.
    + cbn [caches]. destruct (CS.match_any (href (url request)) (caches w));
        cached_nothing_with [EvFetch (get_call request)].
    + destruct (Z.eqb_spec (status r) 200) as [E | E];
        [cached_response_with r Hnet E | cached_nothing_with [EvFetch (get_call request)]].
  - (* stale-while-revalidate *)
    destruct (net (ticks w) (get_call request)) as [|r] eqn:Hnet.
    + cached_nothing_with [EvFetch (get_call request)].
    + destruct (Z.eqb_spec (status r) 200) as [E | E];
        [| cached_nothing_with [EvFetch (get_call request)]].
      destruct (CS.match_any (href (url request)) (caches w));
        [cached_response_with r Hnet E | opened_tier_with r Hnet E].
  - (* fonts *)
    destruct (CS.match_any (href (url request)) (caches w)) as [c|] eqn:Hm;
      [cached_nothing_with (@nil Event) |].
    destruct (net (ticks w) (get_call request)) as [|r] eqn:Hnet.
    + cbn [caches]. rewrite Hm. cached_nothing_with [EvFetch (get_call request)].
    + destruct (Z.eqb_spec (status r) 200) as [E | E];
        [cached_response_with r Hnet E | cached_nothing_with [EvFetch (get_call request)]].
  - (* external *)
    destruct (net (ticks w) (get_call request)) as [|r] eqn:Hnet.
    + cbn [caches]. destruct (CS.match_any (href (url request)) (caches w));
        cached_nothing_with [EvFetch (get_call request)].
    + destruct (Z.eqb_spec (status r) 200) as [E | E]; cbn [andb];
        [| cached_nothing_with [EvFetch (get_call request)]].
      destruct (shouldCacheExternal (href (url request)));
        [cached_response_with r Hnet E | cached_nothing_with [EvFetch (get_call request)]].
Qed.

(** C5: in every strategy execution (cache-first, network-first,
    stale-while-revalidate, font, external) an entry of a cache after the
    execution was there before or is the response of the network with status
    exactly 200; the same holds of every [cache.put] performed; and when the
    network gives no response of status 200 (another status, or no response
    at all) the caches are left as they were. *)
Theorem C5_only_status_200_is_cached
    (net : Network) (s : Strategy) (request : Request) (w : World) :
  let w' := snd (execute net s request w) in
  (forall cache key r,
      CS.lookup cache key (caches w') = Some r ->
      CS.lookup cache key (caches w) = Some r \/
      (status r = 200 /\ net (ticks w) (get_call request) = Responded r)) /\
  (forall cache key r,
      In (EvCachePut cache key r) (trace w') ->
      In (EvCachePut cache key r) (trace w) \/
      (status r = 200 /\ net (ticks w) (get_call request) = Responded r)) /\
  ((forall r, net (ticks w) (get_call request) = Responded r -> status r <> 200) ->
   caches w' = caches w).
Proof.
  intros w'. subst w'.
  destruct (execute_cases net s request w)
    as [(evs & Hc & Ht & Hno) | [(r0 & tier & Hnet & E & Hc & Ht) | (r0 & Hnet & E & Hc & Ht)]].
  - split; [| split].
    + intros cache key r. rewrite Hc. now left.
    + intros cache key r. rewrite Ht. intros Hin. apply in_app_or in Hin as [Hin | Hin].
      * now left.
      * now apply Hno in Hin.
    + intros _. exact Hc.
  - split; [| split].
    + intros cache key r. rewrite Hc, CSFacts.lookup_put, CSFacts.lookup_open.
      destruct (String.eqb tier cache && String.eqb (href (url request)) key
                && CS.has tier (CS.open tier (caches w))).
      * intros [= <-]. right. split; assumption.
      * now left.
    + intros cache key r. rewrite Ht. intros Hin. apply in_app_or in Hin as [Hin | Hin].
      * now left.
      * destruct Hin as [Hin | [Hin | []]]; [discriminate Hin |].
        injection Hin as _ _ <-. right. split; assumption.
    + intros Hnot. exfalso. exact (Hnot r0 Hnet E).
  - split; [| split].
    + intros cache key r. rewrite Hc, CSFacts.lookup_open. now left.
    + intros cache key r. rewrite Ht. intros Hin. apply in_app_or in Hin as [Hin | Hin].
      * now left.
      * destruct Hin as [Hin | []]. discriminate Hin.
    + intros Hnot. exfalso. exact (Hnot r0 Hnet E).
Qed.

Lemma match_any_lookup (tier key : string) (r0 : Response) cs :
  CS.lookup tier key cs = Some r0 -> exists r, CS.match_any key cs = Some r.
Proof.
  unfold CS.lookup. induction cs as [|[n c] cs IH]; simpl; [discriminate |].
  destruct (c !! key) as [r|] eqn:Hc; [eauto |].
  destruct (String.eqb n tier); [| exact IH].
  rewrite Hc. discriminate.
Qed.

Lemma handleCacheFirst_hit (net : Network) (request : Request) (w : World) (r : Response) :
  CS.match_any (href (url request)) (caches w) = Some r ->
  handleCacheFirst net request w = (Ret (Some r), w).
Proof.
  intros Hm. unfold handleCacheFirst, try_catch, bind, caches_match. now rewrite Hm.
Qed.

Lemma serve_fixed {A} (h : M A) (w : World) (a : A) (n : nat) :
  h w = (Ret a, w) -> serve n h w = (repeat (Ret a) n, w).
Proof.
  intros H. induction n as [|n IH]; [reflexivity |].
  cbn [serve]. now rewrite H, IH.
Qed.

(** C9: when the [fetch] listener answers a request with the cache-first
    strategy (a same-origin static asset) and some cache holds a response under
    the URL of the request, every repetition of the request is answered with
    the stored response that [caches.match] finds, and the world is left as it
    was: no network call is made (the clock and the trace do not move) and the
    entry stays, so the next repetition is served the same way. *)
Theorem C9_cache_first_hit_no_network
    (location_origin : string) (net : Network) (request : Request)
    (w : World) (tier : string) (r0 : Response) (n : nat) :
  route location_origin request = Some CacheFirst ->
  CS.lookup tier (href (url request)) (caches w) = Some r0 ->
  exists h r,
    onFetch location_origin net request = Some h /\
    CS.match_any (href (url request)) (caches w) = Some r /\
    serve n h w = (repeat (Ret (Some r)) n, w).
Proof.
  intros Hroute Hstored.
  destruct (match_any_lookup _ _ _ _ Hstored) as [r Hm].
  exists (handleCacheFirst net request), r. split; [| split].
  - rewrite onFetch_route, Hroute. reflexivity.
  - exact Hm.
  - apply serve_fixed. now apply handleCacheFirst_hit.
Qed.

(** The entry a cache-first miss stores is the one the next request hits. *)
Lemma handleCacheFirst_miss_then_hit
    (net : Network) (request : Request) (w : World) (r : Response) :
  CS.match_any (href (url request)) (caches w) = None ->
  net (ticks w) (get_call request) = Responded r ->
  status r = 200 ->
  CS.lookup RUNTIME_CACHE (href (url request))
    (caches (snd (handleCacheFirst net request w))) = Some r.
Proof.
  intros Hm Hnet E.
  unfold handleCacheFirst, try_catch, bind, caches_match, fetch, when, caches_open, cache_put.
  rewrite Hm, Hnet. cbn [status fst snd]. rewrite E. simpl.
  rewrite CSFacts.lookup_put, CSFacts.has_open, !String.eqb_refl. reflexivity.
Qed.

(** A request answered with stale-while-revalidate that misses the cache
    while the network is unreachable resolves with [undefined]. *)
Lemma handleStaleWhileRevalidate_offline_miss
    (net : Network) (request : Request) (w : World) :
  CS.match_any (href (url request)) (caches w) = None ->
  net (ticks w) (get_call request) = NetworkError ->
  fst (handleStaleWhileRevalidate net request w) = Ret None.
Proof.
  intros Hm Hnet.
  unfold handleStaleWhileRevalidate, try_catch, bind, caches_match, fetch.
  now rewrite Hm, Hnet.
Qed.

Lemma document_offline_miss
    (location_origin : string) (net : Network) (request : Request) (w : World) :
  route location_origin request = Some StaleWhileRevalidate ->
  CS.match_any (href (url request)) (caches w) = None ->
  net (ticks w) (get_call request) = NetworkError ->
  exists h, onFetch location_origin net request = Some h /\ fst (h w) = Ret None.
Proof.
  intros Hroute Hm Hnet. exists (handleStaleWhileRevalidate net request). split.
  - rewrite onFetch_route, Hroute. reflexivity.
  - now apply handleStaleWhileRevalidate_offline_miss.
Qed.

(** C2, on the code: the page [/exercises.html], requested as a document
    while the network is unreachable and the caches are empty, is answered by
    the stale-while-revalidate handler, which resolves with [undefined]; the
    offline page is not returned. *)
Theorem C2_document_offline_miss_is_undefined :
  route Sample.site Sample.exercisesPage = Some StaleWhileRevalidate /\
  CS.match_any (href (url Sample.exercisesPage)) (caches Sample.fresh) = None /\
  option_map (fun h => fst (h Sample.fresh))
    (onFetch Sample.site Sample.offline Sample.exercisesPage) = Some (Ret None).
Proof. repeat split. Qed.

(** C7, as amended: the [fetch] listener leaves a request alone exactly when
    its method is not GET or its scheme is [chrome-extension:]; every other
    request is answered by one of the strategies. *)
Theorem C7_bypass_iff_not_get_or_chrome_extension
    (location_origin : string) (net : Network) (request : Request) :
  onFetch location_origin net request = None <->
  (method request <> "GET" \/ protocol (url request) = "chrome-extension:").
Proof.
  unfold onFetch.
  destruct (String.eqb_spec (method request) "GET") as [Hm | Hm];
    destruct (String.eqb_spec (protocol (url request)) "chrome-extension:") as [Hp | Hp];
    cbn [negb orb].
  - split; auto.
  - split; [| intros [H | H]; contradiction].
    repeat match goal with |- context [if ?b then _ else _] => destruct b end; discriminate.
  - split; auto.
  - split; auto.
Qed.

(** C7, as stated, fails: a GET request whose scheme is neither [http:] nor
    [https:] is intercepted and answered by the worker itself. *)
Lemma C7_counterexample_other_scheme_intercepted :
  method Sample.extensionScript = "GET" /\
  protocol (url Sample.extensionScript) <> "http:" /\
  protocol (url Sample.extensionScript) <> "https:" /\
  option_map (fun h => fst (h Sample.fresh))
    (onFetch Sample.site Sample.offline Sample.extensionScript)
  = Some (Ret (Some notFoundResponse)).
Proof. repeat split; discriminate. Qed.

(** ** Replay of the offline queue *)

Lemma posts_app (tr1 tr2 : list Event) : posts (tr1 ++ tr2) = (posts tr1 ++ posts tr2)%list.
Proof.
  induction tr1 as [|e tr1 IH]; [reflexivity |].
  destruct e; cbn; now rewrite ?IH.
Qed.

Lemma fetch_eq (net : Network) (c : Call) (w : World) :
  fetch net c w
  = (match net (ticks w) c with
     | NetworkError => Throw
     | Responded r => Ret r
     end, tick c w).
Proof. unfold fetch, tick. now destruct (net (ticks w) c). Qed.

Lemma bind_eq {A B} (m : M A) (k : A -> M B) (w : World) :
  bind m k w
  = match fst (m w) with
    | Ret a => k a (snd (m w))
    | Throw => (Throw, snd (m w))
    end.
Proof. unfold bind. now destruct (m w) as [[a|] w']. Qed.

Section ReplayFacts.

Variable location_origin : string.
Variable net : Network.

(** The loop of a replay: it leaves the caches alone, and it ends normally
    exactly when the network answers every call. *)
Lemma replay_loop (endpoint : string) (items : list json) (w : World) :
  let out := forEach items
               (fun data => exec fetch net (post_to endpoint data); ret tt) w in
  caches (snd out) = caches w /\ clients (snd out) = clients w /\
  posts (trace (snd out)) = posts (trace w) /\
  fst out = if all_answered net (ticks w) (List.map (post_to endpoint) items)
            then Ret tt else Throw.
Proof.
  cbv zeta. revert w. induction items as [|data items IH]; intros w.
  - cbn. repeat split.
  - cbn [forEach List.map all_answered]. rewrite bind_eq, bind_eq, fetch_eq.
    cbn [fst snd].
    assert (Hposts : posts (trace (tick (post_to endpoint data) w)) = posts (trace w)).
    { unfold tick. cbn [trace]. rewrite posts_app. cbn. apply app_nil_r. }
    destruct (net (ticks w) (post_to endpoint data)) as [|r].
    + cbn [fst snd]. repeat split. exact Hposts.
    + cbn [fst snd ret].
      destruct (IH (tick (post_to endpoint data) w)) as (Hc & Hcl & Hp & Hr).
      rewrite Hc, Hcl, Hp, Hr, Hposts. repeat split.
Qed.

End ReplayFacts.

Lemma broadcast_eq (m : Message) (cl : list Client) (w : World) :
  forEach cl (fun client => postMessage client m) w
  = (Ret tt,
     mkWorld (caches w) (clients w) (ticks w)
       (trace w ++ List.map (fun c => EvPostMessage (client_id c) m) cl)).
Proof.
  revert w. induction cl as [|c cl IH]; intros w.
  - cbn. rewrite app_nil_r. now destruct w.
  - cbn [forEach List.map]. rewrite bind_eq. unfold postMessage, emit. cbn [fst snd].
    rewrite IH. unfold log_event. cbn [caches clients ticks trace].
    now rewrite <- app_assoc.
Qed.

Lemma posts_broadcast (m : Message) (cl : list Client) :
  posts (List.map (fun c => EvPostMessage (client_id c) m) cl)
  = List.map (fun c => (client_id c, m)) cl.
Proof. induction cl as [|c cl IH]; [reflexivity |]. cbn. now rewrite IH. Qed.

Lemma try_catch_ret_snd {A} (m : M A) (a : A) (w : World) :
  snd (try_catch m (ret a) w) = snd (m w).
Proof. unfold try_catch, ret. now destruct (m w) as [[x|] w']. Qed.

Section SyncFacts.

Variable location_origin : string.
Variable net : Network.

Lemma stored_opened (key : string) (w : World) :
  stored location_origin key (set_caches (CS.open DATA_CACHE (caches w)) w)
  = stored location_origin key w.
Proof. unfold stored. cbn [caches set_caches]. apply CSFacts.lookup_open. Qed.

Lemma stored_same_caches (key : string) (w1 w2 : World) :
  caches w1 = caches w2 -> stored location_origin key w1 = stored location_origin key w2.
Proof. unfold stored. now intros ->. Qed.

Lemma syncExerciseData_outcome (w : World) :
  replay_outcome location_origin net ExerciseData w (snd (syncExerciseData location_origin net w)) true.
Proof.
  unfold replay_outcome, syncExerciseData. cbv zeta.
  rewrite try_catch_ret_snd, bind_eq, getStoredData_eq. cbn [fst snd replay_plan topic_key].
  set (w1 := set_caches (CS.open DATA_CACHE (caches w)) w).
  destruct (pending (decode (stored location_origin "pending-exercise-data" w)))
    as [|items].
  - cbn [fst snd ret]. split; [intros key; apply stored_opened | reflexivity].
  - rewrite bind_eq.
    destruct (replay_loop net "/api/exercises/progress" items w1) as (Hc & Hcl & Hp & Hr).
    unfold post_to in *. rewrite Hr. change (ticks w1) with (ticks w).
    destruct (all_answered net (ticks w) _).
    + rewrite bind_eq, clearStoredData_eq. cbn [fst snd].
      rewrite bind_eq. unfold clients_matchAll. cbn [fst snd]. rewrite broadcast_eq.
      cbn [fst snd caches clients ticks trace set_caches]. split.
      * intros key.
        match goal with |- stored _ _ ?w2 = _ =>
          transitivity (stored location_origin key
                          (snd (clearStoredData location_origin "pending-exercise-data"
                                  (snd (forEach items
                                          (fun data =>
                                             exec fetch net
                                                    (mkCall "/api/exercises/progress" "POST"
                                                       (Some (stringify data)));
                                             ret tt) w1)))))
        end.
        { apply stored_same_caches. reflexivity. }
        rewrite stored_clearStoredData.
        destruct (same_record "pending-exercise-data" key); [reflexivity |].
        rewrite (stored_same_caches key _ w1 Hc). apply stored_opened.
      * rewrite posts_app, posts_broadcast, Hp, Hcl. reflexivity.
    + cbn [fst snd ret]. split; [| exact Hp].
      intros key. rewrite (stored_same_caches key _ w1 Hc). apply stored_opened.
Qed.

Lemma syncEyeHealthData_outcome (w : World) :
  replay_outcome location_origin net EyeHealth w (snd (syncEyeHealthData location_origin net w)) false.
Proof.
  unfold replay_outcome, syncEyeHealthData. cbv zeta.
  rewrite try_catch_ret_snd, bind_eq, getStoredData_eq. cbn [fst snd replay_plan topic_key].
  set (w1 := set_caches (CS.open DATA_CACHE (caches w)) w).
  destruct (pending (decode (stored location_origin "pending-health-data" w)))
    as [|items].
  - cbn [fst snd ret]. split; [intros key; apply stored_opened | reflexivity].
  - rewrite bind_eq.
    destruct (replay_loop net "/api/eye-health" items w1) as (Hc & Hcl & Hp & Hr).
    unfold post_to in *. rewrite Hr. change (ticks w1) with (ticks w).
    destruct (all_answered net (ticks w) _).
    + cbv iota beta. split.
      * intros key. rewrite stored_clearStoredData.
        destruct (same_record "pending-health-data" key); [reflexivity |].
        rewrite (stored_same_caches key _ w1 Hc). apply stored_opened.
      * rewrite clearStoredData_eq. cbn [snd trace set_caches]. rewrite Hp.
        now rewrite app_nil_r.
    + cbn [fst snd ret]. split; [| exact Hp].
      intros key. rewrite (stored_same_caches key _ w1 Hc). apply stored_opened.
Qed.

Lemma syncUserSettings_outcome (w : World) :
  replay_outcome location_origin net UserSettings w (snd (syncUserSettings location_origin net w)) false.
Proof.
  unfold replay_outcome, syncUserSettings. cbv zeta.
  rewrite try_catch_ret_snd, bind_eq, getStoredData_eq. cbn [fst snd replay_plan topic_key].
  set (w1 := set_caches (CS.open DATA_CACHE (caches w)) w).
  set (record := decode (stored location_origin "pending-settings" w)).
  destruct (truthy record).
  - rewrite bind_eq, fetch_eq. cbn [fst snd all_answered].
    change (ticks w1) with (ticks w).
    set (c := mkCall "/api/settings" "PUT" (Some (stringify record))).
    assert (Hposts : posts (trace (tick c w1)) = posts (trace w)).
    { unfold tick. cbn [trace]. rewrite posts_app. cbn. apply app_nil_r. }
    destruct (net (ticks w) c) as [|r].
    + cbn [fst snd ret]. split; [| exact Hposts].
      intros key. rewrite (stored_same_caches key (tick c w1) w1 eq_refl). apply stored_opened.
    + cbv iota beta. split.
      * intros key. rewrite stored_clearStoredData.
        destruct (same_record "pending-settings" key); [reflexivity |].
        rewrite (stored_same_caches key (tick c w1) w1 eq_refl). apply stored_opened.
      * rewrite clearStoredData_eq. cbn [snd trace set_caches]. rewrite Hposts.
        now rewrite app_nil_r.
  - cbn [fst snd ret]. split; [intros key; apply stored_opened | reflexivity].
Qed.

End SyncFacts.

(** C1, as amended: a replay clears the durable record of its topic exactly
    when its guard finds something to send and the network answers every call,
    with a response of whatever status; in every other case, in particular
    when a call throws, the record of the topic, like the record of every other
    key, is what it was before the replay. *)
Theorem C1_record_cleared_iff_every_call_answered
    (location_origin : string) (net : Network) (t : Topic) (w : World) (key : string) :
  stored location_origin key (snd (onSync location_origin net (topic_tag t) w))
  = match replay_plan t (decode (stored location_origin (topic_key t) w)) with
    | Some calls =>
        if all_answered net (ticks w) calls && same_record (topic_key t) key
        then None
        else stored location_origin key w
    | None => stored location_origin key w
    end.
Proof.
  assert (H : exists b, replay_outcome location_origin net t w
                          (snd (onSync location_origin net (topic_tag t) w)) b).
  { destruct t; eexists; cbn [onSync topic_tag String.eqb Ascii.eqb Bool.eqb];
      [apply syncExerciseData_outcome | apply syncEyeHealthData_outcome
       | apply syncUserSettings_outcome]. }
  destruct H as [b H]. unfold replay_outcome in H. cbv zeta in H.
  destruct (replay_plan t (decode (stored location_origin (topic_key t) w))) as [calls|].
  - destruct (all_answered net (ticks w) calls); destruct H as [H _]; apply H.
  - destruct H as [H _]. apply H.
Qed.

(** C1, as stated, fails: the server answers every call of the replay with
    status 500, and the record of the topic is cleared all the same. *)
Lemma C1_counterexample_cleared_on_status_500 :
  let w := Queue.exercise in
  let w' := snd (onSync Sample.site Sample.failing "sync-exercise-data" w) in
  decode (stored Sample.site "pending-exercise-data" w)
    = JArr [Queue.sample 12; Queue.sample 15] /\
  option_map (all_2xx Sample.failing (ticks w))
    (replay_plan ExerciseData (decode (stored Sample.site "pending-exercise-data" w)))
    = Some false /\
  stored Sample.site "pending-exercise-data" w' = None.
Proof. vm_compute. repeat split. Qed.

(** The replay of the exercise topic tells every client when it has cleared
    the record. *)
Lemma exercise_replay_notifies
    (location_origin : string) (net : Network) (w : World) (calls : list Call) :
  replay_plan ExerciseData (decode (stored location_origin "pending-exercise-data" w))
    = Some calls ->
  all_answered net (ticks w) calls = true ->
  posts (trace (snd (onSync location_origin net "sync-exercise-data" w)))
  = (posts (trace w) ++ List.map (fun c => (client_id c, exerciseSynced)) (clients w))%list.
Proof.
  intros Hplan Hok.
  pose proof (syncExerciseData_outcome location_origin net w) as H.
  unfold replay_outcome in H. cbv zeta in H. cbn [topic_key] in H.
  rewrite Hplan, Hok in H. apply H.
Qed.

(** The replays of the two other topics never post a message. *)
Lemma other_replays_never_notify
    (location_origin : string) (net : Network) (t : Topic) (w : World) :
  t <> ExerciseData ->
  posts (trace (snd (onSync location_origin net (topic_tag t) w))) = posts (trace w).
Proof.
  intros Ht.
  assert (H : replay_outcome location_origin net t w
                (snd (onSync location_origin net (topic_tag t) w)) false).
  { destruct t; [congruence | apply syncEyeHealthData_outcome | apply syncUserSettings_outcome]. }
  unfold replay_outcome in H. cbv zeta in H.
  destruct (replay_plan t _) as [calls|]; [| apply H].
  destruct (all_answered net (ticks w) calls); destruct H as [_ H]; rewrite H;
    [apply app_nil_r | reflexivity].
Qed.

(** C8, on the code: two health samples are queued and two clients are open;
    the server accepts both calls with status 200 and the record is cleared,
    but no message is posted to any client. *)
Theorem C8_eye_health_replay_posts_nothing :
  let w := Queue.health in
  let w' := snd (onSync Sample.site Sample.online "sync-eye-health" w) in
  List.map client_id (clients w) = [1%nat; 2%nat] /\
  option_map (all_2xx Sample.online (ticks w))
    (replay_plan EyeHealth (decode (stored Sample.site "pending-health-data" w)))
    = Some true /\
  stored Sample.site "pending-health-data" w' = None /\
  posts (trace w') = [].
Proof. vm_compute. repeat split. Qed.

(** ** Install *)

Lemma skips_app (tr1 tr2 : list Event) : skips (tr1 ++ tr2) = (skips tr1 + skips tr2)%nat.
Proof.
  induction tr1 as [|e tr1 IH]; [reflexivity |].
  destruct e; cbn; now rewrite ?IH.
Qed.

Lemma promise_all_nil (w : World) : promise_all [] w = (Ret tt, w).
Proof. reflexivity. Qed.

Lemma promise_all_cons (m : M unit) (ms : list (M unit)) (w : World) :
  promise_all (m :: ms) w
  = (if fulfilled (fst (m w)) && fulfilled (fst (promise_all ms (snd (m w))))
     then Ret tt else Throw,
     snd (promise_all ms (snd (m w)))).
Proof.
  unfold promise_all. cbn [settle_each]. unfold bind, settle, ret.
  destruct (m w) as [r w1]. cbn [fst snd].
  destruct (settle_each ms w1) as [[rs|] w2]; cbn [fst snd forallb].
  - destruct (fulfilled r), (forallb fulfilled rs); reflexivity.
  - now rewrite andb_false_r.
Qed.

Section InstallFacts.

Variable location_origin : string.
Variable net : Network.

(** The fetches of [cache.addAll] touch no cache. *)
Lemma fetch_each_eq (urls : list string) (w : World) :
  exists results evs,
    fetch_each location_origin net urls w
    = (Ret results,
       mkWorld (caches w) (clients w) (ticks w + length urls) (trace w ++ evs)) /\
    skips evs = 0%nat /\
    (if seeds_ok location_origin net (ticks w) urls
     then exists entries, acceptable_all results = Some entries
     else acceptable_all results = None).
Proof.
  revert w. induction urls as [|u urls IH]; intros w.
  - exists [], []. cbn. rewrite Nat.add_0_r, app_nil_r. destruct w. repeat split. now exists [].
  - cbn [fetch_each seeds_ok].
    set (c := mkCall (resolve location_origin u) "GET" None).
    destruct (IH (tick c w)) as (results & evs & Heq & Hskip & Hok).
    rewrite bind_eq. change (fetch_settled net c w) with (Ret (net (ticks w) c), tick c w).
    cbn [fst snd]. rewrite bind_eq, Heq. cbn [fst snd ret].
    exists ((resolve location_origin u, net (ticks w) c) :: results), (EvFetch c :: evs).
    split; [| split].
    + unfold tick. cbn [caches clients ticks trace length]. f_equal. f_equal; [lia |].
      now rewrite <- app_assoc.
    + exact Hskip.
    + cbn [acceptable_all]. change (ticks (tick c w)) with (S (ticks w)) in Hok.
      destruct (net (ticks w) c) as [|r]; [reflexivity |].
      destruct (acceptable r); cbn [andb]; [| reflexivity].
      destruct (seeds_ok location_origin net (S (ticks w)) urls).
      * destruct Hok as [entries ->]. eauto.
      * now rewrite Hok.
Qed.

Lemma has_put (name cache key : string) (r : Response) cs :
  CS.has name (CS.put cache key r cs) = CS.has name cs.
Proof.
  unfold CS.has, CS.put. induction cs as [|[n c] cs IH]; [reflexivity |].
  cbn [CS.update]. destruct (String.eqb n cache); cbn [existsb fst]; [reflexivity |].
  now rewrite IH.
Qed.

Lemma acceptable_all_keys (results : list (string * FetchResult))
    (entries : list (string * Response)) :
  acceptable_all results = Some entries ->
  List.map fst entries = List.map fst results.
Proof.
  revert entries. induction results as [|[u [|r]] results IH]; intros entries; cbn.
  - now intros [= <-].
  - discriminate.
  - destruct (acceptable r); [| discriminate].
    destruct (acceptable_all results) as [es|]; [| discriminate].
    intros [= <-]. cbn. now rewrite (IH es).
Qed.

Lemma store_entries_present (cache : string) (entries : list (string * Response)) (w : World) :
  CS.has cache (caches w) = true ->
  forall key,
    (exists r, CS.lookup cache key (caches w) = Some r) \/ In key (List.map fst entries) ->
    exists r,
      CS.lookup cache key
        (caches (snd (forEach entries (fun kr => cache_put cache (fst kr) (snd kr)) w)))
      = Some r.
Proof.
  revert w. induction entries as [|[k r] entries IH]; intros w Hhas key Hkey.
  - cbn in *. destruct Hkey as [H | []]. exact H.
  - cbn [forEach]. rewrite bind_eq. cbn [fst snd].
    set (w1 := log_event (EvCachePut cache k r)
                 (set_caches (CS.put cache k r (caches w)) w)).
    change (cache_put cache k r w) with (@Ret unit tt, w1). cbn [fst snd].
    apply IH.
    + subst w1. unfold log_event, set_caches. cbn [caches]. now rewrite has_put.
    + subst w1. unfold log_event, set_caches. cbn [caches].
      rewrite CSFacts.lookup_put, String.eqb_refl, Hhas. cbn [andb].
      destruct (String.eqb_spec k key) as [-> | Hne]; [left; eauto |].
      cbn [andb]. destruct Hkey as [H | [H | H]]; [now left | contradiction | now right].
Qed.

Lemma fetch_each_keys (urls : list string) (w : World) :
  exists results w',
    fetch_each location_origin net urls w = (Ret results, w') /\
    List.map fst results = List.map (resolve location_origin) urls.
Proof.
  revert w. induction urls as [|u urls IH]; intros w.
  - exists [], w. split; reflexivity.
  - cbn [fetch_each].
    set (c := mkCall (resolve location_origin u) "GET" None).
    destruct (IH (tick c w)) as (results & w' & Heq & Hk).
    rewrite bind_eq. change (fetch_settled net c w) with (Ret (net (ticks w) c), tick c w).
    cbn [fst snd]. rewrite bind_eq, Heq. cbn [fst snd ret].
    eexists _, _. split; [reflexivity |]. cbn. now rewrite Hk.
Qed.

Lemma store_entries_frame (cache name : string) (entries : list (string * Response)) (w : World) :
  let out := forEach entries (fun kr => cache_put cache (fst kr) (snd kr)) w in
  fst out = Ret tt /\ ticks (snd out) = ticks w /\ clients (snd out) = clients w /\
  skips (trace (snd out)) = skips (trace w) /\
  (name <> cache -> same_tier name (snd out) w).
Proof.
  cbv zeta. revert w. induction entries as [|[k r] entries IH]; intros w.
  - cbn. repeat split.
  - cbn [forEach]. rewrite bind_eq. cbn [fst snd].
    set (w1 := log_event (EvCachePut cache k r)
                 (set_caches (CS.put cache k r (caches w)) w)).
    change (cache_put cache k r w) with (@Ret unit tt, w1). cbn [fst snd].
    destruct (IH w1) as (Hr & Ht & Hc & Hs & Hf).
    rewrite Hr, Ht, Hc, Hs. repeat split.
    + subst w1. unfold log_event, set_caches. cbn [trace]. rewrite skips_app. cbn. lia.
    + intros Hne key. rewrite (Hf Hne key). subst w1. unfold log_event, set_caches.
      cbn [caches]. rewrite CSFacts.lookup_put.
      destruct (String.eqb_spec cache name) as [E | _]; [congruence | reflexivity].
Qed.

(** One tier of the install: [caches.open(tier)] then [cache.addAll(urls)]. *)
Lemma addAll_tier (tier name : string) (urls : list string) (w : World) :
  let out := (do cache <- caches_open tier;
              cache_addAll location_origin net cache urls) w in
  fulfilled (fst out) = seeds_ok location_origin net (ticks w) urls /\
  ticks (snd out) = (ticks w + length urls)%nat /\
  clients (snd out) = clients w /\
  skips (trace (snd out)) = skips (trace w) /\
  (name <> tier \/ seeds_ok location_origin net (ticks w) urls = false ->
   same_tier name (snd out) w) /\
  (seeds_ok location_origin net (ticks w) urls = true ->
   forall u, In u urls ->
     exists r, CS.lookup tier (resolve location_origin u) (caches (snd out)) = Some r).
Proof.
  cbv zeta. set (w1 := set_caches (CS.open tier (caches w)) w).
  rewrite bind_eq. change (caches_open tier w) with (Ret tier, w1). cbn [fst snd].
  assert (Hopen : forall n, same_tier n w1 w).
  { intros n key. subst w1. cbn [caches set_caches]. apply CSFacts.lookup_open. }
  unfold cache_addAll. rewrite bind_eq.
  destruct (fetch_each_eq urls w1) as (results & evs & Heq & Hskip & Hok).
  destruct (fetch_each_keys urls w1) as (results' & w2' & Heq' & Hkeys).
  rewrite Heq in Heq'. injection Heq' as <- _.
  rewrite Heq. cbn [fst snd]. change (ticks w1) with (ticks w) in *.
  change (clients w1) with (clients w). change (trace w1) with (trace w).
  set (w2 := mkWorld (caches w1) (clients w) (ticks w + length urls) (trace w ++ evs)).
  destruct (seeds_ok location_origin net (ticks w) urls).
  - destruct Hok as [entries Hent]. rewrite Hent.
    destruct (store_entries_frame tier name entries w2) as (Hr & Ht & Hc & Hs & Hf).
    rewrite Hr, Ht, Hc, Hs. subst w2. cbn [ticks clients trace fulfilled].
    repeat split.
    + rewrite skips_app. lia.
    + intros [Hne | Hfalse]; [| discriminate]. intros key.
      rewrite (Hf Hne key). cbn [caches]. apply Hopen.
    + intros _ u Hu. apply store_entries_present.
      * cbn [caches]. subst w1. cbn [caches set_caches]. apply CSFacts.has_open.
      * right. rewrite (acceptable_all_keys _ _ Hent), Hkeys. now apply in_map.
  - rewrite Hok. unfold throw. subst w2. cbn [fst snd ticks clients trace fulfilled].
    repeat split.
    + rewrite skips_app. lia.
    + intros _ key. cbn [caches]. apply Hopen.
    + discriminate.
Qed.

(** A tier seeded with one [cache.add] behaves as with [cache.addAll]. *)
Lemma add_one_tier (tier u : string) (w : World) :
  let one := (do cache <- caches_open tier;
              promise_all (List.map (fun u => cache_add location_origin net cache u) [u])) w in
  let all := (do cache <- caches_open tier;
              cache_addAll location_origin net cache [u]) w in
  fulfilled (fst one) = fulfilled (fst all) /\ snd one = snd all.
Proof.
  cbv zeta. rewrite !bind_eq.
  change (caches_open tier w) with (Ret tier, set_caches (CS.open tier (caches w)) w).
  cbn [fst snd List.map].
  rewrite promise_all_cons, promise_all_nil. cbn [fst snd fulfilled]. unfold cache_add.
  rewrite andb_true_r. split; [| reflexivity].
  match goal with |- context [fulfilled (fst ?x)] => destruct (fst x) end; reflexivity.
Qed.

Lemma same_tier_trans (name : string) (w1 w2 w3 : World) :
  same_tier name w1 w2 -> same_tier name w2 w3 -> same_tier name w1 w3.
Proof. intros H1 H2 key. now rewrite H1. Qed.

End InstallFacts.

Lemma tiers_distinct :
  STATIC_CACHE <> ASSETS_CACHE /\ STATIC_CACHE <> DYNAMIC_CACHE /\
  ASSETS_CACHE <> DYNAMIC_CACHE.
Proof. repeat split; intros H; vm_compute in H; discriminate H. Qed.

(** C4, as amended: the install listener catches the failure of a seed, so
    the promise it hands to [event.waitUntil] is fulfilled in every case; a
    tier one of whose seeds fails keeps exactly the entries it had before (none
    when the tier is new) while a tier all of whose seeds succeed holds an entry
    for each of them; and [skipWaiting] is called once when every seed of every
    tier succeeds and not at all otherwise. *)
Theorem C4_install_outcome (location_origin : string) (net : Network) (w : World) :
  let out := onInstall location_origin net w in
  let ok1 := seeds_ok location_origin net (ticks w) CORE_FILES in
  let ok2 := seeds_ok location_origin net (ticks w + 9) EXERCISE_ASSETS in
  let ok3 := seeds_ok location_origin net (ticks w + 15) EXTERNAL_RESOURCES in
  let seeded tier urls :=
    forall u, In u urls ->
      exists r, CS.lookup tier (resolve location_origin u) (caches (snd out)) = Some r in
  fst out = Ret tt /\
  skips (trace (snd out))
    = (skips (trace w) + if ok1 && ok2 && ok3 then 1 else 0)%nat /\
  (if ok1 then seeded STATIC_CACHE CORE_FILES else same_tier STATIC_CACHE (snd out) w) /\
  (if ok2 then seeded ASSETS_CACHE EXERCISE_ASSETS else same_tier ASSETS_CACHE (snd out) w) /\
  (if ok3 then seeded DYNAMIC_CACHE EXTERNAL_RESOURCES
   else same_tier DYNAMIC_CACHE (snd out) w).
Proof.
  cbv zeta. destruct tiers_distinct as (Hsa & Hsd & Had).
  unfold onInstall.
  set (t1 := do cache <- caches_open STATIC_CACHE;
             cache_addAll location_origin net cache CORE_FILES).
  set (t2 := do cache <- caches_open ASSETS_CACHE;
             cache_addAll location_origin net cache EXERCISE_ASSETS).
  set (t3 := do cache <- caches_open DYNAMIC_CACHE;
             promise_all (List.map (fun u => cache_add location_origin net cache u)
                            EXTERNAL_RESOURCES)).
  set (w1 := snd (t1 w)). set (w2 := snd (t2 w1)). set (w3 := snd (t3 w2)).
  (* the three tiers, one after the other *)
  pose proof (addAll_tier location_origin net STATIC_CACHE) as T1.
  pose proof (addAll_tier location_origin net ASSETS_CACHE) as T2.
  pose proof (addAll_tier location_origin net DYNAMIC_CACHE) as T3.
  destruct (T1 STATIC_CACHE CORE_FILES w) as (F1 & K1 & C1 & S1 & Same1 & Seed1).
  fold t1 in F1, K1, C1, S1, Same1, Seed1. fold w1 in K1, C1, S1, Same1, Seed1.
  destruct (T2 ASSETS_CACHE EXERCISE_ASSETS w1) as (F2 & K2 & C2 & S2 & Same2 & Seed2).
  fold t2 in F2, K2, C2, S2, Same2, Seed2. fold w2 in K2, C2, S2, Same2, Seed2.
  destruct (add_one_tier location_origin net DYNAMIC_CACHE
              "https://fonts.googleapis.com/css2?family=Inter:wght@300;400;500;600;700;800;900&display=swap"
              w2) as (F3e & W3e).
  change (fulfilled (fst (t3 w2)) = fulfilled (fst ((do cache <- caches_open DYNAMIC_CACHE;
            cache_addAll location_origin net cache EXTERNAL_RESOURCES) w2))) in F3e.
  change (w3 = snd ((do cache <- caches_open DYNAMIC_CACHE;
            cache_addAll location_origin net cache EXTERNAL_RESOURCES) w2)) in W3e.
  destruct (T3 DYNAMIC_CACHE EXTERNAL_RESOURCES w2) as (F3 & K3 & C3 & S3 & Same3 & Seed3).
  rewrite <- F3e in F3. rewrite <- W3e in K3, C3, S3, Same3, Seed3.
  assert (E1 : ticks w1 = (ticks w + 9)%nat) by exact K1.
  assert (E2 : ticks w2 = (ticks w + 15)%nat) by (rewrite K2, E1; cbn; lia).
  rewrite E1 in F2, Same2, Seed2. rewrite E2 in F3, Same3, Seed3.
  (* frames of the other tiers *)
  destruct (T2 STATIC_CACHE EXERCISE_ASSETS w1) as (_ & _ & _ & _ & Fr21 & _).
  fold t2 in Fr21. fold w2 in Fr21. specialize (Fr21 (or_introl Hsa)).
  destruct (T3 STATIC_CACHE EXTERNAL_RESOURCES w2) as (_ & _ & _ & _ & Fr31 & _).
  rewrite <- W3e in Fr31. specialize (Fr31 (or_introl Hsd)).
  destruct (T3 ASSETS_CACHE EXTERNAL_RESOURCES w2) as (_ & _ & _ & _ & Fr32 & _).
  rewrite <- W3e in Fr32. specialize (Fr32 (or_introl Had)).
  destruct (T1 ASSETS_CACHE CORE_FILES w) as (_ & _ & _ & _ & Fr12 & _).
  fold t1 in Fr12. fold w1 in Fr12. specialize (Fr12 (or_introl (not_eq_sym Hsa))).
  destruct (T1 DYNAMIC_CACHE CORE_FILES w) as (_ & _ & _ & _ & Fr13 & _).
  fold t1 in Fr13. fold w1 in Fr13. specialize (Fr13 (or_introl (not_eq_sym Hsd))).
  destruct (T2 DYNAMIC_CACHE EXERCISE_ASSETS w1) as (_ & _ & _ & _ & Fr23 & _).
  fold t2 in Fr23. fold w2 in Fr23. specialize (Fr23 (or_introl (not_eq_sym Had))).
  (* the promise of the listener *)
  assert (Hall : promise_all [t1; t2; t3] w
                 = (if fulfilled (fst (t1 w)) && (fulfilled (fst (t2 w1))
                                                  && fulfilled (fst (t3 w2)))
                    then Ret tt else Throw, w3)).
  { rewrite !promise_all_cons, promise_all_nil. cbn [fst snd fulfilled].
    fold w1 w2 w3. rewrite andb_true_r.
    destruct (fulfilled (fst (t1 w))), (fulfilled (fst (t2 w1))),
      (fulfilled (fst (t3 w2))); reflexivity. }
  unfold try_catch. rewrite bind_eq, Hall. cbn [fst snd]. rewrite F1, F2, F3.
  set (ok1 := seeds_ok location_origin net (ticks w) CORE_FILES) in *.
  set (ok2 := seeds_ok location_origin net (ticks w + 9) EXERCISE_ASSETS) in *.
  set (ok3 := seeds_ok location_origin net (ticks w + 15) EXTERNAL_RESOURCES) in *.
  assert (Hskips : skips (trace w3) = skips (trace w)) by (rewrite S3, S2, S1; reflexivity).
  assert (Hstatic : if ok1
                    then forall u, In u CORE_FILES -> exists r,
                        CS.lookup STATIC_CACHE (resolve location_origin u) (caches w3) = Some r
                    else same_tier STATIC_CACHE w3 w).
  { destruct ok1.
    - intros u Hu. rewrite (Fr31 _), (Fr21 _). now apply Seed1.
    - apply (same_tier_trans _ _ w2); [exact Fr31 |].
      apply (same_tier_trans _ _ w1); [exact Fr21 | apply Same1; now right]. }
  assert (Hassets : if ok2
                    then forall u, In u EXERCISE_ASSETS -> exists r,
                        CS.lookup ASSETS_CACHE (resolve location_origin u) (caches w3) = Some r
                    else same_tier ASSETS_CACHE w3 w).
  { destruct ok2.
    - intros u Hu. rewrite (Fr32 _). now apply Seed2.
    - apply (same_tier_trans _ _ w2); [exact Fr32 |].
      apply (same_tier_trans _ _ w1); [apply Same2; now right | exact Fr12]. }
  assert (Hdynamic : if ok3
                     then forall u, In u EXTERNAL_RESOURCES -> exists r,
                         CS.lookup DYNAMIC_CACHE (resolve location_origin u) (caches w3) = Some r
                     else same_tier DYNAMIC_CACHE w3 w).
  { destruct ok3.
    - intros u Hu. now apply Seed3.
    - apply (same_tier_trans _ _ w2); [apply Same3; now right |].
      apply (same_tier_trans _ _ w1); [exact Fr23 | exact Fr13]. }
  destruct (ok1 && (ok2 && ok3)) eqn:Hok.
  - assert (ok1 && ok2 && ok3 = true) as -> by (now rewrite <- andb_assoc).
    unfold skipWaiting, emit, log_event. cbn [fst snd trace caches].
    rewrite skips_app, Hskips. cbn [skips]. repeat split; try assumption.
  - assert (ok1 && ok2 && ok3 = false) as -> by (now rewrite <- andb_assoc).
    unfold ret. cbn [fst snd]. rewrite Hskips, Nat.add_0_r. repeat split; assumption.
Qed.

(** C4, as stated, fails: one icon of the assets is missing; the promise of
    the install listener is fulfilled all the same, and the static tier, whose
    seeds were all fetched, is committed next to the empty assets tier. *)
Lemma C4_counterexample_install_settles_with_static_tier :
  let out := onInstall Sample.site Seeds.iconMissing Sample.fresh in
  seeds_ok Sample.site Seeds.iconMissing 9 EXERCISE_ASSETS = false /\
  fst out = Ret tt /\
  List.map (fun u => status <$> CS.lookup STATIC_CACHE (Sample.site ++ u) (caches (snd out)))
    CORE_FILES = List.map (fun _ => Some 200) CORE_FILES /\
  List.map (fun u => CS.lookup ASSETS_CACHE (Sample.site ++ u) (caches (snd out)))
    EXERCISE_ASSETS = List.map (fun _ => None) EXERCISE_ASSETS /\
  skips (trace (snd out)) = 0%nat.
Proof. vm_compute. repeat split. Qed.

(** ** Activate *)

Lemma get_drop (name name' : string) cs :
  CS.get name' (CS.drop name cs)
  = if String.eqb name name' then None else CS.get name' cs.
Proof.
  unfold CS.drop. induction cs as [|[n c] cs IH]; cbn [List.filter CS.get fst].
  - now destruct (String.eqb name name').
  - destruct (String.eqb_spec n name) as [-> | Hn]; cbn [negb].
    + rewrite IH. destruct (String.eqb_spec name name'); reflexivity.
    + cbn [CS.get]. rewrite IH.
      destruct (String.eqb_spec n name') as [-> | Hn']; [| reflexivity].
      destruct (String.eqb_spec name name'); [congruence | reflexivity].
Qed.

Lemma in_existsb_eqb (name : string) (l : list string) :
  existsb (String.eqb name) l = true <-> In name l.
Proof.
  rewrite existsb_exists. split.
  - intros (n & Hin & E). apply String.eqb_eq in E. now subst.
  - intros Hin. exists name. split; [exact Hin | apply String.eqb_refl].
Qed.

Lemma in_remove_one (name m : string) (l : list string) :
  In m l -> m = name \/ In m (remove_one name l).
Proof.
  induction l as [|n l IH]; cbn; [tauto |].
  destruct (String.eqb_spec name n) as [-> | Hne].
  - intros [-> | H]; auto.
  - intros [-> | H]; [right; now left |].
    destruct (IH H); [now left | right; now right].
Qed.

Lemma act_inv_start (w : World) : act_inv w (activate_start w) [].
Proof.
  split; cbn; try tauto; try discriminate; auto.
Qed.

Lemma act_inv_step (w : World) (c : Choice) (a a' : Activation) (mid : list ActEvent) :
  act_inv w a mid -> act_step c a = Some a' -> exists mid', act_inv w a' mid'.
Proof.
  intros [Htr Hcl Hph Hpend Hres Hclaim Hdel Habs Hdone] Hstep.
  assert (Hb : act_keys_pending a = true \/ act_deleting a <> [] \/ act_claiming a = true ->
               act_broadcast a = false).
  { destruct (act_broadcast a); [| reflexivity].
    destruct (Hdone eq_refl) as (H1 & H2 & H3). intros [H | [H | H]]; congruence. }
  destruct c as [| name | |]; cbn [act_step] in Hstep.
  - (* the keys resolve *)
    destruct (act_keys_pending a) eqn:Hk; [| discriminate].
    injection Hstep as <-. destruct (Hpend eq_refl) as [Hcs Hdl].
    rewrite (Hb (or_introl eq_refl)) in *.
    exists (mid ++ AKeysResolved :: List.map ADeleteCalled (stale_of w))%list.
    split; cbn [act_trace act_clients act_keys_pending act_deleting act_claiming
                  act_broadcast act_caches].
    + rewrite Htr, Hcs, !app_nil_r. unfold stale_of. now rewrite <- !app_assoc.
    + exact Hcl.
    + apply Forall_app. split; [exact Hph |]. constructor; [cbn; lia |].
      apply List.Forall_forall. intros e He. apply in_map_iff in He as (n & <- & _). cbn. lia.
    + discriminate.
    + intros _. split; [apply in_or_app; right; now left |].
      intros n Hn. right. rewrite Hcs. exact Hn.
    + intros H. apply in_or_app. left. now apply Hclaim.
    + intros n Hn. apply in_app_or in Hn as [Hn | [Hn | Hn]].
      * now apply Hdel.
      * discriminate Hn.
      * apply in_map_iff in Hn as (m & Hm & _). discriminate Hm.
    + exact Habs.
    + discriminate.
  - (* one deletion resolves *)
    destruct (existsb (String.eqb name) (act_deleting a)) eqn:Hin; [| discriminate].
    injection Hstep as <-. apply in_existsb_eqb in Hin.
    assert (Hne : act_deleting a <> []) by (intros E; rewrite E in Hin; exact Hin).
    assert (Hk : act_keys_pending a = false).
    { destruct (act_keys_pending a); [| reflexivity]. destruct (Hpend eq_refl); congruence. }
    rewrite (Hb (or_intror (or_introl Hne))) in *.
    exists (mid ++ [ADeleteDone name])%list.
    split; cbn [act_trace act_clients act_keys_pending act_deleting act_claiming
                  act_broadcast act_caches].
    + rewrite Htr, !app_nil_r. now rewrite <- !app_assoc.
    + exact Hcl.
    + apply Forall_app. split; [exact Hph |]. constructor; [cbn; lia | constructor].
    + congruence.
    + intros _. destruct (Hres Hk) as [Hkr Hst]. split; [apply in_or_app; now left |].
      intros n Hn. destruct (Hst n Hn) as [H | H].
      * left. apply in_or_app. now left.
      * destruct (in_remove_one name n _ H) as [-> | H'].
        -- left. apply in_or_app. right. now left.
        -- now right.
    + intros H. apply in_or_app. left. now apply Hclaim.
    + intros n Hn. rewrite get_drop.
      destruct (String.eqb_spec name n) as [_ | Hnn]; [reflexivity |].
      apply in_app_or in Hn as [Hn | [Hn | []]]; [now apply Hdel | congruence].
    + intros n Hn. rewrite get_drop. destruct (String.eqb name n); [reflexivity | now apply Habs].
    + discriminate.
  - (* the claim resolves *)
    destruct (act_claiming a) eqn:Hc; [| discriminate].
    injection Hstep as <-.
    rewrite (Hb (or_intror (or_intror eq_refl))) in *.
    exists (mid ++ [AClaimDone])%list.
    split; cbn [act_trace act_clients act_keys_pending act_deleting act_claiming
                  act_broadcast act_caches].
    + rewrite Htr, !app_nil_r. now rewrite <- !app_assoc.
    + exact Hcl.
    + apply Forall_app. split; [exact Hph |]. constructor; [cbn; lia | constructor].
    + exact Hpend.
    + intros Hk. destruct (Hres Hk) as [Hkr Hst]. split; [apply in_or_app; now left |].
      intros n Hn. destruct (Hst n Hn); [left; apply in_or_app; now left | now right].
    + intros _. apply in_or_app. right. now left.
    + intros n Hn. apply in_app_or in Hn as [Hn | [Hn | []]]; [now apply Hdel | discriminate Hn].
    + exact Habs.
    + discriminate.
  - (* the callback of the [then] runs *)
    destruct (act_keys_pending a) eqn:Hk; [discriminate |].
    destruct (act_deleting a) eqn:Hd; [| discriminate].
    destruct (act_claiming a) eqn:Hc; [discriminate |].
    destruct (act_broadcast a) eqn:Hbr; [discriminate |].
    injection Hstep as <-.
    exists mid.
    split; cbn [act_trace act_clients act_keys_pending act_deleting act_claiming
                  act_broadcast act_caches].
    + rewrite Htr, Hcl, app_nil_r. unfold posted. now rewrite <- !app_assoc.
    + exact Hcl.
    + exact Hph.
    + discriminate.
    + intros _. destruct (Hres eq_refl) as [Hkr Hst]. split; [exact Hkr |].
      intros n Hn. destruct (Hst n Hn) as [H | []]. now left.
    + intros _. now apply Hclaim.
    + exact Hdel.
    + exact Habs.
    + auto.
Qed.

Lemma act_inv_run (w : World) (sched : list Choice) (a a' : Activation) (mid : list ActEvent) :
  act_inv w a mid -> act_run sched a = Some a' -> exists mid', act_inv w a' mid'.
Proof.
  revert a mid. induction sched as [|c sched IH]; intros a mid Hinv Hrun.
  - injection Hrun as <-. eauto.
  - cbn [act_run] in Hrun. destruct (act_step c a) as [a1|] eqn:Hstep; [| discriminate].
    destruct (act_inv_step w c a a1 mid Hinv Hstep) as [mid1 Hinv1]. eauto.
Qed.

Lemma deletions_run (l : list string) (a : Activation) :
  act_deleting a = l ->
  exists a',
    act_run (List.map ResolveDelete l) a = Some a' /\
    act_deleting a' = [] /\
    act_keys_pending a' = act_keys_pending a /\
    act_claiming a' = act_claiming a /\
    act_broadcast a' = act_broadcast a.
Proof.
  revert a. induction l as [|n l IH]; intros a Hd.
  - exists a. cbn. auto.
  - cbn [List.map act_run act_step]. rewrite Hd. cbn [existsb].
    rewrite String.eqb_refl. cbn [orb].
    match goal with |- context [act_run _ ?a1] => destruct (IH a1) as (a' & Hr & H1 & H2 & H3 & H4) end.
    { cbn [act_deleting remove_one]. now rewrite String.eqb_refl. }
    exists a'. rewrite Hr. cbn in *. auto.
Qed.

(** The fair schedule runs every activation to its end. *)
Lemma activation_completes (w : World) :
  exists a, act_run (fair_schedule w) (activate_start w) = Some a /\ act_broadcast a = true.
Proof.
  unfold fair_schedule. cbn [act_run act_step activate_start act_keys_pending].
  set (a1 := mkActivation _ _ _ _ _ _ _).
  destruct (deletions_run (List.filter isStale (CS.keys (caches w))) a1 eq_refl)
    as (a2 & Hrun & Hd & Hk & Hc & Hb).
  assert (Happ : forall s1 s2 a, act_run (s1 ++ s2) a
                   = match act_run s1 a with Some a' => act_run s2 a' | None => None end).
  { induction s1 as [|c s1 IH']; intros s2 a; [reflexivity |].
    cbn [app act_run]. destruct (act_step c a); [apply IH' | reflexivity]. }
  rewrite Happ, Hrun. cbn [act_run act_step]. rewrite Hc. cbn [a1 act_claiming].
  cbn [act_keys_pending act_deleting act_claiming act_broadcast].
  rewrite Hk, Hd, Hb. cbn [a1 act_keys_pending act_broadcast].
  eexists. split; reflexivity.
Qed.

(** Where every complete activation ends. *)
Lemma activation_end (w : World) (sched : list Choice) (a : Activation) :
  act_run sched (activate_start w) = Some a ->
  act_broadcast a = true ->
  exists mid,
    act_trace a
    = ([AKeysCalled; AClaimCalled] ++ mid ++ AMatchAllCalled :: posted w)%list /\
    Forall (fun e => (act_phase e < 2)%nat) mid /\
    In AKeysResolved mid /\
    (forall n, In n (stale_of w) -> In (ADeleteDone n) mid) /\
    In AClaimDone mid /\
    (forall n, In (ADeleteDone n) mid -> CS.get n (act_caches a) = None) /\
    (forall n, CS.get n (caches w) = None -> CS.get n (act_caches a) = None).
Proof.
  intros Hrun Hb.
  destruct (act_inv_run w sched _ a [] (act_inv_start w) Hrun) as [mid Hinv].
  destruct Hinv as [Htr Hcl Hph Hpend Hres Hclaim Hdel Habs Hdone].
  destruct (Hdone Hb) as (Hk & Hd & Hc). destruct (Hres Hk) as [Hkr Hst].
  exists mid. rewrite Hb in Htr. repeat split; try assumption.
  - intros n Hn. destruct (Hst n Hn) as [H | H]; [exact H |]. rewrite Hd in H. destruct H.
  - now apply Hclaim.
Qed.

Lemma phases_ordered_app_false (l1 l2 : list nat) :
  phases_ordered l2 = false -> phases_ordered (l1 ++ l2) = false.
Proof.
  intros H. induction l1 as [|x l1 IH]; [exact H |].
  cbn [app phases_ordered]. rewrite IH. apply andb_false_r.
Qed.

Lemma claim_before_resolution_unordered (tl : list ActEvent) :
  In AKeysResolved tl -> strictly_ordered (AKeysCalled :: AClaimCalled :: tl) = false.
Proof.
  intros Hin. unfold strictly_ordered. cbn [List.map act_phase phases_ordered].
  assert (H : forallb (fun y => (1 <=? y)%nat) (List.map act_phase tl) = false).
  { induction tl as [|e tl IH]; [destruct Hin |]. cbn [List.map forallb].
    destruct Hin as [-> | Hin]; [reflexivity |]. rewrite (IH Hin). apply andb_false_r. }
  rewrite H. cbn [andb]. apply andb_false_r.
Qed.

(** No activation has its three steps strictly ordered. *)
Lemma activation_never_strictly_ordered (w : World) (sched : list Choice) (a : Activation) :
  act_run sched (activate_start w) = Some a ->
  act_broadcast a = true ->
  strictly_ordered (act_trace a) = false.
Proof.
  intros Hrun Hb.
  destruct (activation_end w sched a Hrun Hb) as (mid & -> & _ & Hkr & _).
  apply claim_before_resolution_unordered. apply in_or_app. now left.
Qed.

(** C6, as amended: the listener calls [caches.keys()] and then
    [self.clients.claim()] at once, so claiming begins before the cleanup has
    deleted anything; under every order in which the platform resolves the
    promises, the keys are listed, every stale cache is deleted and the claim
    is resolved before [clients.matchAll()] is called, and the activated
    message, which carries the version, is then posted to every client, in
    order, with nothing after it.  Every activation can run to that end. *)
Theorem C6_broadcast_after_cleanup_and_claim :
  (forall w, exists a,
      act_run (fair_schedule w) (activate_start w) = Some a /\ act_broadcast a = true) /\
  (forall w sched a,
      act_run sched (activate_start w) = Some a ->
      act_broadcast a = true ->
      exists mid,
        act_trace a
        = ([AKeysCalled; AClaimCalled] ++ mid ++ AMatchAllCalled :: posted w)%list /\
        Forall (fun e => (act_phase e < 2)%nat) mid /\
        In AKeysResolved mid /\
        (forall n, In n (stale_of w) -> In (ADeleteDone n) mid) /\
        In AClaimDone mid) /\
  msg_version activatedMessage = Some APP_VERSION.
Proof.
  split; [exact activation_completes | split; [| reflexivity]].
  intros w sched a Hrun Hb.
  destruct (activation_end w sched a Hrun Hb) as (mid & H1 & H2 & H3 & H4 & H5 & _).
  exists mid. auto.
Qed.


(** C6, as stated, fails: a stale static tier is present when the worker is
    activated; [claim()] is called before the keys of the Cache Storage are
    even listed, so the cleanup does not complete before claiming begins. *)
Lemma C6_counterexample_claim_called_before_cleanup :
  option_map (fun a => (act_broadcast a, act_trace a, strictly_ordered (act_trace a)))
    (act_run (fair_schedule Upgrade.world) (activate_start Upgrade.world))
  = Some (true,
          [ AKeysCalled; AClaimCalled; AKeysResolved;
            ADeleteCalled "lumina-static-v2.4.0"; ADeleteDone "lumina-static-v2.4.0";
            AClaimDone; AMatchAllCalled;
            APosted 1 activatedMessage; APosted 2 activatedMessage ],
          false).
Proof. vm_compute. reflexivity. Qed.

(** The platform may as well resolve the claim before it deletes anything. *)
Lemma claim_may_complete_first :
  option_map act_trace
    (act_run [ResolveClaim; ResolveKeys; ResolveDelete "lumina-static-v2.4.0"; RunThen]
       (activate_start Upgrade.world))
  = Some [ AKeysCalled; AClaimCalled; AClaimDone; AKeysResolved;
           ADeleteCalled "lumina-static-v2.4.0"; ADeleteDone "lumina-static-v2.4.0";
           AMatchAllCalled; APosted 1 activatedMessage; APosted 2 activatedMessage ].
Proof. vm_compute. reflexivity. Qed.

(** C6 at the upgrade of a world that holds a stale static tier, under the
    fair schedule. *)
Lemma C6_witness :
  exists mid,
    [ AKeysCalled; AClaimCalled; AKeysResolved;
      ADeleteCalled "lumina-static-v2.4.0"; ADeleteDone "lumina-static-v2.4.0";
      AClaimDone; AMatchAllCalled;
      APosted 1 activatedMessage; APosted 2 activatedMessage ]
    = ([AKeysCalled; AClaimCalled] ++ mid ++ AMatchAllCalled :: posted Upgrade.world)%list /\
    Forall (fun e => (act_phase e < 2)%nat) mid /\
    In AKeysResolved mid /\
    (forall n, In n (stale_of Upgrade.world) -> In (ADeleteDone n) mid) /\
    In AClaimDone mid.
Proof.
  apply (proj1 (proj2 C6_broadcast_after_cleanup_and_claim) Upgrade.world
           (fair_schedule Upgrade.world)
           (mkActivation [(STATIC_CACHE, ∅)] Sample.twoClients false [] false true
              [ AKeysCalled; AClaimCalled; AKeysResolved;
                ADeleteCalled "lumina-static-v2.4.0"; ADeleteDone "lumina-static-v2.4.0";
                AClaimDone; AMatchAllCalled;
                APosted 1 activatedMessage; APosted 2 activatedMessage ])).
  - vm_compute. reflexivity.
  - reflexivity.
Defined.

Lemma get_in_keys (name : string) cs c : CS.get name cs = Some c -> In name (CS.keys cs).
Proof.
  induction cs as [|[n c'] cs IH]; cbn; [discriminate |].
  destruct (String.eqb_spec n name) as [-> | Hne]; [now left | right; auto].
Qed.

(** The cleanup takes the durable store for a cache of an old generation:
    after every activation the store is gone. *)
Lemma activation_drops_data_store (w : World) (sched : list Choice) (a : Activation) :
  act_run sched (activate_start w) = Some a ->
  act_broadcast a = true ->
  CS.get DATA_CACHE (act_caches a) = None.
Proof.
  intros Hrun Hb.
  destruct (activation_end w sched a Hrun Hb) as (mid & _ & _ & _ & Hst & _ & Hdel & Habs).
  destruct (CS.get DATA_CACHE (caches w)) as [c|] eqn:Hget; [| now apply Habs].
  apply Hdel, Hst. unfold stale_of. apply filter_In. split.
  - eapply get_in_keys, Hget.
  - reflexivity.
Qed.

(** C3, on the code: two mutations of the exercise topic are queued and no
    replay has run; the worker is activated, and the durable store that held
    them is deleted with the caches of the old generations. *)
Theorem C3_activation_deletes_pending_mutations :
  let w := Queue.exercise in
  fst (getStoredData Sample.site "pending-exercise-data" w)
    = Ret (JArr [Queue.sample 12; Queue.sample 15]) /\
  isStale DATA_CACHE = true /\
  option_map
    (fun a => (act_broadcast a,
               CS.get DATA_CACHE (act_caches a),
               CS.lookup DATA_CACHE (data_url Sample.site "pending-exercise-data")
                 (act_caches a)))
    (act_run (fair_schedule w) (activate_start w))
  = Some (true, None, None).
Proof. vm_compute. repeat split. Qed.

(** The command that clears the caches drops the durable store as well. *)
Lemma clearAllCaches_drops_data_store :
  let w := Queue.exercise in
  CS.get DATA_CACHE (caches (snd (clearAllCaches w))) = None.
Proof. vm_compute. reflexivity. Qed.

(** ** The theorems at sample inputs *)

(** C4 on a network where one icon of the assets is missing. *)
Lemma C4_witness :
  fst (onInstall Sample.site Seeds.iconMissing Sample.fresh) = Ret tt /\
  same_tier ASSETS_CACHE (snd (onInstall Sample.site Seeds.iconMissing Sample.fresh))
    Sample.fresh.
Proof.
  destruct (C4_install_outcome Sample.site Seeds.iconMissing Sample.fresh)
    as (H1 & _ & _ & H4 & _).
  split; [exact H1 | exact H4].
Defined.

(** C5 for a network-first execution answered with status 500, in a world
    whose runtime tier already holds the icon. *)
Lemma C5_witness :
  let w := Sample.iconCached in
  let key := href (url Sample.iconImage) in
  (CS.lookup RUNTIME_CACHE key (caches w) = Some Sample.iconResponse \/
   (status Sample.iconResponse = 200 /\
    Sample.failing (ticks w) (get_call Sample.exercisesPage) = Responded Sample.iconResponse)) /\
  (In (EvCachePut RUNTIME_CACHE key Sample.iconResponse) (trace w) \/
   (status Sample.iconResponse = 200 /\
    Sample.failing (ticks w) (get_call Sample.exercisesPage) = Responded Sample.iconResponse)) /\
  caches (snd (execute Sample.failing NetworkFirst Sample.exercisesPage w)) = caches w.
Proof.
  destruct (C5_only_status_200_is_cached Sample.failing NetworkFirst Sample.exercisesPage
              Sample.iconCached) as (H1 & H2 & H3).
  split; [| split].
  - apply H1. vm_compute. reflexivity.
  - apply H2. vm_compute. right. left. reflexivity.
  - apply H3. intros r H. injection H as <-. discriminate.
Defined.

(** C7 for a PUT request. *)
Lemma C7_witness :
  onFetch Sample.site Sample.online Sample.settingsUpload = None.
Proof.
  apply (proj2 (C7_bypass_iff_not_get_or_chrome_extension
                  Sample.site Sample.online Sample.settingsUpload)).
  left. discriminate.
Defined.

(** C9 for the icon, requested three times while the network is unreachable. *)
Lemma C9_witness :
  exists h r,
    onFetch Sample.site Sample.offline Sample.iconImage = Some h /\
    CS.match_any (href (url Sample.iconImage)) (caches Sample.iconCached) = Some r /\
    serve 3 h Sample.iconCached = (repeat (Ret (Some r)) 3, Sample.iconCached).
Proof.
  apply (C9_cache_first_hit_no_network Sample.site Sample.offline Sample.iconImage
           Sample.iconCached RUNTIME_CACHE Sample.iconResponse 3).
  - reflexivity.
  - vm_compute. reflexivity.
Defined.

(** C10 on a sequence of calls: the second value stored under the key wins
    over the first (whose volume is 0.5), and the calls on another record do
    not matter. *)
Lemma C10_witness :
  let first := JObj [("volume", JDec (mkDec false 0 N5 1)); ("theme", JStr "dark")] in
  let second := JArr [JNum 1; JNull; JStr "x"] in
  let ops := [ OpStore "settings" first; OpStore "draft" JNull; OpClear "draft";
               OpStore "settings" second ] in
  fst (getStoredData Sample.site "settings" (snd (run_ops Sample.site ops Sample.fresh)))
  = Ret second /\
  fst (getStoredData Sample.site "draft" (snd (run_ops Sample.site ops Sample.fresh)))
  = Ret JNull.
Proof.
  split.
  - exact (proj1 (proj2 C10_store_roundtrip) Sample.site "settings"
             [ OpStore "settings" (JObj [("volume", JDec (mkDec false 0 N5 1)); ("theme", JStr "dark")]);
               OpStore "draft" JNull; OpClear "draft";
               OpStore "settings" (JArr [JNum 1; JNull; JStr "x"]) ] Sample.fresh).
  - exact (proj1 (proj2 C10_store_roundtrip) Sample.site "draft"
             [ OpStore "settings" (JObj [("volume", JDec (mkDec false 0 N5 1)); ("theme", JStr "dark")]);
               OpStore "draft" JNull; OpClear "draft";
               OpStore "settings" (JArr [JNum 1; JNull; JStr "x"]) ] Sample.fresh).
Defined.

(** C10, as stated, fails: a key that was never written does not read as
    [null] when a key with the same request URL was written.  The fragment of
    a URL is no part of what the Cache API compares. *)
Lemma C10_counterexample_unwritten_key_reads_alias :
  let value := JObj [("volume", JDec (mkDec false 0 N5 1))] in
  let w := snd (storeData Sample.site "settings" value Sample.fresh) in
  "settings#draft" <> "settings" /\
  fst (getStoredData Sample.site "settings#draft" w) = Ret value /\
  fst (getStoredData Sample.site "settings#draft" w) <> Ret JNull.
Proof. cbv zeta. split; [discriminate |]. split; [reflexivity | discriminate]. Qed.

(** * Further properties *)

(** ** What an activation keeps *)

Lemma in_remove_one_inv (name m : string) (l : list string) :
  In m (remove_one name l) -> In m l.
Proof.
  induction l as [|n l IH]; cbn; [tauto |].
  destruct (String.eqb name n); [now right |].
  intros [-> | H]; [now left | right; auto].
Qed.

(** Every state an activation reaches has deleted stale caches only. *)
Lemma act_keeps_step (w : World) (c : Choice) (a a' : Activation) :
  (forall n, isStale n = false -> CS.get n (act_caches a) = CS.get n (caches w)) ->
  (forall n, In n (act_deleting a) -> isStale n = true) ->
  act_step c a = Some a' ->
  (forall n, isStale n = false -> CS.get n (act_caches a') = CS.get n (caches w)) /\
  (forall n, In n (act_deleting a') -> isStale n = true).
Proof.
  intros Hkeep Hdel Hstep. destruct c as [| name | |]; cbn [act_step] in Hstep.
  - destruct (act_keys_pending a); [| discriminate]. injection Hstep as <-.
    cbn [act_caches act_deleting]. split; [exact Hkeep |].
    intros n Hn. apply filter_In in Hn. apply Hn.
  - destruct (existsb (String.eqb name) (act_deleting a)) eqn:Hin; [| discriminate].
    injection Hstep as <-. apply in_existsb_eqb in Hin.
    cbn [act_caches act_deleting]. split.
    + intros n Hn. rewrite get_drop.
      destruct (String.eqb_spec name n) as [-> | _]; [| now apply Hkeep].
      rewrite (Hdel n Hin) in Hn. discriminate.
    + intros n Hn. apply Hdel. eapply in_remove_one_inv, Hn.
  - destruct (act_claiming a); [| discriminate]. injection Hstep as <-.
    cbn [act_caches act_deleting]. auto.
  - destruct (act_keys_pending a); [discriminate |].
    destruct (act_deleting a) eqn:Hd; [| discriminate].
    destruct (act_claiming a); [discriminate |].
    destruct (act_broadcast a); [discriminate |].
    injection Hstep as <-. cbn [act_caches act_deleting]. split; [exact Hkeep | intros n []].
Qed.

Lemma act_keeps_run (w : World) (sched : list Choice) (a a' : Activation) :
  (forall n, isStale n = false -> CS.get n (act_caches a) = CS.get n (caches w)) ->
  (forall n, In n (act_deleting a) -> isStale n = true) ->
  act_run sched a = Some a' ->
  forall n, isStale n = false -> CS.get n (act_caches a') = CS.get n (caches w).
Proof.
  revert a. induction sched as [|c sched IH]; intros a Hkeep Hdel Hrun.
  - injection Hrun as <-. exact Hkeep.
  - cbn [act_run] in Hrun. destruct (act_step c a) as [a1|] eqn:Hstep; [| discriminate].
    destruct (act_keeps_step w c a a1 Hkeep Hdel Hstep) as [Hk1 Hd1]. eauto.
Qed.

(** X1: whatever the order in which the platform resolves the promises, a
    complete activation deletes exactly the caches its filter selects: a cache
    whose name starts with [lumina-] and is not one of the five names of this
    generation is gone, and every other cache (the tiers of this generation,
    the caches of other applications) is what it was. *)
Theorem activation_deletes_exactly_stale
    (w : World) (sched : list Choice) (a : Activation) (name : string) :
  act_run sched (activate_start w) = Some a ->
  act_broadcast a = true ->
  CS.get name (act_caches a) = if isStale name then None else CS.get name (caches w).
Proof.
  intros Hrun Hb. destruct (isStale name) eqn:Hs.
  - destruct (activation_end w sched a Hrun Hb) as (mid & _ & _ & _ & Hst & _ & Hdel & Habs).
    destruct (CS.get name (caches w)) as [c|] eqn:Hget; [| now apply Habs].
    apply Hdel, Hst. unfold stale_of. apply filter_In. split; [| exact Hs].
    eapply get_in_keys, Hget.
  - apply (act_keeps_run w sched (activate_start w) a); auto.
Qed.

(** X1 on the tiers [v2.5.0-static, v2.5.0-assets, v2.4.0-dynamic]: the old
    dynamic tier goes, the two current tiers and the foreign cache stay. *)
Lemma activation_deletes_exactly_stale_witness :
  exists a,
    act_run (fair_schedule Generations.world) (activate_start Generations.world) = Some a /\
    CS.get "lumina-dynamic-v2.4.0" (act_caches a) = None /\
    CS.get STATIC_CACHE (act_caches a) = Some ∅ /\
    CS.get ASSETS_CACHE (act_caches a) = Some ∅ /\
    CS.get "workbox-precache" (act_caches a) = Some ∅.
Proof.
  eexists. split; [vm_compute; reflexivity |].
  split; [| split; [| split]];
    (etransitivity;
     [ apply (activation_deletes_exactly_stale Generations.world
                (fair_schedule Generations.world));
       [vm_compute; reflexivity | reflexivity]
     | reflexivity ]).
Defined.

(** ** Clearing the caches *)

Lemma delete_each (names : list string) (w : World) (name : string) :
  fst (forEach names caches_delete w) = Ret tt /\
  CS.get name (caches (snd (forEach names caches_delete w)))
  = if existsb (String.eqb name) names then None else CS.get name (caches w).
Proof.
  revert w. induction names as [|n names IH]; intros w; [split; reflexivity |].
  cbn [forEach existsb]. rewrite bind_eq.
  change (caches_delete n w)
    with (@Ret unit tt, log_event (EvCacheDelete n) (set_caches (CS.drop n (caches w)) w)).
  cbn [fst snd]. destruct (IH (log_event (EvCacheDelete n) (set_caches (CS.drop n (caches w)) w)))
    as [Hr Hg].
  split; [exact Hr |]. rewrite Hg. unfold log_event, set_caches. cbn [caches].
  rewrite get_drop, (String.eqb_sym n name).
  destruct (String.eqb name n); cbn [orb]; [| reflexivity].
  now destruct (existsb (String.eqb name) names).
Qed.

Lemma clearAllCaches_get (w : World) (name : string) :
  fst (clearAllCaches w) = Ret true /\
  CS.get name (caches (snd (clearAllCaches w)))
  = if Str.startsWith name "lumina-" then None else CS.get name (caches w).
Proof.
  unfold clearAllCaches, try_catch. rewrite bind_eq.
  change (caches_keys w) with (Ret (CS.keys (caches w)), w). cbn [fst snd].
  rewrite bind_eq.
  destruct (delete_each (List.filter (fun n => Str.startsWith n "lumina-") (CS.keys (caches w)))
              w name) as [Hr Hg].
  rewrite Hr. cbn [fst snd ret]. split; [reflexivity |]. rewrite Hg.
  destruct (existsb (String.eqb name) _) eqn:Hex.
  - apply in_existsb_eqb, filter_In in Hex as [_ ->]. reflexivity.
  - destruct (Str.startsWith name "lumina-") eqn:Hp; [| reflexivity].
    destruct (CS.get name (caches w)) as [c|] eqn:Hget; [| reflexivity].
    assert (Hin : In name (List.filter (fun n => Str.startsWith n "lumina-") (CS.keys (caches w)))).
    { apply filter_In. split; [eapply get_in_keys, Hget | exact Hp]. }
    apply in_existsb_eqb in Hin. congruence.
Qed.

(** X2: [clearAllCaches] answers [true] and deletes exactly the caches whose
    name starts with [lumina-]: the tiers of every generation and the durable
    store; a cache with another name is what it was. *)
Theorem clearAllCaches_deletes_lumina_caches (w : World) (name : string) :
  fst (clearAllCaches w) = Ret true /\
  CS.get name (caches (snd (clearAllCaches w)))
  = if Str.startsWith name "lumina-" then None else CS.get name (caches w).
Proof. apply clearAllCaches_get. Qed.


(** ** Strategies: what is answered and where it is stored *)

Ltac run_strategy :=
  unfold execute, handleCacheFirst, handleNetworkFirst, handleStaleWhileRevalidate,
    handleFontRequest, handleExternalRequest, try_catch, bind, caches_match, fetch,
    when, ret, throw, caches_open, cache_put.

(** X3: the handlers of font and of external requests never reject and
    never resolve with [undefined]: the answer is a response in every case,
    namely the stored entry, the response of the network, or, when the network
    fails and nothing is stored, an empty response of status 404. *)
Theorem font_and_external_always_answer
    (net : Network) (s : Strategy) (request : Request) (w : World) :
  s = Font \/ s = External ->
  exists r,
    fst (execute net s request w) = Ret (Some r) /\
    (CS.match_any (href (url request)) (caches w) = Some r \/
     net (ticks w) (get_call request) = Responded r \/
     (r = notFoundResponse /\
      CS.match_any (href (url request)) (caches w) = None /\
      net (ticks w) (get_call request) = NetworkError)).
Proof.
  intros [-> | ->]; run_strategy.
  - destruct (CS.match_any (href (url request)) (caches w)) as [c|] eqn:Hm.
    + exists c. split; [reflexivity | auto 6].
    + destruct (net (ticks w) (get_call request)) as [|r] eqn:Hnet.
      * cbn [fst snd caches tick]. rewrite Hm. exists notFoundResponse. split; [reflexivity | auto 6].
      * exists r. destruct (status r =? 200); (split; [reflexivity | auto 6]).
  - destruct (net (ticks w) (get_call request)) as [|r] eqn:Hnet.
    + cbn [fst snd caches tick].
      destruct (CS.match_any (href (url request)) (caches w)) as [c|] eqn:Hm.
      * exists c. split; [reflexivity | auto 6].
      * exists notFoundResponse. split; [reflexivity | auto 6].
    + exists r. destruct ((status r =? 200) && shouldCacheExternal (href (url request)));
        (split; [reflexivity | auto 6]).
Qed.

(** X3 for a font stylesheet, requested while the network is unreachable and
    nothing is stored. *)
Lemma font_and_external_always_answer_witness :
  exists r,
    fst (execute Sample.offline Font Sample.iconImage Sample.fresh) = Ret (Some r) /\
    (CS.match_any (href (url Sample.iconImage)) (caches Sample.fresh) = Some r \/
     Sample.offline (ticks Sample.fresh) (get_call Sample.iconImage) = Responded r \/
     (r = notFoundResponse /\
      CS.match_any (href (url Sample.iconImage)) (caches Sample.fresh) = None /\
      Sample.offline (ticks Sample.fresh) (get_call Sample.iconImage) = NetworkError)).
Proof.
  apply (font_and_external_always_answer Sample.offline Font Sample.iconImage Sample.fresh).
  left. reflexivity.
Defined.

Lemma execute_offline_hit
    (net : Network) (s : Strategy) (request : Request) (w : World) (c : Response) :
  CS.match_any (href (url request)) (caches w) = Some c ->
  net (ticks w) (get_call request) = NetworkError ->
  fst (execute net s request w) = Ret (Some c) /\
  caches (snd (execute net s request w)) = caches w.
Proof.
  intros Hm Hnet. destruct s; run_strategy; rewrite ?Hm, ?Hnet;
    cbn [fst snd caches tick]; rewrite ?Hm; split; reflexivity.
Qed.

(** X4: while the network is unreachable, a request under whose URL a
    response is stored is answered with the stored response that
    [caches.match] finds, by every one of the five strategies, and the caches
    are left as they were. *)
Theorem offline_with_cached_copy
    (net : Network) (s : Strategy) (request : Request) (w : World) (c : Response) :
  CS.match_any (href (url request)) (caches w) = Some c ->
  net (ticks w) (get_call request) = NetworkError ->
  fst (execute net s request w) = Ret (Some c) /\
  caches (snd (execute net s request w)) = caches w.
Proof. apply execute_offline_hit. Qed.

(** X4 for the icon, stored once, under stale-while-revalidate. *)
Lemma offline_with_cached_copy_witness :
  fst (execute Sample.offline StaleWhileRevalidate Sample.iconImage Sample.iconCached)
    = Ret (Some Sample.iconResponse) /\
  caches (snd (execute Sample.offline StaleWhileRevalidate Sample.iconImage Sample.iconCached))
    = caches Sample.iconCached.
Proof.
  apply (offline_with_cached_copy Sample.offline StaleWhileRevalidate Sample.iconImage
           Sample.iconCached Sample.iconResponse).
  - vm_compute. reflexivity.
  - reflexivity.
Defined.

(** X5: while the network is unreachable, a request under whose URL
    nothing is stored is answered differently by each strategy: cache-first
    gives the offline page to a request of destination [document] and rejects
    for any other; network-first rejects; stale-while-revalidate resolves with
    [undefined]; the font and external handlers give an empty 404.  The caches
    are left as they were. *)
Theorem offline_without_cached_copy
    (net : Network) (s : Strategy) (request : Request) (w : World) :
  CS.match_any (href (url request)) (caches w) = None ->
  net (ticks w) (get_call request) = NetworkError ->
  fst (execute net s request w)
  = match s with
    | CacheFirst =>
        if String.eqb (destination request) "document"
        then Ret (Some createOfflineExercisePage) else Throw
    | NetworkFirst => Throw
    | StaleWhileRevalidate => Ret None
    | Font | External => Ret (Some notFoundResponse)
    end /\
  caches (snd (execute net s request w)) = caches w.
Proof.
  intros Hm Hnet. destruct s; run_strategy; rewrite ?Hm, ?Hnet;
    cbn [fst snd caches tick]; rewrite ?Hm;
    try (destruct (String.eqb (destination request) "document")); split; reflexivity.
Qed.

(** X5 for the exercises page under network-first. *)
Lemma offline_without_cached_copy_witness :
  fst (execute Sample.offline NetworkFirst Sample.exercisesPage Sample.fresh) = Throw /\
  caches (snd (execute Sample.offline NetworkFirst Sample.exercisesPage Sample.fresh))
    = caches Sample.fresh.
Proof.
  apply (offline_without_cached_copy Sample.offline NetworkFirst Sample.exercisesPage
           Sample.fresh); reflexivity.
Defined.

(** X6: a strategy writes to one tier only, the runtime tier for cache-first,
    network-first and stale-while-revalidate, the dynamic tier for the font and
    external handlers: the entries of every other cache, the durable store
    among them, are what they were. *)
Theorem strategy_writes_its_tier_only
    (net : Network) (s : Strategy) (request : Request) (w : World) (name : string) :
  name <> tier_of s ->
  same_tier name (snd (execute net s request w)) w.
Proof.
  intros Hne key.
  assert (Hput : forall r,
             CS.lookup name key
               (CS.put (tier_of s) (href (url request)) r (CS.open (tier_of s) (caches w)))
             = CS.lookup name key (caches w)).
  { intros r. rewrite CSFacts.lookup_put, CSFacts.lookup_open.
    destruct (String.eqb_spec (tier_of s) name) as [E | _]; [congruence | reflexivity]. }
  destruct s; run_strategy; cbn [tier_of] in Hput;
    destruct (CS.match_any (href (url request)) (caches w)) as [c|];
    try reflexivity;
    destruct (net (ticks w) (get_call request)) as [|r];
    cbn [fst snd caches tick];
    repeat match goal with
           | |- context [if ?b then _ else _] => destruct b
           | |- context [match ?o with Some _ => _ | None => _ end] => destruct o
           end;
    cbn [fst snd caches tick set_caches log_event status]; try reflexivity;
    first [apply Hput | apply CSFacts.lookup_open].
Qed.

(** X6 for the durable store and a network-first execution. *)
Lemma strategy_writes_its_tier_only_witness :
  same_tier DATA_CACHE
    (snd (execute Sample.online NetworkFirst Sample.exercisesPage Queue.exercise))
    Queue.exercise.
Proof.
  apply (strategy_writes_its_tier_only Sample.online NetworkFirst Sample.exercisesPage
           Queue.exercise DATA_CACHE).
  intros H. vm_compute in H. discriminate H.
Defined.

(** ** Revalidation behind an earlier tier *)

Lemma match_any_app_empty (key tier : string) cs :
  CS.match_any key (cs ++ [(tier, ∅)]) = CS.match_any key cs.
Proof.
  induction cs as [|[n c] cs IH]; cbn [app CS.match_any].
  - now rewrite lookup_empty.
  - destruct (c !! key); [reflexivity | exact IH].
Qed.

Lemma match_any_open (key tier : string) cs :
  CS.match_any key (CS.open tier cs) = CS.match_any key cs.
Proof. unfold CS.open. destruct (CS.has tier cs); [reflexivity | apply match_any_app_empty]. Qed.

Lemma shadows_app_tier (tier key : string) cs :
  shadows tier key (cs ++ [(tier, ∅)]) = shadows tier key cs.
Proof.
  induction cs as [|[n c] cs IH]; cbn [app shadows].
  - now rewrite String.eqb_refl.
  - destruct (String.eqb n tier); [reflexivity |]. destruct (c !! key); [reflexivity | exact IH].
Qed.

Lemma shadows_open (tier key : string) cs :
  shadows tier key (CS.open tier cs) = shadows tier key cs.
Proof. unfold CS.open. destruct (CS.has tier cs); [reflexivity | apply shadows_app_tier]. Qed.

Lemma shadows_put (tier key key' : string) (r : Response) cs :
  shadows tier key (CS.put tier key' r cs) = shadows tier key cs.
Proof.
  unfold CS.put. induction cs as [|[n c] cs IH]; [reflexivity |].
  cbn [CS.update shadows]. destruct (String.eqb n tier) eqn:E; cbn [shadows]; rewrite E.
  - reflexivity.
  - destruct (c !! key); [reflexivity | exact IH].
Qed.

Lemma match_any_put_shadowed (tier key key' : string) (r : Response) cs :
  shadows tier key cs = true ->
  CS.match_any key (CS.put tier key' r cs) = CS.match_any key cs.
Proof.
  unfold CS.put. induction cs as [|[n c] cs IH]; [reflexivity |].
  cbn [CS.update shadows CS.match_any]. destruct (String.eqb n tier); [discriminate |].
  cbn [CS.match_any]. destruct (c !! key); [reflexivity | exact IH].
Qed.

(** One execution of stale-while-revalidate on a shadowed entry. *)
Lemma revalidate_shadowed_step
    (net : Network) (request : Request) (w : World) (r : Response) :
  shadows RUNTIME_CACHE (href (url request)) (caches w) = true ->
  CS.match_any (href (url request)) (caches w) = Some r ->
  let out := handleStaleWhileRevalidate net request w in
  fst out = Ret (Some r) /\
  shadows RUNTIME_CACHE (href (url request)) (caches (snd out)) = true /\
  CS.match_any (href (url request)) (caches (snd out)) = Some r.
Proof.
  intros Hs Hm. cbv zeta.
  unfold handleStaleWhileRevalidate, try_catch, bind, caches_match, fetch, when, ret,
    caches_open, cache_put.
  rewrite Hm. destruct (net (ticks w) (get_call request)) as [|r'];
    cbn [fst snd caches tick]; [auto |].
  destruct (status r' =? 200); cbn [fst snd caches tick set_caches log_event]; [| auto].
  repeat split.
  - now rewrite shadows_put, shadows_open.
  - rewrite match_any_put_shadowed by (now rewrite shadows_open).
    now rewrite match_any_open.
Qed.

(** X7: a page that an earlier tier holds is never refreshed by
    stale-while-revalidate.  The fresh response goes to the runtime tier, but
    [caches.match] reads the caches in creation order and finds the entry of
    the earlier tier first: every repetition of the request is answered with
    that same entry, whatever the network answers in between. *)
Theorem revalidation_never_reaches_shadowed_entry
    (location_origin : string) (net : Network) (request : Request)
    (w : World) (r : Response) (n : nat) :
  route location_origin request = Some StaleWhileRevalidate ->
  shadows RUNTIME_CACHE (href (url request)) (caches w) = true ->
  CS.match_any (href (url request)) (caches w) = Some r ->
  exists h,
    onFetch location_origin net request = Some h /\
    fst (serve n h w) = repeat (Ret (Some r)) n.
Proof.
  intros Hroute Hs0 Hm0. exists (handleStaleWhileRevalidate net request).
  split; [rewrite onFetch_route, Hroute; reflexivity |].
  revert w Hs0 Hm0. induction n as [|n IH]; intros w Hs Hm; [reflexivity |].
  destruct (revalidate_shadowed_step net request w r Hs Hm) as (Hr & Hs' & Hm').
  cbn [serve repeat].
  destruct (handleStaleWhileRevalidate net request w) as [res w1]. cbn [fst snd] in *.
  specialize (IH w1 Hs' Hm').
  destruct (serve n (handleStaleWhileRevalidate net request) w1) as [rs w2].
  cbn [fst] in *. now rewrite Hr, IH.
Qed.

(** X7 for [/index.html] after an install: the page is published again, and
    three requests in a row are still answered with the seeded copy. *)
Lemma revalidation_never_reaches_shadowed_entry_witness :
  exists h,
    onFetch Sample.site Precache.republished Precache.indexPage = Some h /\
    fst (serve 3 h Precache.installed) = repeat (Ret (Some Precache.seededIndex)) 3.
Proof.
  apply (revalidation_never_reaches_shadowed_entry Sample.site Precache.republished
           Precache.indexPage Precache.installed Precache.seededIndex 3).
  - reflexivity.
  - vm_compute. reflexivity.
  - vm_compute. reflexivity.
Defined.

(** ** Replays: the calls made, retries, and the way from the page to the server *)

Lemma fetched_app (tr1 tr2 : list Event) :
  fetched (tr1 ++ tr2) = (fetched tr1 ++ fetched tr2)%list.
Proof.
  induction tr1 as [|e tr1 IH]; [reflexivity |].
  destruct e; cbn; now rewrite ?IH.
Qed.

Lemma fetched_broadcast (m : Message) (cl : list Client) :
  fetched (List.map (fun c => EvPostMessage (client_id c) m) cl) = [].
Proof. induction cl as [|c cl IH]; [reflexivity | exact IH]. Qed.

Lemma attempted_all_answered (net : Network) (t0 : nat) (calls : list Call) :
  all_answered net t0 calls = true -> attempted net t0 calls = calls.
Proof.
  revert t0. induction calls as [|c calls IH]; intros t0; [reflexivity |].
  cbn [all_answered attempted]. destruct (net t0 c); [discriminate |].
  intros H. now rewrite IH.
Qed.

Section ReplayCalls.

Variable location_origin : string.
Variable net : Network.

Lemma replay_loop_calls (endpoint : string) (items : list json) (w : World) :
  let out := forEach items
               (fun data => exec fetch net (post_to endpoint data); ret tt) w in
  fetched (trace (snd out))
  = (fetched (trace w) ++ attempted net (ticks w) (List.map (post_to endpoint) items))%list.
Proof.
  cbv zeta. revert w. induction items as [|data items IH]; intros w.
  - cbn. now rewrite app_nil_r.
  - cbn [forEach List.map attempted]. rewrite bind_eq, bind_eq, fetch_eq. cbn [fst snd].
    assert (Ht : fetched (trace (tick (post_to endpoint data) w))
                 = (fetched (trace w) ++ [post_to endpoint data])%list).
    { unfold tick. cbn [trace]. now rewrite fetched_app. }
    destruct (net (ticks w) (post_to endpoint data)) as [|r]; cbn [fst snd ret].
    + exact Ht.
    + rewrite IH, Ht. cbn [ticks tick]. now rewrite <- app_assoc.
Qed.

Lemma syncExerciseData_calls (w : World) :
  replay_calls_of location_origin net ExerciseData w (snd (syncExerciseData location_origin net w)).
Proof.
  unfold replay_calls_of, syncExerciseData.
  rewrite try_catch_ret_snd, bind_eq, getStoredData_eq. cbn [fst snd replay_plan topic_key].
  set (w1 := set_caches (CS.open DATA_CACHE (caches w)) w).
  destruct (pending (decode (stored location_origin "pending-exercise-data" w))) as [|items].
  - cbn [snd ret]. now rewrite app_nil_r.
  - rewrite bind_eq.
    pose proof (replay_loop_calls "/api/exercises/progress" items w1) as Hcalls.
    destruct (replay_loop net "/api/exercises/progress" items w1) as (_ & _ & _ & Hr).
    cbv zeta in Hcalls. unfold post_to in *. rewrite Hr.
    change (ticks w1) with (ticks w) in *. change (trace w1) with (trace w) in *.
    destruct (all_answered net (ticks w) _); [| exact Hcalls].
    rewrite bind_eq, clearStoredData_eq. cbn [fst snd].
    rewrite bind_eq. unfold clients_matchAll. cbn [fst snd]. rewrite broadcast_eq.
    cbn [snd trace set_caches]. now rewrite fetched_app, fetched_broadcast, app_nil_r.
Qed.

Lemma syncEyeHealthData_calls (w : World) :
  replay_calls_of location_origin net EyeHealth w (snd (syncEyeHealthData location_origin net w)).
Proof.
  unfold replay_calls_of, syncEyeHealthData.
  rewrite try_catch_ret_snd, bind_eq, getStoredData_eq. cbn [fst snd replay_plan topic_key].
  set (w1 := set_caches (CS.open DATA_CACHE (caches w)) w).
  destruct (pending (decode (stored location_origin "pending-health-data" w))) as [|items].
  - cbn [snd ret]. now rewrite app_nil_r.
  - rewrite bind_eq.
    pose proof (replay_loop_calls "/api/eye-health" items w1) as Hcalls.
    destruct (replay_loop net "/api/eye-health" items w1) as (_ & _ & _ & Hr).
    cbv zeta in Hcalls. unfold post_to in *. rewrite Hr.
    change (ticks w1) with (ticks w) in *. change (trace w1) with (trace w) in *.
    destruct (all_answered net (ticks w) _); [| exact Hcalls].
    cbv iota beta. rewrite clearStoredData_eq. cbn [snd trace set_caches]. exact Hcalls.
Qed.

Lemma syncUserSettings_calls (w : World) :
  replay_calls_of location_origin net UserSettings w (snd (syncUserSettings location_origin net w)).
Proof.
  unfold replay_calls_of, syncUserSettings.
  rewrite try_catch_ret_snd, bind_eq, getStoredData_eq. cbn [fst snd replay_plan topic_key].
  set (w1 := set_caches (CS.open DATA_CACHE (caches w)) w).
  set (record := decode (stored location_origin "pending-settings" w)).
  destruct (truthy record).
  - rewrite bind_eq, fetch_eq. cbn [fst snd attempted].
    change (ticks w1) with (ticks w).
    set (c := mkCall "/api/settings" "PUT" (Some (stringify record))).
    assert (Ht : fetched (trace (tick c w1)) = (fetched (trace w) ++ [c])%list).
    { unfold tick. cbn [trace]. now rewrite fetched_app. }
    destruct (net (ticks w) c) as [|r]; cbn [fst snd ret]; [exact Ht |].
    rewrite clearStoredData_eq. cbn [snd trace set_caches]. exact Ht.
  - cbn [snd ret]. now rewrite app_nil_r.
Qed.

Lemma onSync_calls (t : Topic) (w : World) :
  replay_calls_of location_origin net t w (snd (onSync location_origin net (topic_tag t) w)).
Proof.
  destruct t; cbn [onSync topic_tag String.eqb Ascii.eqb Bool.eqb];
    [apply syncExerciseData_calls | apply syncEyeHealthData_calls
     | apply syncUserSettings_calls].
Qed.

Lemma onSync_outcome (t : Topic) (w : World) :
  exists b, replay_outcome location_origin net t w
              (snd (onSync location_origin net (topic_tag t) w)) b.
Proof.
  destruct t; eexists; cbn [onSync topic_tag String.eqb Ascii.eqb Bool.eqb];
    [apply syncExerciseData_outcome | apply syncEyeHealthData_outcome
     | apply syncUserSettings_outcome].
Qed.

End ReplayCalls.

(** X8: a replay sends the queued mutations one at a time in the order
    they were stored, each as the JSON text of the item, and stops at the first
    call the network does not answer: the calls it adds to the trace are the
    planned calls up to and including that one, and all of them when every call
    is answered. *)
Theorem replay_sends_in_order_until_failure
    (location_origin : string) (net : Network) (t : Topic) (w : World) :
  fetched (trace (snd (onSync location_origin net (topic_tag t) w)))
  = (fetched (trace w)
     ++ match replay_plan t (decode (stored location_origin (topic_key t) w)) with
        | Some calls => attempted net (ticks w) calls
        | None => []
        end)%list.
Proof. apply onSync_calls. Qed.

(** X9: the queue delivers at least once, not exactly once.  When a replay
    stops at a call the network does not answer, the record stays whole, and
    the next replay on a network that answers sends every mutation again from
    the first one, those already delivered included, before it clears the
    record. *)
Theorem failed_replay_is_repeated_in_full
    (location_origin : string) (net : Network) (t : Topic) (w : World)
    (calls : list Call) :
  replay_plan t (decode (stored location_origin (topic_key t) w)) = Some calls ->
  all_answered net (ticks w) calls = false ->
  let w1 := snd (onSync location_origin net (topic_tag t) w) in
  all_answered net (ticks w1) calls = true ->
  let w2 := snd (onSync location_origin net (topic_tag t) w1) in
  fetched (trace w2)
    = (fetched (trace w) ++ attempted net (ticks w) calls ++ calls)%list /\
  stored location_origin (topic_key t) w1 = stored location_origin (topic_key t) w /\
  stored location_origin (topic_key t) w2 = None.
Proof.
  intros Hplan Hfail w1 Hok w2.
  destruct (onSync_outcome location_origin net t w) as [b1 H1].
  unfold replay_outcome in H1. cbv zeta in H1. rewrite Hplan, Hfail in H1.
  destruct H1 as [Hstored1 _]. fold w1 in Hstored1.
  assert (Hplan1 : replay_plan t (decode (stored location_origin (topic_key t) w1))
                   = Some calls) by (now rewrite Hstored1).
  destruct (onSync_outcome location_origin net t w1) as [b2 H2].
  unfold replay_outcome in H2. cbv zeta in H2. rewrite Hplan1, Hok in H2.
  destruct H2 as [Hstored2 _]. fold w2 in Hstored2.
  pose proof (onSync_calls location_origin net t w) as C1.
  pose proof (onSync_calls location_origin net t w1) as C2.
  unfold replay_calls_of in C1, C2. fold w1 in C1, C2. fold w2 in C2.
  rewrite Hplan in C1. rewrite Hplan1, (attempted_all_answered _ _ _ Hok) in C2.
  split; [| split].
  - rewrite C2, C1. now rewrite <- app_assoc.
  - apply Hstored1.
  - rewrite Hstored2. now rewrite same_record_refl.
Qed.

(** X9 on two exercise samples: the second call of the first replay is lost,
    and the first sample is posted twice. *)
Lemma failed_replay_is_repeated_in_full_witness :
  let calls := List.map (post_to "/api/exercises/progress")
                 [Queue.sample 12; Queue.sample 15] in
  let w1 := snd (onSync Sample.site Replays.secondCallLost "sync-exercise-data"
                   Queue.exercise) in
  let w2 := snd (onSync Sample.site Replays.secondCallLost "sync-exercise-data" w1) in
  fetched (trace w2) = (fetched (trace Queue.exercise)
                        ++ attempted Replays.secondCallLost (ticks Queue.exercise) calls
                        ++ calls)%list /\
  stored Sample.site "pending-exercise-data" w1
    = stored Sample.site "pending-exercise-data" Queue.exercise /\
  stored Sample.site "pending-exercise-data" w2 = None.
Proof.
  apply (failed_replay_is_repeated_in_full Sample.site Replays.secondCallLost ExerciseData
           Queue.exercise
           (List.map (post_to "/api/exercises/progress") [Queue.sample 12; Queue.sample 15])).
  - vm_compute. reflexivity.
  - reflexivity.
  - vm_compute. reflexivity.
Defined.

(** ** Install: what it touches, and what it makes available offline *)

(** The world the three tiers of the install leave, before [skipWaiting]. *)
Lemma install_summary (location_origin : string) (net : Network) (w : World) :
  let out := onInstall location_origin net w in
  let ok1 := seeds_ok location_origin net (ticks w) CORE_FILES in
  let ok2 := seeds_ok location_origin net (ticks w + 9) EXERCISE_ASSETS in
  (forall name,
      name <> STATIC_CACHE -> name <> ASSETS_CACHE -> name <> DYNAMIC_CACHE ->
      same_tier name (snd out) w) /\
  (ok1 = true -> forall u, In u CORE_FILES ->
     exists r, CS.lookup STATIC_CACHE (resolve location_origin u) (caches (snd out)) = Some r) /\
  (ok2 = true -> forall u, In u EXERCISE_ASSETS ->
     exists r, CS.lookup ASSETS_CACHE (resolve location_origin u) (caches (snd out)) = Some r) /\
  ticks (snd out) = (ticks w + 16)%nat.
Proof.
  cbv zeta. destruct tiers_distinct as (Hsa & Hsd & Had).
  unfold onInstall.
  set (t1 := do cache <- caches_open STATIC_CACHE;
             cache_addAll location_origin net cache CORE_FILES).
  set (t2 := do cache <- caches_open ASSETS_CACHE;
             cache_addAll location_origin net cache EXERCISE_ASSETS).
  set (t3 := do cache <- caches_open DYNAMIC_CACHE;
             promise_all (List.map (fun u => cache_add location_origin net cache u)
                            EXTERNAL_RESOURCES)).
  set (w1 := snd (t1 w)). set (w2 := snd (t2 w1)). set (w3 := snd (t3 w2)).
  pose proof (addAll_tier location_origin net STATIC_CACHE) as T1.
  pose proof (addAll_tier location_origin net ASSETS_CACHE) as T2.
  pose proof (addAll_tier location_origin net DYNAMIC_CACHE) as T3.
  destruct (add_one_tier location_origin net DYNAMIC_CACHE
              "https://fonts.googleapis.com/css2?family=Inter:wght@300;400;500;600;700;800;900&display=swap"
              w2) as (_ & W3e).
  change (w3 = snd ((do cache <- caches_open DYNAMIC_CACHE;
            cache_addAll location_origin net cache EXTERNAL_RESOURCES) w2)) in W3e.
  assert (Hw : snd (try_catch (exec promise_all [t1; t2; t3]; skipWaiting) (ret tt) w) = w3
               \/ snd (try_catch (exec promise_all [t1; t2; t3]; skipWaiting) (ret tt) w)
                  = log_event EvSkipWaiting w3).
  { rewrite try_catch_ret_snd, bind_eq, !promise_all_cons, promise_all_nil.
    cbn [fst snd]. fold w1 w2 w3.
    destruct (fulfilled (fst (t1 w))), (fulfilled (fst (t2 w1))),
      (fulfilled (fst (t3 w2))); cbn [andb fulfilled snd];
      first [left; reflexivity | right; reflexivity]. }
  assert (Hsame : forall name, same_tier name
                    (snd (try_catch (exec promise_all [t1; t2; t3]; skipWaiting) (ret tt) w)) w3).
  { intros name key. destruct Hw as [-> | ->]; reflexivity. }
  assert (Hticks : ticks (snd (try_catch (exec promise_all [t1; t2; t3]; skipWaiting)
                                 (ret tt) w)) = ticks w3).
  { destruct Hw as [-> | ->]; reflexivity. }
  destruct (T1 STATIC_CACHE CORE_FILES w) as (_ & K1 & _ & _ & _ & Seed1).
  fold t1 in K1, Seed1. fold w1 in K1, Seed1.
  destruct (T2 ASSETS_CACHE EXERCISE_ASSETS w1) as (_ & K2 & _ & _ & _ & Seed2).
  fold t2 in K2, Seed2. fold w2 in K2, Seed2.
  destruct (T3 DYNAMIC_CACHE EXTERNAL_RESOURCES w2) as (_ & K3 & _ & _ & _ & _).
  rewrite <- W3e in K3.
  assert (E1 : ticks w1 = (ticks w + 9)%nat) by exact K1.
  rewrite E1 in Seed2.
  split; [| split; [| split]].
  - intros name N1 N2 N3.
    destruct (T1 name CORE_FILES w) as (_ & _ & _ & _ & F1 & _).
    fold t1 in F1. fold w1 in F1.
    destruct (T2 name EXERCISE_ASSETS w1) as (_ & _ & _ & _ & F2 & _).
    fold t2 in F2. fold w2 in F2.
    destruct (T3 name EXTERNAL_RESOURCES w2) as (_ & _ & _ & _ & F3 & _).
    rewrite <- W3e in F3.
    apply (same_tier_trans _ _ w3); [apply Hsame |].
    apply (same_tier_trans _ _ w2); [apply F3; now left |].
    apply (same_tier_trans _ _ w1); [apply F2; now left | apply F1; now left].
  - intros Hok u Hu.
    destruct (T2 STATIC_CACHE EXERCISE_ASSETS w1) as (_ & _ & _ & _ & F2 & _).
    fold t2 in F2. fold w2 in F2.
    destruct (T3 STATIC_CACHE EXTERNAL_RESOURCES w2) as (_ & _ & _ & _ & F3 & _).
    rewrite <- W3e in F3.
    rewrite (Hsame STATIC_CACHE _), (F3 (or_introl Hsd) _), (F2 (or_introl Hsa) _).
    now apply Seed1.
  - intros Hok u Hu.
    destruct (T3 ASSETS_CACHE EXTERNAL_RESOURCES w2) as (_ & _ & _ & _ & F3 & _).
    rewrite <- W3e in F3.
    rewrite (Hsame ASSETS_CACHE _), (F3 (or_introl Had) _).
    now apply Seed2.
  - rewrite Hticks, K3, K2, E1. cbn [length CORE_FILES EXERCISE_ASSETS EXTERNAL_RESOURCES]. lia.
Qed.

(** X11: an install, whether its seeds are fetched or not, writes to the
    static, assets and dynamic tiers of this generation only: the entries of
    every other cache, the runtime tier, the tiers of older generations and the
    durable store of the queue among them, are what they were. *)
Theorem install_writes_three_tiers_only
    (location_origin : string) (net : Network) (w : World) (name : string) :
  name <> STATIC_CACHE -> name <> ASSETS_CACHE -> name <> DYNAMIC_CACHE ->
  same_tier name (snd (onInstall location_origin net w)) w.
Proof.
  intros N1 N2 N3.
  destruct (install_summary location_origin net w) as (H & _). now apply H.
Qed.

(** X11 for the durable store, while mutations are queued and an icon is
    missing. *)
Lemma install_writes_three_tiers_only_witness :
  same_tier DATA_CACHE (snd (onInstall Sample.site Seeds.iconMissing Queue.exercise))
    Queue.exercise.
Proof.
  apply (install_writes_three_tiers_only Sample.site Seeds.iconMissing Queue.exercise
           DATA_CACHE);
    intros H; vm_compute in H; discriminate H.
Defined.

Lemma route_answers (location_origin : string) (request : Request) :
  method request = "GET" ->
  protocol (url request) <> "chrome-extension:" ->
  exists s, route location_origin request = Some s.
Proof.
  intros Hm Hp. unfold route. rewrite Hm.
  destruct (String.eqb_spec (protocol (url request)) "chrome-extension:"); [contradiction |].
  cbn [String.eqb Ascii.eqb Bool.eqb negb orb].
  repeat match goal with |- context [if ?b then _ else _] => destruct b end; eauto.
Qed.

(** X12: what the install promises.  After an install in which the core
    files and the exercise assets were all fetched, a GET request for any of
    them is answered from the caches when the network is unreachable, whichever
    strategy the request is routed to. *)
Theorem installed_files_are_served_offline
    (location_origin : string) (net : Network) (w : World)
    (u : string) (request : Request) :
  seeds_ok location_origin net (ticks w) CORE_FILES = true ->
  seeds_ok location_origin net (ticks w + 9) EXERCISE_ASSETS = true ->
  In u (CORE_FILES ++ EXERCISE_ASSETS)%list ->
  method request = "GET" ->
  protocol (url request) <> "chrome-extension:" ->
  href (url request) = resolve location_origin u ->
  let w' := snd (onInstall location_origin net w) in
  net (ticks w') (get_call request) = NetworkError ->
  exists h r,
    onFetch location_origin net request = Some h /\
    fst (h w') = Ret (Some r) /\
    CS.match_any (href (url request)) (caches w') = Some r.
Proof.
  intros Hok1 Hok2 Hu Hm Hp Hhref w' Hnet.
  destruct (install_summary location_origin net w) as (_ & Hs1 & Hs2 & _).
  fold w' in Hs1, Hs2.
  assert (Hstored : exists tier r0,
             CS.lookup tier (href (url request)) (caches w') = Some r0).
  { rewrite Hhref. apply in_app_or in Hu as [Hu | Hu].
    - destruct (Hs1 Hok1 u Hu) as [r0 H]. eauto.
    - destruct (Hs2 Hok2 u Hu) as [r0 H]. eauto. }
  destruct Hstored as (tier & r0 & Hlookup).
  destruct (match_any_lookup _ _ _ _ Hlookup) as [r Hmatch].
  destruct (route_answers location_origin request Hm Hp) as [s Hroute].
  exists (execute net s request), r. split; [| split].
  - rewrite onFetch_route, Hroute. reflexivity.
  - apply (execute_offline_hit net s request w' r Hmatch Hnet).
  - exact Hmatch.
Qed.

(** X12 for the exercises page, requested as a document once the network is
    gone. *)
Lemma installed_files_are_served_offline_witness :
  exists h r,
    onFetch Sample.site Outage.afterInstall Sample.exercisesPage = Some h /\
    fst (h (snd (onInstall Sample.site Outage.afterInstall Sample.fresh))) = Ret (Some r) /\
    CS.match_any (href (url Sample.exercisesPage))
      (caches (snd (onInstall Sample.site Outage.afterInstall Sample.fresh))) = Some r.
Proof.
  apply (installed_files_are_served_offline Sample.site Outage.afterInstall Sample.fresh
           "/exercises.html" Sample.exercisesPage).
  - vm_compute. reflexivity.
  - vm_compute. reflexivity.
  - right. right. left. reflexivity.
  - reflexivity.
  - discriminate.
  - reflexivity.
  - vm_compute. reflexivity.
Defined.

(** ** Notifications: the payload of a push and the click *)

Lemma field_app (k : string) (l1 l2 : list (string * json)) :
  Obj.field k (l1 ++ l2)%list
  = match Obj.field k l2 with
    | Some v => Some v
    | None => Obj.field k l1
    end.
Proof.
  induction l1 as [|kv l1 IH]; cbn [app Obj.field].
  - now destruct (Obj.field k l2).
  - rewrite IH. now destruct (Obj.field k l2).
Qed.

Lemma field_replace (k k' : string) (v : json) (fields : list (string * json)) :
  Obj.field k (Obj.replace k' v fields)
  = if String.eqb k' k
    then match Obj.field k fields with Some _ => Some v | None => None end
    else Obj.field k fields.
Proof.
  induction fields as [|kv fields IH]; cbn [Obj.replace Obj.field fst snd].
  - now destruct (String.eqb k' k).
  - rewrite IH. destruct (String.eqb_spec k' k) as [-> | Hne].
    + destruct (Obj.field k fields); [reflexivity |].
      destruct (String.eqb (fst kv) k); reflexivity.
    + destruct (Obj.field k fields); [reflexivity |].
      destruct (String.eqb_spec (fst kv) k) as [E | _]; [| reflexivity].
      destruct (String.eqb_spec (fst kv) k') as [E' | _]; [congruence | reflexivity].
Qed.

Lemma field_set (k k' : string) (v : json) (fields : list (string * json)) :
  Obj.field k (Obj.set k' v fields)
  = if String.eqb k' k then Some v else Obj.field k fields.
Proof.
  unfold Obj.set. destruct (Obj.field k' fields) as [old|] eqn:Hold.
  - rewrite field_replace. destruct (String.eqb_spec k' k) as [<- | _]; [| reflexivity].
    now rewrite Hold.
  - rewrite field_app. cbn [Obj.field fst snd].
    destruct (String.eqb_spec k' k) as [<- | _]; [reflexivity |].
    reflexivity.
Qed.

Lemma field_assign (k : string) (source target : list (string * json)) :
  Obj.field k (Obj.assign target source)
  = match Obj.field k source with
    | Some v => Some v
    | None => Obj.field k target
    end.
Proof.
  unfold Obj.assign. revert target.
  induction source as [|kv source IH]; intros target; cbn [fold_left Obj.field];
    [reflexivity |].
  rewrite IH, field_set. destruct (Obj.field k source); [reflexivity |].
  now destruct (String.eqb (fst kv) k).
Qed.


Lemma click_eq (action : string) (data : option json) (w : World) :
  onNotificationClick action data w
  = (Ret (let source := or_empty data in
          let url := default (JStr "/exercises.html") (Obj.prop source "url") in
          let exerciseType := default (JStr "20-20-20") (Obj.prop source "exerciseType") in
          match List.find (fun c => Str.includes (client_url c) "lumina") (clients w) with
          | Some c =>
              [ UiClose; UiFocus (client_id c);
                UiPost (client_id c) (mkActionMessage action exerciseType data) ]
          | None => [ UiClose; UiOpen (targetUrl action url exerciseType) ]
          end), w).
Proof.
  unfold onNotificationClick. cbv zeta. rewrite bind_eq.
  change (clients_matchAll w) with (Ret (clients w), w). cbn [fst snd].
  now destruct (List.find _ (clients w)).
Qed.

(** X14: the click on a reminder whose payload did not replace [data].
    The notification is closed first.  If a window whose URL contains
    [lumina] is open, the first such window is focused and told the action,
    and no window is opened; otherwise exactly one window is opened, on a URL
    chosen by the action, and for a click that is none of the three actions
    that URL is the one of the notification followed by a second query
    string. *)
Theorem click_on_default_reminder
    (payload : PushPayload) (n : Notification) (action : string) (w : World) :
  onPush payload = Ret n ->
  match payload with
  | Json pushData => Obj.field "data" (Obj.own_entries pushData) = None
  | _ => True
  end ->
  let data := JObj [ ("url", JStr "/exercises.html?notification=break-reminder");
                     ("exerciseType", JStr "20-20-20") ] in
  Obj.field "data" (n_options n) = Some data /\
  onNotificationClick action (Obj.field "data" (n_options n)) w
  = (Ret match List.find (fun c => Str.includes (client_url c) "lumina") (clients w) with
         | Some c =>
             [ UiClose; UiFocus (client_id c);
               UiPost (client_id c) (mkActionMessage action (JStr "20-20-20") (Some data)) ]
         | None =>
             [ UiClose;
               UiOpen (if String.eqb action "start-exercise"
                       then "/exercises.html?quick=20-20-20&source=notification"
                       else if String.eqb action "view-guidelines"
                       then "/exercises.html?section=guidelines&source=notification"
                       else if String.eqb action "remind-later"
                       then "/exercises.html?action=remind-later"
                       else "/exercises.html?notification=break-reminder?source=notification") ]
         end, w).
Proof.
  intros Hn Hdata data.
  assert (Hfield : Obj.field "data" (n_options n) = Some data).
  { destruct payload as [| | pushData]; cbn in Hn; [| discriminate |].
    - injection Hn as <-. reflexivity.
    - injection Hn as <-. cbn [n_options]. rewrite field_assign, Hdata. reflexivity. }
  split; [exact Hfield |]. rewrite Hfield, click_eq. reflexivity.
Qed.

(** X14 for a payload that only changes the text, clicked on its body while
    no window is open. *)
Lemma click_on_default_reminder_witness :
  let payload := Json (JObj [("body", JStr "Look away for twenty seconds")]) in
  let options := Obj.assign defaultOptions [("body", JStr "Look away for twenty seconds")] in
  let w := mkWorld [] [] 0 [] in
  onNotificationClick "" (Obj.field "data" options) w
  = (Ret [ UiClose;
           UiOpen "/exercises.html?notification=break-reminder?source=notification" ], w).
Proof.
  exact (proj2 (click_on_default_reminder
                  (Json (JObj [("body", JStr "Look away for twenty seconds")]))
                  (mkNotification "Lumina AI - Eye Exercise Reminder"
                     (Obj.assign defaultOptions
                        [("body", JStr "Look away for twenty seconds")]))
                  "" (mkWorld [] [] 0 [])
                  eq_refl eq_refl)).
Defined.

(** ** Messages from the pages and reminders *)

Section PageFacts.

Variable location_origin : string.
Variable net : Network.

Lemma onMessage_store (now : Z) (syncAvailable hasPort : bool)
    (key : string) (value : json) (w : World) :
  onMessage location_origin now syncAvailable hasPort (Some (storeMessage key value)) w
  = (Ret None, snd (storeData location_origin key value w)).
Proof. reflexivity. Qed.

Lemma onMessage_schedule (now : Z) (syncAvailable hasPort : bool) (data : json) (w : World) :
  onMessage location_origin now syncAvailable hasPort (Some (scheduleMessage data)) w
  = (Ret None, snd (scheduleExerciseReminder location_origin now syncAvailable (Some data) w)).
Proof.
  unfold onMessage, scheduleMessage. cbn [or_empty truthy Obj.prop Obj.field fst snd
    String.eqb Ascii.eqb Bool.eqb]. rewrite bind_eq. unfold settle.
  now destruct (scheduleExerciseReminder location_origin now syncAvailable (Some data) w).
Qed.

Lemma onMessage_clear (now : Z) (syncAvailable hasPort : bool) (w : World) :
  onMessage location_origin now syncAvailable hasPort (Some clearMessage) w
  = (if hasPort then Ret (Some (JObj [("success", JBool true)])) else Throw,
     snd (clearAllCaches w)).
Proof.
  unfold onMessage, clearMessage. cbn [or_empty truthy Obj.prop Obj.field fst snd
    String.eqb Ascii.eqb Bool.eqb]. rewrite bind_eq.
  destruct (clearAllCaches_get w "") as [Hr _]. rewrite Hr.
  now destruct hasPort.
Qed.

Lemma stored_after_message (now : Z) (syncAvailable hasPort : bool)
    (key : string) (value : json) (w : World) :
  let w1 := snd (onMessage location_origin now syncAvailable hasPort
                   (Some (storeMessage key value)) w) in
  decode (stored location_origin key w1) = value /\
  ticks w1 = ticks w /\ fetched (trace w1) = fetched (trace w).
Proof.
  cbv zeta. rewrite onMessage_store. cbn [snd]. split; [| split].
  - rewrite stored_storeData, same_record_refl. apply decode_document.
  - reflexivity.
  - rewrite storeData_eq. cbn [snd trace log_event set_caches].
    rewrite fetched_app. cbn. apply app_nil_r.
Qed.

Lemma delete_each_calls (names : list string) (w : World) :
  ticks (snd (forEach names caches_delete w)) = ticks w /\
  fetched (trace (snd (forEach names caches_delete w))) = fetched (trace w).
Proof.
  revert w. induction names as [|n names IH]; intros w; [split; reflexivity |].
  cbn [forEach]. rewrite bind_eq.
  change (caches_delete n w)
    with (@Ret unit tt, log_event (EvCacheDelete n) (set_caches (CS.drop n (caches w)) w)).
  cbn [fst snd].
  destruct (IH (log_event (EvCacheDelete n) (set_caches (CS.drop n (caches w)) w)))
    as [Ht Hf].
  rewrite Ht, Hf. split; [reflexivity |].
  unfold log_event. cbn [trace set_caches]. rewrite fetched_app. cbn. apply app_nil_r.
Qed.

Lemma clearAllCaches_calls (w : World) :
  ticks (snd (clearAllCaches w)) = ticks w /\
  fetched (trace (snd (clearAllCaches w))) = fetched (trace w).
Proof.
  unfold clearAllCaches. rewrite try_catch_ret_snd, bind_eq.
  change (caches_keys w) with (Ret (CS.keys (caches w)), w). cbn [fst snd].
  rewrite bind_eq.
  destruct (delete_each (List.filter (fun n => Str.startsWith n "lumina-") (CS.keys (caches w)))
              w "") as [Hr _].
  rewrite Hr. cbn [snd ret]. apply delete_each_calls.
Qed.

Lemma due_numbers (now last minutes : Z) :
  Z.abs now <= 2 ^ 52 -> Z.abs last <= 2 ^ 52 -> Z.abs minutes <= 15 * 10 ^ 10 ->
  due now (Some (JNum last)) (Some (JNum minutes))
  = Some (minutes * 60 * 1000 <=? now - last).
Proof.
  intros H1 H2 H3. unfold due, to_number, within.
  now rewrite (proj2 (Z.leb_le _ _) H1), (proj2 (Z.leb_le _ _) H2),
    (proj2 (Z.leb_le _ _) H3).
Qed.

Lemma schedule_available (now : Z) (fields : list (string * json)) (w : World) :
  scheduleExerciseReminder location_origin now true (Some (JObj fields)) w
  = storeData location_origin REMINDER_CONFIG
      (JObj [ ("exerciseType", default (JStr "20-20-20") (Obj.field "exerciseType" fields));
              ("intervalMinutes", default (JNum 20) (Obj.field "intervalMinutes" fields));
              ("lastReminder", JNum now) ]) w.
Proof. reflexivity. Qed.

Lemma schedule_unavailable (now : Z) (data : option json) (w : World) :
  snd (scheduleExerciseReminder location_origin now false data w) = w.
Proof. destruct data as [[]|]; reflexivity. Qed.

Lemma healthCheck_eq (now stamp : Z) (permitted : bool) (w : World) :
  let reminderConfig := decode (stored location_origin REMINDER_CONFIG w) in
  let w0 := set_caches (CS.open DATA_CACHE (caches w)) w in
  performExerciseHealthCheck location_origin now stamp permitted w
  = if truthy reminderConfig
    then match due now (Obj.prop (Some reminderConfig) "lastReminder")
                   (Obj.prop (Some reminderConfig) "intervalMinutes") with
         | Some true =>
             if permitted
             then (Ret (Fired (periodicReminder (Obj.prop (Some reminderConfig) "exerciseType"))),
                   snd (storeData location_origin REMINDER_CONFIG
                          (JObj (Obj.set "lastReminder" (JNum stamp)
                                   (Obj.assign [] (Obj.own_entries reminderConfig)))) w0))
             else (Ret Quiet, w0)
         | Some false => (Ret Quiet, w0)
         | None => (Ret OutOfBounds, w0)
         end
    else (Ret Quiet, w0).
Proof.
  cbv zeta. unfold performExerciseHealthCheck, try_catch. rewrite bind_eq, getStoredData_eq.
  cbn [fst snd].
  destruct (truthy (decode (stored location_origin REMINDER_CONFIG w))); [| reflexivity].
  destruct (due now _ _) as [[|]|]; [| reflexivity | reflexivity].
  destruct permitted; reflexivity.
Qed.

End PageFacts.

(** X10: from the page to the server.  When a page hands a value to the
    worker by a message under the key of a topic and the topic is then
    replayed on a network that answers, the server receives exactly the calls
    planned for that value (for the two list topics one POST per item, in
    order, whose body is the JSON text of the item), and the record is
    cleared. *)
Theorem enqueued_mutations_reach_server
    (location_origin : string) (net : Network) (t : Topic) (value : json)
    (now : Z) (syncAvailable hasPort : bool) (w : World) (calls : list Call) :
  replay_plan t value = Some calls ->
  all_answered net (ticks w) calls = true ->
  let w1 := snd (onMessage location_origin now syncAvailable hasPort
                   (Some (storeMessage (topic_key t) value)) w) in
  let w2 := snd (onSync location_origin net (topic_tag t) w1) in
  fetched (trace w2) = (fetched (trace w) ++ calls)%list /\
  stored location_origin (topic_key t) w2 = None.
Proof.
  intros Hplan Hok w1 w2.
  destruct (stored_after_message location_origin now syncAvailable hasPort
              (topic_key t) value w) as (Hdec & Hticks & Htrace).
  fold w1 in Hdec, Hticks, Htrace.
  destruct (onSync_outcome location_origin net t w1) as [b H].
  unfold replay_outcome in H. cbv zeta in H. rewrite Hdec, Hplan, Hticks, Hok in H.
  destruct H as [Hstored _]. fold w2 in Hstored.
  pose proof (onSync_calls location_origin net t w1) as C.
  unfold replay_calls_of in C. fold w2 in C.
  rewrite Hdec, Hplan, Hticks, (attempted_all_answered _ _ _ Hok), Htrace in C.
  split; [exact C |]. rewrite Hstored. now rewrite same_record_refl.
Qed.

(** X10 for the settings of a user. *)
Lemma enqueued_mutations_reach_server_witness :
  let value := JObj [("theme", JStr "dark"); ("reminders", JBool true)] in
  let w1 := snd (onMessage Sample.site 0 true false
                   (Some (storeMessage "pending-settings" value)) Sample.fresh) in
  let w2 := snd (onSync Sample.site Sample.online "sync-user-settings" w1) in
  fetched (trace w2)
    = (fetched (trace Sample.fresh)
       ++ [mkCall "/api/settings" "PUT" (Some (stringify value))])%list /\
  stored Sample.site "pending-settings" w2 = None.
Proof.
  apply (enqueued_mutations_reach_server Sample.site Sample.online UserSettings
           (JObj [("theme", JStr "dark"); ("reminders", JBool true)]) 0 true false
           Sample.fresh
           [mkCall "/api/settings" "PUT"
              (Some (stringify (JObj [("theme", JStr "dark"); ("reminders", JBool true)])))]).
  - reflexivity.
  - reflexivity.
Defined.

(** X15: a value handed over by a message replaces the record of its key:
    of two values stored under the key of a topic only the second is
    replayed, and nothing of the first reaches the server.  The calls of the
    replay are those planned for the second value, up to and including the
    first one the network does not answer. *)
Theorem stored_record_is_replaced
    (location_origin : string) (net : Network) (t : Topic) (first second : json)
    (now : Z) (syncAvailable hasPort : bool) (w : World) :
  let w1 := snd (onMessage location_origin now syncAvailable hasPort
                   (Some (storeMessage (topic_key t) first)) w) in
  let w2 := snd (onMessage location_origin now syncAvailable hasPort
                   (Some (storeMessage (topic_key t) second)) w1) in
  decode (stored location_origin (topic_key t) w2) = second /\
  fetched (trace (snd (onSync location_origin net (topic_tag t) w2)))
  = (fetched (trace w)
     ++ match replay_plan t second with
        | Some calls => attempted net (ticks w) calls
        | None => []
        end)%list.
Proof.
  intros w1 w2.
  destruct (stored_after_message location_origin now syncAvailable hasPort
              (topic_key t) first w) as (_ & Ht1 & Hf1).
  destruct (stored_after_message location_origin now syncAvailable hasPort
              (topic_key t) second w1) as (Hd2 & Ht2 & Hf2).
  fold w1 in Ht1, Hf1. fold w2 in Hd2, Ht2, Hf2.
  split; [exact Hd2 |].
  pose proof (onSync_calls location_origin net t w2) as C. unfold replay_calls_of in C.
  now rewrite Hd2, Ht2, Ht1, Hf2, Hf1 in C.
Qed.

(** X16: the message [CLEAR_CACHE] also deletes the durable store.  It is
    answered with [success: true] when it came with a port (and the listener
    fails after the deletion when it did not); afterwards no key of the store
    holds a record, and a replay of any topic sends nothing, whatever had been
    queued. *)
Theorem clear_cache_empties_offline_queue
    (location_origin : string) (net : Network) (t : Topic)
    (now : Z) (syncAvailable hasPort : bool) (w : World) :
  let out := onMessage location_origin now syncAvailable hasPort (Some clearMessage) w in
  fst out = (if hasPort then Ret (Some (JObj [("success", JBool true)])) else Throw) /\
  (forall key, stored location_origin key (snd out) = None) /\
  fetched (trace (snd (onSync location_origin net (topic_tag t) (snd out))))
  = fetched (trace w).
Proof.
  cbv zeta. rewrite onMessage_clear. cbn [fst snd].
  assert (Hnone : forall key, stored location_origin key (snd (clearAllCaches w)) = None).
  { intros key. unfold stored, CS.lookup.
    destruct (clearAllCaches_get w DATA_CACHE) as [_ Hg]. now rewrite Hg. }
  split; [reflexivity |]. split; [exact Hnone |].
  pose proof (onSync_calls location_origin net t (snd (clearAllCaches w))) as C.
  unfold replay_calls_of in C. rewrite Hnone in C.
  destruct (clearAllCaches_calls w) as [_ Hf]. rewrite Hf in C.
  rewrite C. destruct t; cbn; apply app_nil_r.
Qed.

(** X17: a reminder that was scheduled fires at the first health check for
    which the interval has elapsed since the time of scheduling, and not
    before.  When it fires the notification carries the exercise type that was
    scheduled and the configuration is stored again with the time of the check
    as its last reminder.  (Times within 2^52 ms, minutes within 15 * 10^10.) *)
Theorem scheduled_reminder_fires_when_due
    (location_origin : string) (fields : list (string * json)) (minutes t0 now stamp : Z)
    (hasPort : bool) (w : World) :
  default (JNum 20) (Obj.field "intervalMinutes" fields) = JNum minutes ->
  Z.abs t0 <= 2 ^ 52 -> Z.abs now <= 2 ^ 52 -> Z.abs minutes <= 15 * 10 ^ 10 ->
  let exerciseType := default (JStr "20-20-20") (Obj.field "exerciseType" fields) in
  let w1 := snd (onMessage location_origin t0 true hasPort
                   (Some (scheduleMessage (JObj fields))) w) in
  let out := onPeriodicSync location_origin "exercise-health-check" now stamp true w1 in
  if minutes * 60 * 1000 <=? now - t0
  then fst out = Ret (Fired (periodicReminder (Some exerciseType))) /\
       decode (stored location_origin REMINDER_CONFIG (snd out))
       = JObj [ ("exerciseType", exerciseType);
                ("intervalMinutes", JNum minutes);
                ("lastReminder", JNum stamp) ]
  else fst out = Ret Quiet /\
       decode (stored location_origin REMINDER_CONFIG (snd out))
       = JObj [ ("exerciseType", exerciseType);
                ("intervalMinutes", JNum minutes);
                ("lastReminder", JNum t0) ].
Proof.
  intros Hmin Ht0 Hnow Hminutes exerciseType w1 out.
  assert (Hcfg : decode (stored location_origin REMINDER_CONFIG w1)
                 = JObj [ ("exerciseType", exerciseType);
                          ("intervalMinutes", JNum minutes);
                          ("lastReminder", JNum t0) ]).
  { unfold w1. rewrite onMessage_schedule. cbn [snd]. rewrite schedule_available, Hmin.
    rewrite stored_storeData, same_record_refl. apply decode_document. }
  unfold out, onPeriodicSync. cbn [String.eqb Ascii.eqb Bool.eqb].
  pose proof (healthCheck_eq location_origin now stamp true w1) as E. cbv zeta in E.
  rewrite Hcfg in E.
  cbn [truthy Obj.prop Obj.field fst snd String.eqb Ascii.eqb Bool.eqb] in E.
  rewrite (due_numbers now t0 minutes Hnow Ht0 Hminutes) in E. rewrite E.
  destruct (minutes * 60 * 1000 <=? now - t0).
  - cbn [fst snd]. split; [reflexivity |].
    rewrite stored_storeData, same_record_refl, decode_document. reflexivity.
  - cbn [fst snd]. split; [reflexivity |]. rewrite stored_opened. exact Hcfg.
Qed.

(** X17 for a reminder every 30 minutes, checked after 31 minutes. *)
Lemma scheduled_reminder_fires_when_due_witness :
  let fields := [("exerciseType", JStr "palming"); ("intervalMinutes", JNum 30)] in
  let w1 := snd (onMessage Sample.site 1000 true false
                   (Some (scheduleMessage (JObj fields))) Sample.fresh) in
  let out := onPeriodicSync Sample.site "exercise-health-check" 1861000 1861005 true w1 in
  fst out = Ret (Fired (periodicReminder (Some (JStr "palming")))) /\
  decode (stored Sample.site REMINDER_CONFIG (snd out))
  = JObj [ ("exerciseType", JStr "palming");
           ("intervalMinutes", JNum 30);
           ("lastReminder", JNum 1861005) ].
Proof.
  apply (scheduled_reminder_fires_when_due Sample.site
           [("exerciseType", JStr "palming"); ("intervalMinutes", JNum 30)]
           30 1000 1861000 1861005 false Sample.fresh).
  - reflexivity.
  - vm_compute. discriminate.
  - vm_compute. discriminate.
  - vm_compute. discriminate.
Defined.

(** X18: where the platform has no background sync, or refuses the
    registration, scheduling stores nothing: with no configuration stored
    before, none is stored after, and every later health check stays quiet,
    whatever the clock reads. *)
Theorem reminder_needs_background_sync
    (location_origin : string) (data : json) (t0 now stamp : Z)
    (hasPort permitted : bool) (tag : string) (w : World) :
  stored location_origin REMINDER_CONFIG w = None ->
  let w1 := snd (onMessage location_origin t0 false hasPort
                   (Some (scheduleMessage data)) w) in
  let out := onPeriodicSync location_origin tag now stamp permitted w1 in
  w1 = w /\ fst out = Ret Quiet /\
  stored location_origin REMINDER_CONFIG (snd out) = None.
Proof.
  intros Hnone w1 out.
  assert (Hw : w1 = w).
  { unfold w1. rewrite onMessage_schedule. cbn [snd]. apply schedule_unavailable. }
  split; [exact Hw |]. unfold out. rewrite Hw. unfold onPeriodicSync.
  destruct (String.eqb tag "exercise-health-check").
  - pose proof (healthCheck_eq location_origin now stamp permitted w) as E. cbv zeta in E.
    rewrite Hnone in E. cbn [decode truthy] in E. rewrite E. cbn [fst snd].
    split; [reflexivity |]. now rewrite stored_opened.
  - cbn [fst snd ret]. split; [reflexivity | exact Hnone].
Qed.

(** X18 on a worker that has stored nothing. *)
Lemma reminder_needs_background_sync_witness :
  let data := JObj [("intervalMinutes", JNum 1)] in
  let w1 := snd (onMessage Sample.site 0 false true
                   (Some (scheduleMessage data)) Sample.fresh) in
  let out := onPeriodicSync Sample.site "exercise-health-check" 3600000 3600000 true w1 in
  w1 = Sample.fresh /\ fst out = Ret Quiet /\
  stored Sample.site REMINDER_CONFIG (snd out) = None.
Proof.
  apply (reminder_needs_background_sync Sample.site (JObj [("intervalMinutes", JNum 1)])
           0 3600000 3600000 true true "exercise-health-check" Sample.fresh).
  reflexivity.
Defined.

(** X19: a health check never throws, and it writes to the store only when
    it shows the notification: then the check was permitted and due, the
    configuration keeps every member but [lastReminder], which becomes the
    time of the check, and every other record of the store is what it was.  In
    every other case the whole store is what it was, so that a check refused
    by the platform is due again at the next one.  Stated for a clock and a
    stored configuration on which [due] is defined: integer numbers within
    its bounds, or values that are no numbers at all. *)
Theorem health_check_writes_only_when_it_fires
    (location_origin : string) (now stamp : Z) (permitted : bool) (w : World) :
  let reminderConfig := decode (stored location_origin REMINDER_CONFIG w) in
  let out := performExerciseHealthCheck location_origin now stamp permitted w in
  due now (Obj.prop (Some reminderConfig) "lastReminder")
          (Obj.prop (Some reminderConfig) "intervalMinutes") <> None ->
  match fst out with
  | Ret (Fired n) =>
      permitted = true /\
      due now (Obj.prop (Some reminderConfig) "lastReminder")
              (Obj.prop (Some reminderConfig) "intervalMinutes") = Some true /\
      n = periodicReminder (Obj.prop (Some reminderConfig) "exerciseType") /\
      (exists fields,
         decode (stored location_origin REMINDER_CONFIG (snd out)) = JObj fields /\
         forall k, Obj.field k fields
                   = if String.eqb "lastReminder" k then Some (JNum stamp)
                     else Obj.field k (Obj.own_entries reminderConfig)) /\
      (forall key, same_record REMINDER_CONFIG key = false ->
         stored location_origin key (snd out) = stored location_origin key w)
  | Ret Quiet =>
      forall key, stored location_origin key (snd out) = stored location_origin key w
  | Ret OutOfBounds => False
  | Throw => False
  end.
Proof.
  intros reminderConfig out Hdue.
  pose proof (healthCheck_eq location_origin now stamp permitted w) as E. cbv zeta in E.
  fold reminderConfig in E. unfold out. rewrite E. clear E.
  destruct (truthy reminderConfig);
    [| cbn [fst snd]; intros key; apply stored_opened].
  destruct (due now _ _) as [[|]|] eqn:Hd;
    [| cbn [fst snd]; intros key; apply stored_opened
     | now apply Hdue].
  destruct permitted; [| cbn [fst snd]; intros key; apply stored_opened].
  cbn [fst snd]. split; [reflexivity |]. split; [reflexivity |]. split; [reflexivity |].
  split.
  - eexists. split.
    + rewrite stored_storeData, same_record_refl. apply decode_document.
    + intros k. rewrite field_set, field_assign. cbn [Obj.field].
      destruct (String.eqb "lastReminder" k); [reflexivity |].
      now destruct (Obj.field k (Obj.own_entries reminderConfig)).
  - intros key Hkey. rewrite stored_storeData, Hkey. apply stored_opened.
Qed.

(** X19 for a check that is due but refused by the platform: nothing is
    shown and the configuration stays as it was scheduled. *)
Lemma health_check_writes_only_when_it_fires_witness :
  let w := snd (scheduleExerciseReminder Sample.site 1000 true
                  (Some (JObj [("intervalMinutes", JNum 30)])) Sample.fresh) in
  stored Sample.site REMINDER_CONFIG
    (snd (performExerciseHealthCheck Sample.site 1861000 1861005 false w))
  = stored Sample.site REMINDER_CONFIG w.
Proof.
  exact (health_check_writes_only_when_it_fires Sample.site 1861000 1861005 false
           (snd (scheduleExerciseReminder Sample.site 1000 true
                   (Some (JObj [("intervalMinutes", JNum 30)])) Sample.fresh))
           ltac:(vm_compute; discriminate) REMINDER_CONFIG).
Defined.

(** ** From an answer of the network to the answer given offline *)



Lemma lookup_put_open (tier key : string) (r : Response) cs :
  CS.lookup tier key (CS.put tier key r (CS.open tier cs)) = Some r.
Proof. now rewrite CSFacts.lookup_put, CSFacts.has_open, !String.eqb_refl. Qed.




(** ** Messages that carry no value *)

(** X21: the edges of [STORE_EXERCISE_DATA].  A message without [data], or
    whose [data] is [null], makes the listener throw and stores nothing.  A
    message whose [data] names the key of a topic but carries no [value]
    stores a document with an empty body: it reads back as [null], so that
    whatever was queued under the key is gone and a replay of the topic sends
    nothing. *)
Theorem store_message_without_value
    (location_origin : string) (net : Network) (t : Topic)
    (now : Z) (syncAvailable hasPort : bool) (w : World) :
  let send := onMessage location_origin now syncAvailable hasPort in
  let keyOnly := JObj [ ("type", JStr "STORE_EXERCISE_DATA");
                        ("data", JObj [("key", JStr (topic_key t))]) ] in
  send (Some (JObj [("type", JStr "STORE_EXERCISE_DATA")])) w = (Throw, w) /\
  send (Some (JObj [("type", JStr "STORE_EXERCISE_DATA"); ("data", JNull)])) w = (Throw, w) /\
  fst (send (Some keyOnly) w) = Ret None /\
  body <$> stored location_origin (topic_key t) (snd (send (Some keyOnly) w)) = Some "" /\
  decode (stored location_origin (topic_key t) (snd (send (Some keyOnly) w))) = JNull /\
  fetched (trace (snd (onSync location_origin net (topic_tag t) (snd (send (Some keyOnly) w)))))
  = fetched (trace w).
Proof.
  cbv zeta. split; [reflexivity |]. split; [reflexivity |]. split; [reflexivity |].
  set (w1 := snd (onMessage location_origin now syncAvailable hasPort _ w)).
  assert (Hs : stored location_origin (topic_key t) w1
               = Some (mkResponse 200 [("Content-Type", "application/json")] "")).
  { unfold stored. apply lookup_put_open. }
  assert (Hd : decode (stored location_origin (topic_key t) w1) = JNull)
    by (rewrite Hs; reflexivity).
  split; [now rewrite Hs |]. split; [exact Hd |].
  pose proof (onSync_calls location_origin net t w1) as C. unfold replay_calls_of in C.
  rewrite Hd in C. rewrite C.
  assert (Hf : fetched (trace w1) = fetched (trace w)).
  { unfold w1. cbn. rewrite fetched_app. cbn. apply app_nil_r. }
  rewrite Hf. destruct t; cbn; apply app_nil_r.
Qed.
